(** * Verification of the MinRUE and RAGFlow HTTP clients

    A shallow embedding of [minrue_client.py] and [ragflow_client.py].

    The Python code is effectful: it talks to a remote service through a
    [requests] session, reads the wall clock, sleeps, opens files and
    prints.  The embedding threads an explicit [State] (clock, request
    counter, open file descriptors, event trace) through a small
    state-and-exception monad; the environment the program runs in (file
    system, remote service, value rendering of the interpreter) is a
    [World] that every computation reads. *)

From Stdlib Require Import Ascii ZArith Lia.
From stdpp Require Import gmap strings list pretty.

Set Warnings "-register-all".
Open Scope Z_scope.

(** ** Parsed JSON values

    What [response.json()] returns: [None], [bool], [int], [float], [str],
    [list] and [dict] with string keys.  A float is kept as a decimal
    mantissa and exponent; no operation of the clients computes with it. *)

Inductive json : Type :=
| JNull
| JBool (b : bool)
| JInt (n : Z)
| JFloat (mantissa exponent : Z)
| JString (s : string)
| JArray (xs : list json)
| JObject (kvs : gmap string json).

(** ** HTTP messages *)

Record Response := mkResponse {
  status_code : Z;
  (** the reason phrase of the status line *)
  reason : string;
  (** [response.url]: the URL the response came from *)
  resp_url : string;
  (** whether the response carries a [Retry-After] header *)
  retry_after : bool;
  text : string;
  (** the body parsed as JSON, [None] when the body is not valid JSON *)
  parsed : option json
}.

Inductive Payload :=
| NoPayload
| JsonPayload (body : json)                       (* json=... *)
| QueryParams (params : json)                     (* params=... *)
| Multipart (files : list (string * (string * nat)))
            (data : list (string * string)).      (* files=..., data=... *)

(** The value of a header: a string the code gives, or one of the two
    values [requests] computes for its default headers, which depend on
    the installed versions. *)
Inductive header_value :=
| Literal (v : string)
| DefaultUserAgent          (* python-requests/{version} *)
| DefaultAcceptEncoding.    (* gzip, deflate, and br or zstd when installed *)

Record Request := mkRequest {
  method : string;
  url : string;
  payload : Payload;
  (** headers passed to this call, on top of the session's *)
  req_headers : list (string * header_value);
  req_timeout : Z
}.

(** ** Exceptions *)

Inductive exn :=
| FileNotFoundError (msg : string)
| OSError (msg : string)
| TimeoutError (msg : string)
| KeyError (key : string)
| TypeError (msg : string)
| ValueError (msg : string)
| OverflowError (msg : string)
| AttributeError (msg : string)
| HTTPError (msg : string) (response : Response)  (* requests.exceptions.HTTPError *)
| RetryError (msg : string)                       (* requests.exceptions.RetryError *)
| RequestException (msg : string)                 (* any other requests failure: connection, read timeout *)
| JSONDecodeError (msg : string)
| SystemExit (code : Z).

(** [except Exception] catches everything but [SystemExit], which derives
    from [BaseException] only. *)
Definition is_Exception (e : exn) : bool :=
  match e with
  | SystemExit _ => false
  | _ => true
  end.

(** [str(e)] *)
Definition exn_str (e : exn) : string :=
  match e with
  | FileNotFoundError m | OSError m | TimeoutError m | TypeError m
  | ValueError m | OverflowError m | AttributeError m | HTTPError m _
  | RetryError m | RequestException m | JSONDecodeError m => m
  | KeyError k => "'" +:+ k +:+ "'"
  | SystemExit c => pretty c
  end.

(** ** The environment *)

Inductive FileStat := Missing | Regular | Unreadable.

(** Why the platform refuses a long sleep: the clock call fails with
    [EINVAL] (Linux, when the deadline passes the limit of the kernel;
    [select] on macOS), or the duration does not fit the timer (Windows
    before Python 3.11). *)
Inductive SleepRefusal := InvalidArgument | TooLarge.

Record Reply := mkReply {
  (** the last answer to a request of the session, after whatever retries
      the mounted adapter made: a response, or the text of the failure of
      the transport *)
  answer : string + Response;
  (** wall-clock time the call took, in clock ticks *)
  latency : N
}.

Record World := mkWorld {
  stat : string -> FileStat;
  writable : string -> bool;
  (** the reply to the [n]-th request issued by the program *)
  respond : nat -> Request -> Reply;
  (** [str(v)] of a parsed value that is not a string *)
  str_of : json -> string;
  (** [json.dumps(v, indent=2, ensure_ascii=False)] *)
  dumps_pretty : json -> string;
  (** [json.dumps(v)] *)
  dumps : json -> string;
  (** [str(e)] of the error [json.loads] raises on a body that is not
      valid JSON *)
  decode_error : string -> string;
  (** [str(e)] of the [RetryError] the session raises when the last answer
      to this request is still one the adapter retries *)
  max_retries_text : Request -> Response -> string;
  (** what the platform makes of a sleep longer than [sleep_floor]:
      [None] when it sleeps *)
  long_sleep : Z -> option SleepRefusal
}.

Inductive Event :=
| EvRequest (r : Request)
| EvSleep (secs : Z)
| EvOpen (path : string) (fd : nat)
| EvClose (fd : nat)
| EvWrite (fd : nat) (data : string)
| EvPrint (line : string).

Record State := mkState {
  clock : Z;
  sent : nat;
  next_fd : nat;
  open_fds : gset nat;
  trace : list Event
}.

Definition initial : State := mkState 0 0 0 ∅ [].

Definition log (ev : Event) (s : State) : State :=
  mkState (clock s) (sent s) (next_fd s) (open_fds s) (trace s ++ [ev]).

(** ** The monad *)

Inductive outcome (A : Type) :=
| Ret (a : A)
| Raise (e : exn)
| Diverge.
Arguments Ret {A} a.
Arguments Raise {A} e.
Arguments Diverge {A}.

Definition M (A : Type) : Type := World -> State -> outcome A * State.

Definition ret {A} (a : A) : M A := fun _ s => (Ret a, s).
Definition raise {A} (e : exn) : M A := fun _ s => (Raise e, s).
Definition diverge {A} : M A := fun _ s => (Diverge, s).

Definition bind {A B} (m : M A) (k : A -> M B) : M B :=
  fun w s =>
    match m w s with
    | (Ret a, s') => k a w s'
    | (Raise e, s') => (Raise e, s')
    | (Diverge, s') => (Diverge, s')
    end.

Notation "'let!' x ':=' m 'in' k" := (bind m (fun x => k))
  (at level 10, x pattern, m at level 100, k at level 200).
Notation "m ';;' k" := (bind m (fun _ => k))
  (at level 100, k at level 200, right associativity).

(** [try: body / except ...]: [clauses e] is the handler of the first
    [except] clause that matches [e], if any. *)
Definition try_catch {A} (body : M A) (clauses : exn -> option (M A)) : M A :=
  fun w s =>
    match body w s with
    | (Raise e, s') =>
        match clauses e with
        | Some handler => handler w s'
        | None => (Raise e, s')
        end
    | r => r
    end.

(** [try: body / except Exception as e: handler e] *)
Definition try_except {A} (body : M A) (handler : exn -> M A) : M A :=
  try_catch body (fun e => if is_Exception e then Some (handler e) else None).

Definition ask {A} (f : World -> A) : M A := fun w s => (Ret (f w), s).

Fixpoint for_each {A} (xs : list A) (body : A -> M unit) : M unit :=
  match xs with
  | [] => ret tt
  | x :: xs' => body x ;; for_each xs' body
  end.

(** ** Primitives of the runtime *)

Definition print (line : string) : M unit :=
  fun _ s => (Ret tt, log (EvPrint line) s).

Definition time_time : M Z := fun _ s => (Ret (clock s), s).

(** The longest duration, in seconds, [time.sleep] can convert to its
    64-bit count of nanoseconds: [(2^63 - 1) / 10^9]. *)
Definition sleep_limit : Z := 9223372036.

(** A duration every platform sleeps: [2^32 - 1] milliseconds, the limit
    of the Windows timer before Python 3.11, is the lowest limit. *)
Definition sleep_floor : Z := 4294967.

(** What [time.sleep(secs)] raises instead of sleeping, for an integer
    [secs].  The duration is converted first, which fails beyond
    [sleep_limit] in either direction; then a negative duration is
    rejected; a duration above [sleep_floor] may be refused by the
    platform.  The texts are those of Python 3.11. *)
Definition sleep_error (w : World) (secs : Z) : option exn :=
  if (secs <? - sleep_limit) || (sleep_limit <? secs)
  then Some (OverflowError "timestamp too large to convert to C _PyTime_t")
  else if secs <? 0 then Some (ValueError "sleep length must be non-negative")
  else if sleep_floor <? secs then
    match long_sleep w secs with
    | Some InvalidArgument => Some (OSError "[Errno 22] Invalid argument")
    | Some TooLarge => Some (OverflowError "sleep length is too large")
    | None => None
    end
  else None.

(** [time.sleep(secs)] *)
Definition time_sleep (secs : Z) : M unit :=
  fun w s =>
    match sleep_error w secs with
    | Some e => (Raise e, s)
    | None =>
        (Ret tt, log (EvSleep secs)
                   (mkState (clock s + secs) (sent s) (next_fd s) (open_fds s) (trace s)))
    end.

Definition os_path_exists (path : string) : M bool :=
  fun w s => (Ret (match stat w path with Missing => false | _ => true end), s).

(** [os.path.basename]: what follows the last ['/']. *)
Fixpoint basename (path : string) : string :=
  match path with
  | EmptyString => EmptyString
  | String c rest =>
      if existsb (Ascii.eqb "/"%char) (String.list_ascii_of_string rest)
      then basename rest
      else if Ascii.eqb c "/"%char then rest else path
  end.

(** [open(path, 'rb')] *)
Definition open_rb (path : string) : M nat :=
  fun w s =>
    match stat w path with
    | Missing =>
        (Raise (FileNotFoundError ("[Errno 2] No such file or directory: '" +:+ path +:+ "'")), s)
    | Unreadable => (Raise (OSError ("cannot open '" +:+ path +:+ "'")), s)
    | Regular =>
        let fd := next_fd s in
        (Ret fd, log (EvOpen path fd)
                   (mkState (clock s) (sent s) (S fd) ({[fd]} ∪ open_fds s) (trace s)))
    end.

Definition close (fd : nat) : M unit :=
  fun _ s =>
    (Ret tt, log (EvClose fd)
               (mkState (clock s) (sent s) (next_fd s) (open_fds s ∖ {[fd]}) (trace s))).

Definition payload_fds (p : Payload) : list nat :=
  match p with
  | Multipart files _ => map (fun f => snd (snd f)) files
  | _ => []
  end.

(** The text of the error [raise_for_status] raises. *)
Definition http_error_text (resp : Response) : string :=
  pretty (status_code resp)
    +:+ (if status_code resp <? 500 then " Client Error: " else " Server Error: ")
    +:+ reason resp +:+ " for url: " +:+ resp_url resp.

(** [response.raise_for_status()]: 4xx and 5xx raise. *)
Definition raise_for_status (resp : Response) : M unit :=
  if (400 <=? status_code resp) && (status_code resp <? 600)
  then raise (HTTPError (http_error_text resp) resp)
  else ret tt.

(** [response.json()] *)
Definition response_json (resp : Response) : M json :=
  match parsed resp with
  | Some j => ret j
  | None => fun w s => (Raise (JSONDecodeError (decode_error w (text resp))), s)
  end.

(** [type(v).__name__] *)
Definition type_name (v : json) : string :=
  match v with
  | JNull => "NoneType"
  | JBool _ => "bool"
  | JInt _ => "int"
  | JFloat _ _ => "float"
  | JString _ => "str"
  | JArray _ => "list"
  | JObject _ => "dict"
  end.

(** [v[key]] for a string key; the texts are those of Python 3.11. *)
Definition getitem (v : json) (key : string) : M json :=
  match v with
  | JObject kvs =>
      match kvs !! key with
      | Some x => ret x
      | None => raise (KeyError key)
      end
  | JArray _ => raise (TypeError "list indices must be integers or slices, not str")
  | JString _ => raise (TypeError "string indices must be integers, not 'str'")
  | _ => raise (TypeError ("'" +:+ type_name v +:+ "' object is not subscriptable"))
  end.

(** [v == s] for a string literal [s] *)
Definition eq_str (v : json) (s : string) : bool :=
  match v with
  | JString x => String.eqb x s
  | _ => false
  end.

(** [len(v)]; the length of a string is counted in bytes. *)
Definition len (v : json) : M nat :=
  match v with
  | JArray xs => ret (length xs)
  | JObject kvs => ret (size kvs)
  | JString x => ret (String.length x)
  | _ => raise (TypeError ("object of type '" +:+ type_name v +:+ "' has no len()"))
  end.

(** [for x in v]: the items a loop over [v] visits; a dict yields its
    keys, here in the order of the map. *)
Definition iter (v : json) : M (list json) :=
  match v with
  | JArray xs => ret xs
  | JObject kvs => ret (map (fun kv => JString (fst kv)) (map_to_list kvs))
  | JString x => ret (map (fun c => JString (String c EmptyString)) (String.list_ascii_of_string x))
  | _ => raise (TypeError ("'" +:+ type_name v +:+ "' object is not iterable"))
  end.

(** Truth value of an optional string argument: [None] and [''] are false. *)
Definition truthy (o : option string) : bool :=
  match o with
  | Some s => negb (String.eqb s "")
  | None => false
  end.

(** [s.rstrip('/')] *)
Fixpoint rstrip_slash (s : string) : string :=
  match s with
  | EmptyString => EmptyString
  | String c rest =>
      match rstrip_slash rest with
      | EmptyString => if Ascii.eqb c "/"%char then EmptyString else String c EmptyString
      | kept => String c kept
      end
  end.

(** Truth value of a parsed value, as [or] and [if] see it. *)
Definition truthy_json (v : json) : bool :=
  match v with
  | JNull => false
  | JBool b => b
  | JInt n => negb (n =? 0)
  | JFloat m _ => negb (m =? 0)
  | JString s => negb (String.eqb s "")
  | JArray xs => match xs with [] => false | _ => true end
  | JObject kvs => negb (bool_decide (size kvs = 0%nat))
  end.

(** [str(v)], as f-strings and [print] use it: a string is itself. *)
Definition py_str (w : World) (v : json) : string :=
  match v with
  | JString s => s
  | _ => str_of w v
  end.

(** f-string interpolation of a parsed value *)
Definition fmt (v : json) : M string := ask (fun w => py_str w v).

(** [open(path, 'w', encoding='utf-8')] *)
Definition open_w (path : string) : M nat :=
  fun w s =>
    if writable w path then
      let fd := next_fd s in
      (Ret fd, log (EvOpen path fd)
                 (mkState (clock s) (sent s) (S fd) ({[fd]} ∪ open_fds s) (trace s)))
    else (Raise (OSError ("cannot open '" +:+ path +:+ "'")), s).

(** [f.write(v)]: the argument must be a [str]. *)
Definition file_write (fd : nat) (v : json) : M unit :=
  match v with
  | JString data => fun _ s => (Ret tt, log (EvWrite fd data) s)
  | JNull => raise (TypeError "write() argument must be str, not None")
  | _ => raise (TypeError ("write() argument must be str, not " +:+ type_name v))
  end.

(** [with opening as f: body f]: the file is closed when the block is
    left, whether by falling off its end or by an exception. *)
Definition with_open {A} (opening : M nat) (body : nat -> M A) : M A :=
  let! f := opening in
  fun w s =>
    match body f w s with
    | (Diverge, s') => (Diverge, s')
    | (r, s') => (r, snd (close f w s'))
    end.

(** ** Retry-configured sessions *)

Record Retry := mkRetry {
  total : Z;
  backoff_factor : Z;
  status_forcelist : list Z;
  allowed_methods : list string
}.

Record Session := mkSession {
  headers : list (string * header_value);
  (** URL prefix and the retry strategy of the adapter mounted on it *)
  adapters : list (string * Retry)
}.

(** The headers a new session starts with, [requests.utils.default_headers()]. *)
Definition default_headers : list (string * header_value) :=
  [("User-Agent", DefaultUserAgent);
   ("Accept-Encoding", DefaultAcceptEncoding);
   ("Accept", Literal "*/*");
   ("Connection", Literal "keep-alive")].

(** [requests.Session()]; the adapters the library mounts by default are
    left out, both clients replace them. *)
Definition new_session : Session := mkSession default_headers [].

Definition ascii_lower (c : ascii) : ascii :=
  let n := nat_of_ascii c in
  if (65 <=? n)%nat && (n <=? 90)%nat then ascii_of_nat (n + 32) else c.

(** [s.lower()], for ASCII letters *)
Fixpoint lower (s : string) : string :=
  match s with
  | EmptyString => EmptyString
  | String c rest => String (ascii_lower c) (lower rest)
  end.

(** The headers of a session are a case-insensitive dictionary. *)
Definition same_header (a b : string) : bool := String.eqb (lower a) (lower b).

(** [headers[key] = value] *)
Fixpoint set_header (h : string * header_value) (hs : list (string * header_value))
    : list (string * header_value) :=
  match hs with
  | [] => [h]
  | x :: rest => if same_header (fst x) (fst h) then h :: rest else x :: set_header h rest
  end.

(** [session.headers.update(new)] *)
Definition update_headers (new : list (string * header_value)) (s : Session) : Session :=
  {| headers := fold_left (fun hs h => set_header h hs) new (headers s);
     adapters := adapters s |}.

(** [headers.pop(key, None)] *)
Definition pop_header (key : string) (hs : list (string * header_value))
    : list (string * header_value) :=
  filter (fun h => negb (same_header (fst h) key)) hs.

(** The [Retry(...)] object both clients build.  The fallback for old
    urllib3 versions passes the same values under the keyword
    [method_whitelist]. *)
Definition retry_strategy (retries : Z) : Retry :=
  {| total := retries;
     backoff_factor := 1;
     status_forcelist := [429; 500; 502; 503; 504];
     allowed_methods := ["HEAD"; "GET"; "POST"; "PUT"; "DELETE"; "OPTIONS"; "TRACE"] |}.

Definition mount (prefix : string) (adapter : Retry) (s : Session) : Session :=
  {| headers := headers s; adapters := adapters s ++ [(prefix, adapter)] |}.

(** The number of retries of the strategy a session built by
    [_create_session] has mounted, the same for both prefixes. *)
Definition session_retries (session : Session) : Z :=
  match adapters session with
  | (_, strategy) :: _ => total strategy
  | [] => 0
  end.

(** Whether the adapter of such a session retries a response, urllib3's
    [Retry.is_retry] for [retry_strategy retries]: the method is one of the
    allowed ones, and either the status is in the force list, or retries
    are left to spend, the response carries a [Retry-After] header and its
    status is one of 413, 429 and 503. *)
Definition retried (retries : Z) (method : string) (resp : Response) : bool :=
  let strategy := retry_strategy retries in
  bool_decide (method ∈ allowed_methods strategy) &&
  (bool_decide (status_code resp ∈ status_forcelist strategy)
   || (negb (total strategy =? 0) && retry_after resp
       && bool_decide (status_code resp ∈ [413; 429; 503]))).

(** [session.request(method, url, ...)] on a session built by
    [_create_session].  The body of a multipart request is read from the
    file objects when the request is prepared; reading a closed file
    raises [ValueError] and nothing is sent.  The adapter repeats the
    request while the response is one it retries; when the retries are
    spent and the last answer is still such a response, it does not hand
    it to the caller ([raise_on_status] is left at its default), and the
    session raises [RetryError]. *)
Definition session_request (session : Session) (r : Request) : M Response :=
  fun w s =>
    if forallb (fun fd => bool_decide (fd ∈ open_fds s)) (payload_fds (payload r)) then
      let reply := respond w (sent s) r in
      let s' := log (EvRequest r)
                  (mkState (clock s + Z.of_N (latency reply)) (S (sent s))
                           (next_fd s) (open_fds s) (trace s)) in
      match answer reply with
      | inl msg => (Raise (RequestException msg), s')
      | inr resp =>
          if retried (session_retries session) (method r) resp
          then (Raise (RetryError (max_retries_text w r resp)), s')
          else (Ret resp, s')
      end
    else (Raise (ValueError "read of closed file"), s).

(** ** The MinRUE client *)

Module MinRueClient.

Record t := mk {
  base_url : string;
  timeout : Z;
  session : Session
}.

Definition _create_session (retries : Z) : Session :=
  let session := new_session in
  let adapter := retry_strategy retries in
  mount "https://" adapter (mount "http://" adapter session).

Definition __init__ (base_url : string) (timeout retries : Z) : t :=
  {| base_url := rstrip_slash base_url;
     timeout := timeout;
     session := _create_session retries |}.

Definition get_health (self : t) : M json :=
  let url := base_url self +:+ "/health" in
  let! response := session_request (session self) (mkRequest "GET" url NoPayload [] (timeout self)) in
  raise_for_status response ;;
  response_json response.

Definition list_models (self : t) : M json :=
  let url := base_url self +:+ "/models" in
  let! response := session_request (session self) (mkRequest "GET" url NoPayload [] (timeout self)) in
  raise_for_status response ;;
  response_json response.

Definition list_tasks (self : t) : M json :=
  let url := base_url self +:+ "/tasks" in
  let! response := session_request (session self) (mkRequest "GET" url NoPayload [] (timeout self)) in
  raise_for_status response ;;
  response_json response.

Definition process_file (self : t) (file_path model task : string)
    (parameters : option json) : M json :=
  let! found := os_path_exists file_path in
  if negb found then raise (FileNotFoundError ("File not found: " +:+ file_path))
  else
    let url := base_url self +:+ "/process" in
    let! files := with_open (open_rb file_path)
                    (fun f => ret [("file", (basename file_path, f))]) in
    let chosen := match parameters with
                  | Some p => if truthy_json p then p else JObject ∅
                  | None => JObject ∅
                  end in
    let! encoded := ask (fun w => dumps w chosen) in
    let data := [("model", model); ("task", task); ("parameters", encoded)] in
    let! response :=
      session_request (session self) (mkRequest "POST" url (Multipart files data) [] (timeout self)) in
    raise_for_status response ;;
    response_json response.

(** The [while True] loop of [get_result]; [fuel] bounds the number of
    iterations the model follows, [Diverge] is the answer when it runs
    out. *)
Fixpoint poll (fuel : nat) (self : t) (url : string) (wait : bool)
    (wait_timeout polling_interval start_time : Z) : M json :=
  match fuel with
  | O => diverge
  | S fuel' =>
      let! response := session_request (session self) (mkRequest "GET" url NoPayload [] (timeout self)) in
      raise_for_status response ;;
      let! result := response_json response in
      let! status1 := getitem result "status" in
      if eq_str status1 "completed" then ret result
      else
        let! status2 := getitem result "status" in
        if eq_str status2 "failed" || negb wait then ret result
        else
          let! now := time_time in
          if now - start_time >? wait_timeout
          then raise (TimeoutError "Result retrieval timed out")
          else
            time_sleep polling_interval ;;
            poll fuel' self url wait wait_timeout polling_interval start_time
  end.

Definition get_result (fuel : nat) (self : t) (job_id : json) (wait : bool)
    (wait_timeout polling_interval : Z) : M json :=
  let! id := fmt job_id in
  let url := base_url self +:+ "/results/" +:+ id in
  let! start_time := time_time in
  poll fuel self url wait wait_timeout polling_interval start_time.

End MinRueClient.

Definition newline : string := String (ascii_of_nat 10) EmptyString.

Definition double_quote : string := String (ascii_of_nat 34) EmptyString.

Module MinRueCLI.

Record t := mk { client : MinRueClient.t }.

Definition __init__ : t :=
  {| client := MinRueClient.__init__ "http://localhost:8000/v1" 30 3 |}.

(** The [except Exception as e] clause every command ends with. *)
Definition on_error (e : exn) : M Z :=
  print ("Error: " +:+ exn_str e) ;; ret 1.

(** Each command is a [try] block under that clause; the blocks are
    named [*_try]. *)
Definition health_try (self : t) : M Z :=
  let! health := MinRueClient.get_health (client self) in
  let! shown := ask (fun w => dumps_pretty w health) in
  print shown ;;
  ret 0.

Definition health (self : t) : M Z := try_except (health_try self) on_error.

Definition models_try (self : t) : M Z :=
  let! models := MinRueClient.list_models (client self) in
  let! shown := ask (fun w => dumps_pretty w models) in
  print shown ;;
  ret 0.

Definition models (self : t) : M Z := try_except (models_try self) on_error.

Definition tasks_try (self : t) : M Z :=
  let! tasks := MinRueClient.list_tasks (client self) in
  let! shown := ask (fun w => dumps_pretty w tasks) in
  print shown ;;
  ret 0.

Definition tasks (self : t) : M Z := try_except (tasks_try self) on_error.

(** [with open(path, 'w', encoding='utf-8') as f: f.write(result['output'])] *)
Definition save_output (path : string) (result : json) : M unit :=
  with_open (open_w path)
    (fun f => let! output := getitem result "output" in file_write f output).

Definition process_try (fuel : nat) (self : t) (file_path : string)
    (output_path : option string) (model task : string)
    (parameters : option json) : M Z :=
  print ("Processing file: " +:+ file_path) ;;
  let! job_info := MinRueClient.process_file (client self) file_path model task parameters in
  let! job_id := getitem job_info "job_id" in
  let! shown_id := fmt job_id in
  print ("Processing started with job ID: " +:+ shown_id) ;;
  if truthy output_path then
    let path := default "" output_path in
    print "Waiting for results..." ;;
    let! result := MinRueClient.get_result fuel (client self) job_id true 120 3 in
    let! status := getitem result "status" in
    if eq_str status "completed" then
      save_output path result ;;
      print ("Processing completed. Results saved to: " +:+ path) ;;
      ret 0
    else
      let! error := getitem result "error" in
      let! shown := fmt error in
      print ("Processing failed: " +:+ shown) ;;
      ret 1
  else
    print ("To check results later: python minrue_client.py result " +:+ shown_id) ;;
    ret 0.

Definition process (fuel : nat) (self : t) (file_path : string)
    (output_path : option string) (model task : string)
    (parameters : option json) : M Z :=
  try_except (process_try fuel self file_path output_path model task parameters) on_error.

Definition result_try (fuel : nat) (self : t) (job_id : string)
    (output_path : option string) : M Z :=
  print ("Retrieving results for job ID: " +:+ job_id) ;;
  let! result := MinRueClient.get_result fuel (client self) (JString job_id) true 60 3 in
  let! status := getitem result "status" in
  if eq_str status "completed" then
    (if truthy output_path then
       let path := default "" output_path in
       save_output path result ;;
       print ("Results saved to: " +:+ path)
     else
       let! output := getitem result "output" in
       match output with
       | JString shown => print (newline +:+ shown)
       | _ => raise (TypeError ("can only concatenate str (not " +:+ double_quote
                                  +:+ type_name output +:+ double_quote +:+ ") to str"))
       end) ;;
    ret 0
  else
    let! error := getitem result "error" in
    let! shown := fmt error in
    print ("Processing failed: " +:+ shown) ;;
    ret 1.

Definition result (fuel : nat) (self : t) (job_id : string)
    (output_path : option string) : M Z :=
  try_except (result_try fuel self job_id output_path) on_error.

End MinRueCLI.

(** The parsed command line of [minrue_client.py]. *)
Inductive MinRueArgs :=
| ArgsHealth
| ArgsModels
| ArgsTasks
| ArgsProcess (file_path : string) (output : option string) (model task : string)
              (temperature : option (Z * Z)) (max_tokens : option Z)
| ArgsResult (job_id : string) (output : option string).

(** The [parameters] dictionary [main()] fills for the process command. *)
Definition cli_parameters (args : MinRueArgs) : gmap string json :=
  match args with
  | ArgsProcess _ _ _ _ temperature max_tokens =>
      let parameters : gmap string json :=
        match temperature with
        | Some (m, e) => <["temperature" := JFloat m e]> ∅
        | None => ∅
        end in
      match max_tokens with
      | Some n => <["max_tokens" := JInt n]> parameters
      | None => parameters
      end
  | _ => ∅
  end.

(** [main()] of [minrue_client.py], after [parser.parse_args()]. *)
Definition minrue_main (fuel : nat) (args : MinRueArgs) : M unit :=
  let cli := MinRueCLI.__init__ in
  let parameters := cli_parameters args in
  let! exit_code :=
    match args with
    | ArgsHealth => MinRueCLI.health cli
    | ArgsModels => MinRueCLI.models cli
    | ArgsTasks => MinRueCLI.tasks cli
    | ArgsProcess file_path output model task _ _ =>
        MinRueCLI.process fuel cli file_path output model task (Some (JObject parameters))
    | ArgsResult job_id output => MinRueCLI.result fuel cli job_id output
    end in
  raise (SystemExit exit_code).

(** The [try] block the command of [args] runs. *)
Definition minrue_try (fuel : nat) (args : MinRueArgs) : M Z :=
  let cli := MinRueCLI.__init__ in
  match args with
  | ArgsHealth => MinRueCLI.health_try cli
  | ArgsModels => MinRueCLI.models_try cli
  | ArgsTasks => MinRueCLI.tasks_try cli
  | ArgsProcess file_path output model task _ _ =>
      MinRueCLI.process_try fuel cli file_path output model task
        (Some (JObject (cli_parameters args)))
  | ArgsResult job_id output => MinRueCLI.result_try fuel cli job_id output
  end.


(** ** The RAGFlow client *)

(** The two kinds of object [upload_documents] handles: an open file and
    the [(name, file)] pair it is wrapped in. *)
Inductive pyobj :=
| FileObj (fd : nat)
| TupleObj (items : string * nat).

(** [obj.close()]: a file has the method, a tuple does not. *)
Definition obj_close (o : pyobj) : M unit :=
  match o with
  | FileObj fd => close fd
  | TupleObj _ => raise (AttributeError "'tuple' object has no attribute 'close'")
  end.

(** [d.get(key, fallback)] *)
Definition dict_get (d : json) (key : string) (fallback : json) : M json :=
  match d with
  | JObject kvs => ret (default fallback (kvs !! key))
  | _ => raise (AttributeError ("'" +:+ type_name d +:+ "' object has no attribute 'get'"))
  end.

Definition json_opt (o : option json) : json := default JNull o.

Module RagflowClient.

Record t := mk {
  api_key : string;
  base_url : string;
  timeout : Z;
  session : Session
}.

Definition _create_session (api_key : string) (retries : Z) : Session :=
  let session := new_session in
  let headers :=
    [("Authorization", Literal ("Bearer " +:+ api_key));
     ("Content-Type", Literal "application/json")] in
  let session := update_headers headers session in
  let adapter := retry_strategy retries in
  mount "https://" adapter (mount "http://" adapter session).

Definition __init__ (api_key base_url : string) (timeout retries : Z) : t :=
  {| api_key := api_key;
     base_url := rstrip_slash base_url;
     timeout := timeout;
     session := _create_session api_key retries |}.

(** Every wrapper ends the same way: send, [raise_for_status], parse. *)
Definition call (self : t) (method url : string) (payload : Payload) : M json :=
  let! response := session_request (session self) (mkRequest method url payload [] (timeout self)) in
  raise_for_status response ;;
  response_json response.

Definition create_chat_completion (self : t) (chat_id : string) (messages : json)
    (stream reference : bool) (metadata_condition : option json) : M json :=
  let url := base_url self +:+ "/chats_openai/" +:+ chat_id +:+ "/chat/completions" in
  let payload : gmap string json :=
    {[ "model" := JString "model";
       "messages" := messages;
       "stream" := JBool stream;
       "extra_body" := JObject {[ "reference" := JBool reference;
                                  "metadata_condition" := json_opt metadata_condition ]} ]} in
  call self "POST" url (JsonPayload (JObject payload)).

Definition create_agent_completion (self : t) (agent_id : string) (messages : json)
    (stream : bool) (session_id : option string) : M json :=
  let url := base_url self +:+ "/agents_openai/" +:+ agent_id +:+ "/chat/completions" in
  let payload : gmap string json :=
    {[ "model" := JString "model"; "messages" := messages; "stream" := JBool stream ]} in
  let payload :=
    if truthy session_id
    then <["session_id" := JString (default "" session_id)]> payload
    else payload in
  call self "POST" url (JsonPayload (JObject payload)).

Definition create_dataset (self : t) (name embedding_model permission chunk_method : string)
    (parser_config : option json) : M json :=
  let url := base_url self +:+ "/datasets" in
  let payload : gmap string json :=
    {[ "name" := JString name;
       "embedding_model" := JString embedding_model;
       "permission" := JString permission;
       "chunk_method" := JString chunk_method ]} in
  let payload :=
    if truthy_json (json_opt parser_config)
    then <["parser_config" := json_opt parser_config]> payload
    else payload in
  call self "POST" url (JsonPayload (JObject payload)).

Definition list_datasets (self : t) (page page_size : Z) (orderby : string) (desc : bool)
    (name id : option string) : M json :=
  let params : gmap string json :=
    {[ "page" := JInt page;
       "page_size" := JInt page_size;
       "orderby" := JString orderby;
       "desc" := JBool desc ]} in
  let params :=
    if truthy name then <["name" := JString (default "" name)]> params else params in
  let params :=
    if truthy id then <["id" := JString (default "" id)]> params else params in
  let url := base_url self +:+ "/datasets" in
  call self "GET" url (QueryParams (JObject params)).

Definition update_dataset (self : t) (dataset_id : string) (updates : json) : M json :=
  let url := base_url self +:+ "/datasets/" +:+ dataset_id in
  call self "PUT" url (JsonPayload updates).

Definition delete_datasets (self : t) (dataset_ids : list string) : M json :=
  let url := base_url self +:+ "/datasets" in
  let payload : gmap string json := {[ "ids" := JArray (map JString dataset_ids) ]} in
  call self "DELETE" url (JsonPayload (JObject payload)).

(** The first loop of [upload_documents]: one [open] per path, in order. *)
Fixpoint open_all (file_paths : list string) (files : list (string * (string * nat)))
    : M (list (string * (string * nat))) :=
  match file_paths with
  | [] => ret files
  | file_path :: rest =>
      let! f := open_rb file_path in
      open_all rest (files ++ [("file", (basename file_path, f))])
  end.

Definition upload_documents (self : t) (dataset_id : string) (file_paths : list string)
    : M json :=
  let url := base_url self +:+ "/datasets/" +:+ dataset_id +:+ "/documents" in
  let! files := open_all file_paths [] in
  let headers := pop_header "Content-Type" (headers (session self)) in
  let! response :=
    session_request (session self)
      (mkRequest "POST" url (Multipart files []) headers (timeout self)) in
  raise_for_status response ;;
  (* for _, file_obj in files: the second component of each entry is the
     (name, file) pair *)
  for_each files (fun entry => let file_obj := TupleObj (snd entry) in obj_close file_obj) ;;
  response_json response.

Definition update_document (self : t) (dataset_id document_id : string) (updates : json)
    : M json :=
  let url := base_url self +:+ "/datasets/" +:+ dataset_id +:+ "/documents/" +:+ document_id in
  call self "PUT" url (JsonPayload updates).

Definition construct_knowledge_graph (self : t) (dataset_id : string) : M json :=
  let url := base_url self +:+ "/datasets/" +:+ dataset_id +:+ "/run_graphrag" in
  call self "POST" url NoPayload.

Definition get_knowledge_graph (self : t) (dataset_id : string) : M json :=
  let url := base_url self +:+ "/datasets/" +:+ dataset_id +:+ "/knowledge_graph" in
  call self "GET" url NoPayload.

Definition get_graphrag_status (self : t) (dataset_id : string) : M json :=
  let url := base_url self +:+ "/datasets/" +:+ dataset_id +:+ "/trace_graphrag" in
  call self "GET" url NoPayload.

Definition delete_knowledge_graph (self : t) (dataset_id : string) : M json :=
  let url := base_url self +:+ "/datasets/" +:+ dataset_id +:+ "/knowledge_graph" in
  call self "DELETE" url NoPayload.

Definition construct_raptor (self : t) (dataset_id : string) : M json :=
  let url := base_url self +:+ "/datasets/" +:+ dataset_id +:+ "/run_raptor" in
  call self "POST" url NoPayload.

Definition get_raptor_status (self : t) (dataset_id : string) : M json :=
  let url := base_url self +:+ "/datasets/" +:+ dataset_id +:+ "/trace_raptor" in
  call self "GET" url NoPayload.

End RagflowClient.

(** The parsed command line of [ragflow_client.py]. *)
Inductive RagflowCommand :=
| ChatCompletion (chat_id message : string) (stream no_reference : bool)
| DatasetCreate (name embedding_model : string)
| DatasetList (page page_size : Z)
| DatasetDelete (ids : list string)
| DocumentUpload (dataset_id : string) (file : list string).

Record RagflowArgs := mkRagflowArgs {
  arg_api_key : string;
  arg_base_url : string;
  command : RagflowCommand
}.

Module RagflowCLI.

Definition run (args : RagflowArgs) : M Z :=
  let client := RagflowClient.__init__ (arg_api_key args) (arg_base_url args) 30 3 in
  match command args with
  | ChatCompletion chat_id message stream no_reference =>
      let messages :=
        JArray [JObject {[ "role" := JString "user"; "content" := JString message ]}] in
      let reference := negb no_reference in
      let! result :=
        RagflowClient.create_chat_completion client chat_id messages stream reference None in
      if stream then
        print "Streaming response..." ;;
        let! shown := fmt result in
        print shown
      else
        let! shown := ask (fun w => dumps_pretty w result) in
        print shown
  | DatasetCreate name embedding_model =>
      let! result :=
        RagflowClient.create_dataset client name embedding_model "me" "naive" None in
      let! data1 := getitem result "data" in
      let! name := getitem data1 "name" in
      let! shown_name := fmt name in
      let! data2 := getitem result "data" in
      let! id := getitem data2 "id" in
      let! shown_id := fmt id in
      print ("Created dataset: " +:+ shown_name +:+ " (ID: " +:+ shown_id +:+ ")")
  | DatasetList page page_size =>
      let! result :=
        RagflowClient.list_datasets client page page_size "create_time" true None None in
      let! total := getitem result "total" in
      let! shown_total := fmt total in
      print ("Found " +:+ shown_total +:+ " datasets:") ;;
      let! data := getitem result "data" in
      let! datasets := iter data in
      for_each datasets (fun dataset =>
        let! name := getitem dataset "name" in
        let! shown_name := fmt name in
        let! id := getitem dataset "id" in
        let! shown_id := fmt id in
        let! count := getitem dataset "document_count" in
        let! shown_count := fmt count in
        print ("- " +:+ shown_name +:+ " (ID: " +:+ shown_id +:+ ") - "
               +:+ shown_count +:+ " documents"))
  | DatasetDelete ids =>
      RagflowClient.delete_datasets client ids ;;
      print ("Deleted " +:+ pretty (length ids) +:+ " datasets")
  | DocumentUpload dataset_id file =>
      let! result := RagflowClient.upload_documents client dataset_id file in
      let! data := getitem result "data" in
      let! count := len data in
      print ("Uploaded " +:+ pretty count +:+ " documents") ;;
      let! data := getitem result "data" in
      let! docs := iter data in
      for_each docs (fun doc =>
        let! name := getitem doc "name" in
        let! shown_name := fmt name in
        let! id := getitem doc "id" in
        let! shown_id := fmt id in
        print ("- " +:+ shown_name +:+ " (ID: " +:+ shown_id +:+ ")"))
  end ;;
  ret 0.

End RagflowCLI.

Definition handle_ragflow_error (response : Response) : M string :=
  try_catch
    (let! error_data := response_json response in
     let! error_code := dict_get error_data "code" JNull in
     let! error_message := dict_get error_data "message" (JString "Unknown error") in
     let! shown_code := fmt error_code in
     let! shown_message := fmt error_message in
     ret ("RAGFlow Error " +:+ shown_code +:+ ": " +:+ shown_message))
    (fun _ =>
       Some (ret ("HTTP Error " +:+ pretty (status_code response) +:+ ": " +:+ text response))).

(** The [if __name__ == "__main__"] block of [ragflow_client.py], after
    the command line is parsed. *)
Definition ragflow_main (args : RagflowArgs) : M unit :=
  try_catch
    (let! code := RagflowCLI.run args in
     raise (SystemExit code))
    (fun e =>
       match e with
       | HTTPError _ response =>
           Some (let! error_msg := handle_ragflow_error response in
                 print ("Error: " +:+ error_msg) ;;
                 raise (SystemExit 1))
       | _ =>
           if is_Exception e
           then Some (print ("Unexpected error: " +:+ exn_str e) ;; raise (SystemExit 1))
           else None
       end).

(** ** The operations of the two clients, as one type each *)

Inductive MinRueCall :=
| GetHealth
| ListModels
| ListTasks
| ProcessFile (file_path model task : string) (parameters : option json)
| GetResult (fuel : nat) (job_id : json) (wait : bool) (wait_timeout polling_interval : Z).

Definition minrue_call (self : MinRueClient.t) (c : MinRueCall) : M json :=
  match c with
  | GetHealth => MinRueClient.get_health self
  | ListModels => MinRueClient.list_models self
  | ListTasks => MinRueClient.list_tasks self
  | ProcessFile file_path model task parameters =>
      MinRueClient.process_file self file_path model task parameters
  | GetResult fuel job_id wait wait_timeout polling_interval =>
      MinRueClient.get_result fuel self job_id wait wait_timeout polling_interval
  end.

Inductive RagflowCall :=
| CreateChatCompletion (chat_id : string) (messages : json) (stream reference : bool)
                       (metadata_condition : option json)
| CreateAgentCompletion (agent_id : string) (messages : json) (stream : bool)
                        (session_id : option string)
| CreateDataset (name embedding_model permission chunk_method : string)
                (parser_config : option json)
| ListDatasets (page page_size : Z) (orderby : string) (desc : bool) (name id : option string)
| UpdateDataset (dataset_id : string) (updates : json)
| DeleteDatasets (dataset_ids : list string)
| UploadDocuments (dataset_id : string) (file_paths : list string)
| UpdateDocument (dataset_id document_id : string) (updates : json)
| ConstructKnowledgeGraph (dataset_id : string)
| GetKnowledgeGraph (dataset_id : string)
| GetGraphragStatus (dataset_id : string)
| DeleteKnowledgeGraph (dataset_id : string)
| ConstructRaptor (dataset_id : string)
| GetRaptorStatus (dataset_id : string).

Definition ragflow_call (self : RagflowClient.t) (c : RagflowCall) : M json :=
  match c with
  | CreateChatCompletion chat_id messages stream reference metadata_condition =>
      RagflowClient.create_chat_completion self chat_id messages stream reference
        metadata_condition
  | CreateAgentCompletion agent_id messages stream session_id =>
      RagflowClient.create_agent_completion self agent_id messages stream session_id
  | CreateDataset name embedding_model permission chunk_method parser_config =>
      RagflowClient.create_dataset self name embedding_model permission chunk_method
        parser_config
  | ListDatasets page page_size orderby desc name id =>
      RagflowClient.list_datasets self page page_size orderby desc name id
  | UpdateDataset dataset_id updates => RagflowClient.update_dataset self dataset_id updates
  | DeleteDatasets dataset_ids => RagflowClient.delete_datasets self dataset_ids
  | UploadDocuments dataset_id file_paths =>
      RagflowClient.upload_documents self dataset_id file_paths
  | UpdateDocument dataset_id document_id updates =>
      RagflowClient.update_document self dataset_id document_id updates
  | ConstructKnowledgeGraph dataset_id => RagflowClient.construct_knowledge_graph self dataset_id
  | GetKnowledgeGraph dataset_id => RagflowClient.get_knowledge_graph self dataset_id
  | GetGraphragStatus dataset_id => RagflowClient.get_graphrag_status self dataset_id
  | DeleteKnowledgeGraph dataset_id => RagflowClient.delete_knowledge_graph self dataset_id
  | ConstructRaptor dataset_id => RagflowClient.construct_raptor self dataset_id
  | GetRaptorStatus dataset_id => RagflowClient.get_raptor_status self dataset_id
  end.

(** ** Vocabulary of the statements about URLs *)

Fixpoint slashes (n : nat) : string :=
  match n with
  | O => EmptyString
  | S n' => String "/"%char (slashes n')
  end.

Fixpoint ends_with_slash (s : string) : bool :=
  match s with
  | EmptyString => false
  | String c EmptyString => Ascii.eqb c "/"%char
  | String _ rest => ends_with_slash rest
  end.

(** [url] is [base], one ['/'], and a path that does not start with
    ['/'], where [base] does not end with ['/']. *)
Definition joined_once (base url : string) : Prop :=
  ends_with_slash base = false /\
  exists c rest, url = base +:+ "/" +:+ String c rest /\ c <> "/"%char.

(** Every request [m] sends satisfies [P]. *)
Definition sends_only {A} (P : Request -> Prop) (m : M A) : Prop :=
  forall w s r, EvRequest r ∈ trace (snd (m w s)) -> EvRequest r ∈ trace s \/ P r.

(** [url] ends with [path]. *)
Definition path_ends_in (url path : string) : Prop :=
  exists front, url = front +:+ path.

Fixpoint last_char (s : string) : option ascii :=
  match s with
  | EmptyString => None
  | String c EmptyString => Some c
  | String _ rest => last_char rest
  end.

(** [sub] occurs in [s]. *)
Definition contains (s sub : string) : bool :=
  match String.index 0 sub s with
  | Some _ => true
  | None => false
  end.

(** ** The retry behaviour of a mounted adapter *)

(** The methods of RFC 9110, and PATCH of RFC 5789. *)
Definition standard_methods : list string :=
  ["GET"; "HEAD"; "POST"; "PUT"; "DELETE"; "CONNECT"; "OPTIONS"; "TRACE"; "PATCH"].

(** Modelled from the spec: the retry loop an adapter runs for one request.
    The loop is code of urllib3 and requests, which the repository
    configures in [_create_session] but does not contain; what follows is
    section 4.1 of the specification read over the [Retry] record: a
    response is retry-eligible when its method is one of the allowed
    methods and its status is in the force list; an eligible response is
    retried while attempts remain, after a delay of
    [backoff_factor * 2^(attempt-1)] before retry number [attempt]; any
    other response, and the last one when attempts are exhausted, goes to
    the caller. *)
Definition is_retry (r : Retry) (method : string) (status : Z) : bool :=
  bool_decide (method ∈ allowed_methods r) && bool_decide (status ∈ status_forcelist r).

(** Modelled from the spec: the delay before retry number [attempt],
    [backoff_factor * 2^(attempt-1)]; urllib3's own computation is not in
    the repository. *)
Definition backoff (r : Retry) (attempt : nat) : Z :=
  backoff_factor r * 2 ^ (Z.of_nat attempt - 1).

(** Modelled from the spec: the loop of section 4.1, urllib3's own being
    outside the repository.  [server i] is the status of the response to
    the [i]-th transmission; the result is the status handed to the caller
    and the delays slept between transmissions. *)
Fixpoint send_with_retries (r : Retry) (method : string) (server : nat -> Z)
    (remaining sent_so_far : nat) : Z * list Z :=
  let status := server sent_so_far in
  match remaining with
  | O => (status, [])
  | S remaining' =>
      if is_retry r method status then
        let '(final, delays) :=
          send_with_retries r method server remaining' (S sent_so_far) in
        (final, backoff r (S sent_so_far) :: delays)
      else (status, [])
  end.

(** Modelled from the spec: one request through a mounted adapter, which
    may retry [total] times. *)
Definition adapter_send (r : Retry) (method : string) (server : nat -> Z) : Z * list Z :=
  send_with_retries r method server (Z.to_nat (total r)) 0.

(** Number of transmissions behind a result of [adapter_send]. *)
Definition transmissions (result : Z * list Z) : nat := S (length (snd result)).

(** ** Sample environments *)

Definition plain_str (v : json) : string :=
  match v with
  | JString s => s
  | JInt n => pretty n
  | JNull => "None"
  | JBool true => "True"
  | JBool false => "False"
  | _ => "..."
  end.

Definition ok (body : json) (ticks : N) : Reply :=
  mkReply (inr (mkResponse 200 "OK" "" false "" (Some body))) ticks.

Definition reason_phrase (status : Z) : string :=
  if status =? 404 then "Not Found"
  else if status =? 413 then "Content Too Large"
  else if status =? 429 then "Too Many Requests"
  else if status =? 500 then "Internal Server Error"
  else if status =? 503 then "Service Unavailable"
  else "".

(** An empty reply with the given status. *)
Definition failing (status : Z) : Reply :=
  mkReply (inr (mkResponse status (reason_phrase status) "" false "" None)) 0.

(** The reply as it comes back for the request [q]: the URL of a response
    is the one that was requested. *)
Definition answering (q : Request) (reply : Reply) : Reply :=
  match answer reply with
  | inl _ => reply
  | inr resp =>
      mkReply (inr (mkResponse (status_code resp) (reason resp) (url q) (retry_after resp)
                               (text resp) (parsed resp)))
              (latency reply)
  end.

(** The part of a URL of the sample server that follows host and port. *)
Definition target (u : string) : string :=
  if String.prefix "http://localhost:8000" u
  then String.substring 21 (String.length u - 21) u
  else u.

(** The text of a [RetryError] of the sample server. *)
Definition sample_retry_text (q : Request) (resp : Response) : string :=
  "HTTPConnectionPool(host='localhost', port=8000): Max retries exceeded with url: "
    +:+ target (url q) +:+ " (Caused by ResponseError('too many "
    +:+ pretty (status_code resp) +:+ " error responses'))".

(** The sample platform refuses a sleep that ends within a day of the
    limit of its clock. *)
Definition sample_long_sleep (secs : Z) : option SleepRefusal :=
  if sleep_limit - 86400 <=? secs then Some InvalidArgument else None.

(** A world with the regular file [a.txt] and the directory [dir], whose
    server answers as [replies] says.  The bodies of the sample replies
    that are not JSON are empty, which is what the decoding error says. *)
Definition world_of (replies : nat -> Request -> Reply) : World :=
  {| stat := fun path =>
       if String.eqb path "a.txt" then Regular
       else if String.eqb path "dir" then Unreadable
       else Missing;
     writable := fun _ => true;
     respond := replies;
     str_of := plain_str;
     dumps_pretty := plain_str;
     dumps := plain_str;
     decode_error := fun _ => "Expecting value: line 1 column 1 (char 0)";
     max_retries_text := sample_retry_text;
     long_sleep := sample_long_sleep |}.

(** The world where every request gets the same reply, at its own URL. *)
Definition sample_world (reply : Reply) : World :=
  world_of (fun _ q => answering q reply).

(** The world where every request gets the very same response. *)
Definition constant_world (reply : Reply) : World :=
  world_of (fun _ _ => reply).

Definition pending : json := JObject {[ "status" := JString "pending" ]}.

Definition minrue_default : MinRueClient.t :=
  MinRueClient.__init__ "http://localhost:8000/v1" 30 3.

Definition ragflow_default : RagflowClient.t :=
  RagflowClient.__init__ "key" "http://localhost:8000/v1" 30 3.

(** The errors [open] fails with. *)
Definition open_error (e : exn) : Prop :=
  exists msg, e = FileNotFoundError msg \/ e = OSError msg.

Definition not_found (path : string) : exn :=
  FileNotFoundError ("[Errno 2] No such file or directory: '" +:+ path +:+ "'").

(** The lines a trace prints, in order. *)
Definition printed (t : list Event) : list string :=
  omap (fun ev => match ev with EvPrint line => Some line | _ => None end) t.

Definition kb1_created : json :=
  JObject {[ "data" := JObject {[ "id" := JString "d1"; "name" := JString "kb1" ]} ]}.

(** The response of the sample server to the creation of [kb1]. *)
Definition kb1_response : Response :=
  mkResponse 200 "OK" "http://localhost:8000/v1/datasets" false "" (Some kb1_created).

(** ** Vocabulary of the statements about [get_result] *)

(** A response [raise_for_status] lets through as a success. *)
Definition is_2xx (resp : Response) : Prop := 200 <= status_code resp < 300.

(** [result['status']] is [completed] or [failed]. *)
Definition terminal (result : json) : bool :=
  match result with
  | JObject kvs =>
      match kvs !! "status" with
      | Some status => eq_str status "completed" || eq_str status "failed"
      | None => false
      end
  | _ => false
  end.

(** The request every iteration of the polling loop sends. *)
Definition poll_request (self : MinRueClient.t) (url : string) : Request :=
  mkRequest "GET" url NoPayload [] (MinRueClient.timeout self).

(** The remote job never reaches a terminal status: every fetch is
    answered by a 2xx response carrying a record whose status is neither
    [completed] nor [failed]. *)
Definition always_pending (w : World) : Prop :=
  forall n req, exists resp kvs status,
    answer (respond w n req) = inr resp /\ is_2xx resp /\
    parsed resp = Some (JObject kvs) /\ kvs !! "status" = Some status /\
    eq_str status "completed" = false /\ eq_str status "failed" = false.

(** The errors a fetch can end with: those of the transport, of the
    adapter that gives up, of [raise_for_status], of [response.json()] and
    of the lookup of ['status']. *)
Definition is_fetch_error (e : exn) : bool :=
  match e with
  | HTTPError _ _ | RetryError _ | RequestException _ | JSONDecodeError _
  | KeyError _ | TypeError _ => true
  | _ => false
  end.

Definition timed_out : exn := TimeoutError "Result retrieval timed out".

(** What follows the fetch in one iteration of the loop. *)
Definition after_fetch (fuel : nat) (self : MinRueClient.t) (url : string) (wait : bool)
    (wt pi start : Z) (result : json) : M json :=
  let! status1 := getitem result "status" in
  if eq_str status1 "completed" then ret result
  else
    let! status2 := getitem result "status" in
    if eq_str status2 "failed" || negb wait then ret result
    else
      let! now := time_time in
      if now - start >? wt then raise timed_out
      else time_sleep pi ;; MinRueClient.poll fuel self url wait wt pi start.

(** The state right after a request that was answered. *)
Definition after_request (w : World) (r : Request) (s : State) : State :=
  log (EvRequest r)
      (mkState (clock s + Z.of_N (latency (respond w (sent s) r))) (S (sent s))
               (next_fd s) (open_fds s) (trace s)).

(** ** Triples for the program logic

    [sat P E D m Q]: from any state, [m] sends only requests that satisfy
    [P]; when it returns, its value satisfies [Q]; when it raises, the
    exception satisfies [E]; and it can run out of fuel only if [D]. *)

Definition sat {A} (P : Request -> Prop) (E : exn -> Prop) (D : Prop)
    (m : M A) (Q : A -> Prop) : Prop :=
  forall w s,
    (forall r, EvRequest r ∈ trace (snd (m w s)) -> EvRequest r ∈ trace s \/ P r) /\
    match fst (m w s) with
    | Ret a => Q a
    | Raise e => E e
    | Diverge => D
    end.

Definition any {A} : A -> Prop := fun _ => True.

(** The exceptions an [except Exception] clause catches. *)
Definition caught (e : exn) : Prop := is_Exception e = true.

(** ** Vocabulary of the further statements *)

(** The state right after [time.sleep(secs)] returned. *)
Definition after_sleep (secs : Z) (s : State) : State :=
  log (EvSleep secs) (mkState (clock s + secs) (sent s) (next_fd s) (open_fds s) (trace s)).

(** [k] rounds of the polling loop that did not end it: a fetch, then a
    sleep of the polling interval. *)
Fixpoint rounds (k : nat) (req : Request) (secs : Z) : list Event :=
  match k with
  | O => []
  | S k' => EvRequest req :: EvSleep secs :: rounds k' req secs
  end.

(** What a wrapper makes of the last answer to its request [q], sent as
    request number [n] through a session with [retries] retries: the
    transport error; [RetryError] when the answer is one the adapter still
    retries; the HTTP error of any other 4xx or 5xx status; the decoding
    error of a body that is not JSON; or the parsed body. *)
Definition settle (w : World) (retries : Z) (q : Request) (n : nat) : outcome json :=
  match answer (respond w n q) with
  | inl msg => Raise (RequestException msg)
  | inr resp =>
      if retried retries (method q) resp
      then Raise (RetryError (max_retries_text w q resp))
      else if (400 <=? status_code resp) && (status_code resp <? 600)
      then Raise (HTTPError (http_error_text resp) resp)
      else match parsed resp with
           | Some j => Ret j
           | None => Raise (JSONDecodeError (decode_error w (text resp)))
           end
  end.

(** A world like [sample_world] whose replies follow a script. *)
Definition scripted_world (script : nat -> Reply) : World :=
  world_of (fun n q => answering q (script n)).

Definition completed (output : string) : json :=
  JObject {[ "status" := JString "completed"; "output" := JString output ]}.

Definition failed (error : string) : json :=
  JObject {[ "status" := JString "failed"; "error" := JString error ]}.

(** A 2xx reply that took [ticks] and carries a record whose status is
    not terminal. *)
Definition pending_reply (reply : Reply) (ticks : N) : Prop :=
  latency reply = ticks /\
  exists resp kvs status,
    answer reply = inr resp /\ is_2xx resp /\ parsed resp = Some (JObject kvs) /\
    kvs !! "status" = Some status /\ terminal (JObject kvs) = false.

(** A 2xx reply that carries the terminal record [record]. *)
Definition terminal_reply (reply : Reply) (record : json) : Prop :=
  exists resp, answer reply = inr resp /\ is_2xx resp /\
               parsed resp = Some record /\ terminal record = true.




(** The text [result['output']] holds, when it is there and a string. *)
Definition output_of (result : json) : option string :=
  match result with
  | JObject kvs =>
      match kvs !! "output" with
      | Some (JString data) => Some data
      | _ => None
      end
  | _ => None
  end.

Definition no_close_attribute : exn :=
  AttributeError "'tuple' object has no attribute 'close'".

(** The message [handle_ragflow_error] makes of a response. *)
Definition ragflow_error_message (w : World) (resp : Response) : string :=
  match parsed resp with
  | Some (JObject kvs) =>
      "RAGFlow Error " +:+ py_str w (default JNull (kvs !! "code")) +:+ ": "
        +:+ py_str w (default (JString "Unknown error") (kvs !! "message"))
  | _ => "HTTP Error " +:+ pretty (status_code resp) +:+ ": " +:+ text resp
  end.


(** The path each listing command of the MinRUE command line fetches. *)
Definition listing_path (args : MinRueArgs) : option string :=
  match args with
  | ArgsHealth => Some "/health"
  | ArgsModels => Some "/models"
  | ArgsTasks => Some "/tasks"
  | _ => None
  end.

(** The line the dataset list prints for one dataset. *)
Definition dataset_line (w : World) (dataset : json) : string :=
  match dataset with
  | JObject kvs =>
      "- " +:+ py_str w (default JNull (kvs !! "name")) +:+ " (ID: "
        +:+ py_str w (default JNull (kvs !! "id")) +:+ ") - "
        +:+ py_str w (default JNull (kvs !! "document_count")) +:+ " documents"
  | _ => ""
  end.

(** A dataset record that has the three fields the list prints. *)
Definition listable (dataset : json) : Prop :=
  exists kvs, dataset = JObject kvs /\
              is_Some (kvs !! "name") /\ is_Some (kvs !! "id") /\
              is_Some (kvs !! "document_count").

Definition kb1_record : json :=
  JObject {[ "name" := JString "kb1"; "id" := JString "d1"; "document_count" := JInt 3 ]}.

Definition one_dataset : gmap string json :=
  {[ "total" := JInt 7; "data" := JArray [kb1_record] ]}.



(** ** Vocabulary of the statements about the command lines *)






(** * Theorems *)

(** ** The polling loop of [get_result] *)

Lemma raise_for_status_2xx resp w s :
  is_2xx resp -> raise_for_status resp w s = (Ret tt, s).
Proof.
  unfold is_2xx, raise_for_status. intros H.
  replace (status_code resp <? 600) with true by (symmetry; apply Z.ltb_lt; lia).
  replace (400 <=? status_code resp) with false by (symmetry; apply Z.leb_gt; lia).
  reflexivity.
Qed.

(** A response the adapter retries has one of six statuses, all of them
    errors. *)
Lemma retried_status retries method resp :
  retried retries method resp = true ->
  status_code resp ∈ [429; 500; 502; 503; 504; 413].
Proof.
  unfold retried. cbn [retry_strategy allowed_methods status_forcelist total].
  rewrite andb_true_iff, orb_true_iff, !andb_true_iff, !bool_decide_eq_true.
  intros [_ [H|[_ H]]].
  all: repeat (apply elem_of_cons in H as [->|H];
               [apply (bool_decide_unpack _); vm_compute; exact I|]).
  all: inversion H.
Qed.

Lemma retried_error retries method resp :
  retried retries method resp = true -> 400 <= status_code resp < 600.
Proof.
  intros H. apply retried_status in H.
  repeat (apply elem_of_cons in H as [->|H]; [lia|]). inversion H.
Qed.

Lemma not_retried retries method resp :
  ~ (400 <= status_code resp < 600) -> retried retries method resp = false.
Proof.
  intros H. destruct (retried retries method resp) eqn:Hr; [|reflexivity].
  destruct (H (retried_error _ _ _ Hr)).
Qed.

Lemma not_retried_2xx retries method resp :
  is_2xx resp -> retried retries method resp = false.
Proof. unfold is_2xx. intros H. apply not_retried. lia. Qed.

Lemma session_request_plain session r w s :
  payload_fds (payload r) = [] ->
  session_request session r w s =
    (match answer (respond w (sent s) r) with
     | inl msg => Raise (RequestException msg)
     | inr resp =>
         if retried (session_retries session) (method r) resp
         then Raise (RetryError (max_retries_text w r resp))
         else Ret resp
     end, after_request w r s).
Proof.
  intros Hp. unfold session_request, after_request. rewrite Hp. cbn [forallb].
  destruct (answer _) as [msg|resp]; [reflexivity|]. destruct (retried _ _ _); reflexivity.
Qed.

(** A request without file parts that is answered by a 2xx response. *)
Lemma session_request_2xx session r w s resp :
  payload_fds (payload r) = [] ->
  answer (respond w (sent s) r) = inr resp ->
  is_2xx resp ->
  session_request session r w s = (Ret resp, after_request w r s).
Proof.
  intros Hp Ha H2. rewrite session_request_plain by exact Hp.
  rewrite Ha, not_retried_2xx by exact H2. reflexivity.
Qed.

Lemma bind_eq {A B} (m : M A) (k : A -> M B) w s o s' :
  m w s = (o, s') ->
  bind m k w s =
    match o with
    | Ret a => k a w s'
    | Raise e => (Raise e, s')
    | Diverge => (Diverge, s')
    end.
Proof. intros H. unfold bind. rewrite H. reflexivity. Qed.

Lemma getitem_some kvs key v w s :
  kvs !! key = Some v -> getitem (JObject kvs) key w s = (Ret v, s).
Proof. intros H. unfold getitem. rewrite H. reflexivity. Qed.

Lemma getitem_none kvs key w s :
  kvs !! key = None -> getitem (JObject kvs) key w s = (Raise (KeyError key), s).
Proof. intros H. unfold getitem. rewrite H. reflexivity. Qed.

Lemma response_json_some resp j w s :
  parsed resp = Some j -> response_json resp w s = (Ret j, s).
Proof. intros H. unfold response_json. rewrite H. reflexivity. Qed.

Lemma response_json_eq resp w s :
  response_json resp w s =
    (match parsed resp with
     | Some j => Ret j
     | None => Raise (JSONDecodeError (decode_error w (text resp)))
     end, s).
Proof. unfold response_json. destruct (parsed resp); reflexivity. Qed.

(** Send, [raise_for_status], parse: the three steps every wrapper ends
    with give what [settle] reads off the reply. *)
Lemma round_trip session q w s :
  payload_fds (payload q) = [] ->
  (let! response := session_request session q in
   raise_for_status response ;; response_json response) w s
    = (settle w (session_retries session) q (sent s), after_request w q s).
Proof.
  intros Hfds. unfold settle, bind.
  rewrite session_request_plain by exact Hfds.
  destruct (answer _) as [msg|resp]; [reflexivity|].
  destruct (retried _ _ _); [reflexivity|].
  unfold raise_for_status. destruct (_ && _); [reflexivity|]. cbn [ret].
  rewrite response_json_eq. destruct (parsed resp); reflexivity.
Qed.

(** The cases of [settle]. *)
Lemma settle_transport w retries q n msg :
  answer (respond w n q) = inl msg -> settle w retries q n = Raise (RequestException msg).
Proof. intros Ha. unfold settle. rewrite Ha. reflexivity. Qed.

Lemma settle_given_up w retries q n resp :
  answer (respond w n q) = inr resp ->
  retried retries (method q) resp = true ->
  settle w retries q n = Raise (RetryError (max_retries_text w q resp)).
Proof. intros Ha Hr. unfold settle. rewrite Ha, Hr. reflexivity. Qed.

Lemma settle_refused w retries q n resp :
  answer (respond w n q) = inr resp ->
  retried retries (method q) resp = false ->
  400 <= status_code resp < 600 ->
  settle w retries q n = Raise (HTTPError (http_error_text resp) resp).
Proof.
  intros Ha Hr Hst. unfold settle. rewrite Ha, Hr.
  replace (400 <=? status_code resp) with true by (symmetry; apply Z.leb_le; lia).
  replace (status_code resp <? 600) with true by (symmetry; apply Z.ltb_lt; lia).
  reflexivity.
Qed.

Lemma settle_served w retries q n resp :
  answer (respond w n q) = inr resp ->
  ~ (400 <= status_code resp < 600) ->
  settle w retries q n =
    match parsed resp with
    | Some j => Ret j
    | None => Raise (JSONDecodeError (decode_error w (text resp)))
    end.
Proof.
  intros Ha Hst. unfold settle. rewrite Ha, not_retried by exact Hst.
  destruct ((400 <=? status_code resp) && (status_code resp <? 600)) eqn:Hb; [|reflexivity].
  apply andb_true_iff in Hb as [H1 H2]. apply Z.leb_le in H1. apply Z.ltb_lt in H2. lia.
Qed.

Lemma settle_caught w retries q n e : settle w retries q n = Raise e -> is_Exception e = true.
Proof.
  unfold settle. destruct (answer _) as [msg|resp]; [intros [= <-]; reflexivity|].
  destruct (retried _ _ _); [intros [= <-]; reflexivity|].
  destruct (_ && _); [intros [= <-]; reflexivity|].
  destruct (parsed resp); [discriminate|intros [= <-]; reflexivity].
Qed.

Lemma settle_not_diverge w retries q n : settle w retries q n <> Diverge.
Proof.
  unfold settle. destruct (answer _) as [msg|resp]; [discriminate|].
  destruct (retried _ _ _); [discriminate|].
  destruct (_ && _); [discriminate|]. destruct (parsed resp); discriminate.
Qed.

(** The methods the clients use are all among those the adapter retries,
    so a status of the force list is always retried. *)
Lemma retried_forcelist retries method resp :
  method ∈ ["GET"; "POST"; "PUT"; "DELETE"] ->
  status_code resp ∈ [429; 500; 502; 503; 504] ->
  retried retries method resp = true.
Proof.
  intros Hm Hst. unfold retried.
  cbn [retry_strategy allowed_methods status_forcelist total].
  rewrite (bool_decide_eq_true_2 _ Hst), orb_true_l, andb_true_r.
  apply bool_decide_eq_true_2.
  repeat (apply elem_of_cons in Hm as [->|Hm];
          [apply (bool_decide_unpack _); vm_compute; exact I|]).
  inversion Hm.
Qed.


(** The loop body, one unfolding of the loop. *)
Lemma poll_S fuel self url wait wt pi start :
  MinRueClient.poll (S fuel) self url wait wt pi start =
    (let! response := session_request (MinRueClient.session self) (poll_request self url) in
     raise_for_status response ;;
     let! result := response_json response in
     let! status1 := getitem result "status" in
     if eq_str status1 "completed" then ret result
     else
       let! status2 := getitem result "status" in
       if eq_str status2 "failed" || negb wait then ret result
       else
         let! now := time_time in
         if now - start >? wt then raise timed_out
         else time_sleep pi ;; MinRueClient.poll fuel self url wait wt pi start).
Proof. reflexivity. Qed.

(** Run the first computation of a [bind] whose result is known. *)
Ltac mstep tac := erewrite bind_eq by tac; cbv beta iota.

(** One iteration is a round trip and what follows it. *)
Lemma poll_settle fuel self url wait wt pi start w s :
  let req := poll_request self url in
  MinRueClient.poll (S fuel) self url wait wt pi start w s =
    match settle w (session_retries (MinRueClient.session self)) req (sent s) with
    | Ret result => after_fetch fuel self url wait wt pi start result w (after_request w req s)
    | Raise e => (Raise e, after_request w req s)
    | Diverge => (Diverge, after_request w req s)
    end.
Proof.
  intros req. rewrite poll_S. fold req. unfold settle, bind at 1.
  rewrite session_request_plain by reflexivity.
  destruct (answer _) as [msg|resp]; [reflexivity|].
  destruct (retried _ _ _); [reflexivity|].
  unfold bind at 1, raise_for_status. destruct (_ && _); [reflexivity|]. unfold ret at 1.
  unfold bind at 1. rewrite response_json_eq. destruct (parsed resp); reflexivity.
Qed.

(** One iteration of the loop, when the fetch yields a record with a status. *)
Lemma poll_step fuel self url wait wt pi start w s resp kvs status :
  answer (respond w (sent s) (poll_request self url)) = inr resp ->
  is_2xx resp ->
  parsed resp = Some (JObject kvs) ->
  kvs !! "status" = Some status ->
  MinRueClient.poll (S fuel) self url wait wt pi start w s =
    let s1 := after_request w (poll_request self url) s in
    if eq_str status "completed" || eq_str status "failed" || negb wait
    then (Ret (JObject kvs), s1)
    else if clock s1 - start >? wt then (Raise timed_out, s1)
    else match sleep_error w pi with
         | Some e => (Raise e, s1)
         | None => MinRueClient.poll fuel self url wait wt pi start w (after_sleep pi s1)
         end.
Proof.
  intros Ha H2 Hp Hs. cbv zeta.
  rewrite poll_S.
  mstep ltac:(apply session_request_2xx; [reflexivity|exact Ha|exact H2]).
  mstep ltac:(apply raise_for_status_2xx; assumption).
  mstep ltac:(apply response_json_some; eassumption).
  mstep ltac:(apply getitem_some; eassumption).
  destruct (eq_str status "completed"); [reflexivity|].
  mstep ltac:(apply getitem_some; eassumption).
  destruct (eq_str status "failed"); [reflexivity|].
  destruct wait; [|reflexivity]. cbn [orb negb].
  mstep ltac:(exact eq_refl).
  destruct (_ >? wt); [reflexivity|].
  unfold bind, time_sleep.
  destruct (sleep_error w pi); reflexivity.
Qed.

(** C2: when the first fetched record has status [completed] or
    [failed], whatever the wait flag, or when the wait flag is false,
    whatever the status, [get_result] returns that record after exactly one
    fetch: the final state is the initial one plus one request, with no
    sleep and no further request. *)
Theorem get_result_returns_on_first_fetch
    fuel self job_id wait wt pi w s resp kvs status :
  let req := poll_request self (MinRueClient.base_url self +:+ "/results/" +:+ py_str w job_id) in
  answer (respond w (sent s) req) = inr resp ->
  is_2xx resp ->
  parsed resp = Some (JObject kvs) ->
  kvs !! "status" = Some status ->
  eq_str status "completed" = true \/ eq_str status "failed" = true \/ wait = false ->
  MinRueClient.get_result (S fuel) self job_id wait wt pi w s
    = (Ret (JObject kvs), after_request w req s)
  /\ sent (after_request w req s) = S (sent s)
  /\ trace (after_request w req s) = trace s ++ [EvRequest req].
Proof.
  intros req Ha H2 Hp Hs Hc. split; [|split; reflexivity].
  unfold MinRueClient.get_result.
  mstep ltac:(exact eq_refl).
  mstep ltac:(exact eq_refl).
  rewrite (poll_step _ _ _ _ _ _ _ _ _ resp kvs status) by assumption.
  cbv zeta. fold req.
  destruct Hc as [-> | [-> | ->]]; [reflexivity | |];
    rewrite orb_true_r; reflexivity.
Qed.

Lemma get_result_is_poll fuel self job_id wait wt pi w s :
  MinRueClient.get_result fuel self job_id wait wt pi w s =
    MinRueClient.poll fuel self
      (MinRueClient.base_url self +:+ "/results/" +:+ py_str w job_id)
      wait wt pi (clock s) w s.
Proof.
  unfold MinRueClient.get_result.
  mstep ltac:(exact eq_refl). mstep ltac:(exact eq_refl). reflexivity.
Qed.

(** C9: at every iteration of the polling loop, for both values of the
    wait flag, a 2xx response whose body is a JSON object without a
    ['status'] key makes the call raise [KeyError('status')], right after
    that fetch: no record is returned, and the error is neither a timeout
    nor a parse error.  The first conjunct is any iteration of the loop,
    the second the call of [get_result] whose first fetch is such a
    response. *)
Theorem missing_status_raises_KeyError fuel self wait wt pi w s resp kvs :
  is_2xx resp ->
  parsed resp = Some (JObject kvs) ->
  kvs !! "status" = None ->
  (forall url start,
     answer (respond w (sent s) (poll_request self url)) = inr resp ->
     MinRueClient.poll (S fuel) self url wait wt pi start w s
       = (Raise (KeyError "status"), after_request w (poll_request self url) s)) /\
  (forall job_id,
     let req := poll_request self
                  (MinRueClient.base_url self +:+ "/results/" +:+ py_str w job_id) in
     answer (respond w (sent s) req) = inr resp ->
     MinRueClient.get_result (S fuel) self job_id wait wt pi w s
       = (Raise (KeyError "status"), after_request w req s)).
Proof.
  intros H2 Hp Hs.
  assert (Hpoll : forall url start,
            answer (respond w (sent s) (poll_request self url)) = inr resp ->
            MinRueClient.poll (S fuel) self url wait wt pi start w s
              = (Raise (KeyError "status"), after_request w (poll_request self url) s)).
  { intros url start Ha. rewrite poll_S.
    mstep ltac:(apply session_request_2xx; [reflexivity|exact Ha|exact H2]).
    mstep ltac:(apply raise_for_status_2xx; assumption).
    mstep ltac:(apply response_json_some; eassumption).
    mstep ltac:(apply getitem_none; eassumption).
    reflexivity. }
  split; [exact Hpoll|].
  intros job_id req Ha. rewrite get_result_is_poll. apply Hpoll. exact Ha.
Qed.

Lemma sleep_error_none w secs : sleep_error w secs = None -> 0 <= secs <= sleep_limit.
Proof.
  unfold sleep_error. destruct (_ || _) eqn:Hb; [discriminate|].
  apply orb_false_iff in Hb as [H1 H2]. apply Z.ltb_ge in H1, H2.
  destruct (secs <? 0) eqn:Hn; [discriminate|]. apply Z.ltb_ge in Hn. lia.
Qed.


Lemma sleep_error_negative w secs :
  -9223372036 <= secs < 0 ->
  sleep_error w secs = Some (ValueError "sleep length must be non-negative").
Proof.
  intros H.
  assert (E1 : (secs <? - sleep_limit) = false) by (apply Z.ltb_ge; unfold sleep_limit; lia).
  assert (E2 : (sleep_limit <? secs) = false) by (apply Z.ltb_ge; unfold sleep_limit; lia).
  assert (E3 : (secs <? 0) = true) by (apply Z.ltb_lt; lia).
  unfold sleep_error. rewrite E1, E2, E3. reflexivity.
Qed.

Lemma sleep_error_overflow w secs :
  secs < -9223372036 \/ 9223372036 < secs ->
  sleep_error w secs = Some (OverflowError "timestamp too large to convert to C _PyTime_t").
Proof.
  intros H. unfold sleep_error.
  replace ((secs <? - sleep_limit) || (sleep_limit <? secs)) with true; [reflexivity|].
  symmetry. apply orb_true_iff. unfold sleep_limit.
  destruct H as [H|H]; [left|right]; apply Z.ltb_lt; lia.
Qed.

Lemma sleep_error_short w secs : 0 <= secs <= sleep_floor -> sleep_error w secs = None.
Proof.
  intros H.
  assert (E1 : (secs <? - sleep_limit) = false) by (apply Z.ltb_ge; unfold sleep_limit; lia).
  assert (E2 : (sleep_limit <? secs) = false)
    by (apply Z.ltb_ge; unfold sleep_limit, sleep_floor in *; lia).
  assert (E3 : (secs <? 0) = false) by (apply Z.ltb_ge; lia).
  assert (E4 : (sleep_floor <? secs) = false) by (apply Z.ltb_ge; lia).
  unfold sleep_error. rewrite E1, E2, E3, E4. reflexivity.
Qed.

(** One iteration either ends the loop right after its fetch, or sleeps
    the polling interval and goes on. *)
Lemma poll_cases fuel self url wait wt pi start w s :
  let req := poll_request self url in
  let s1 := after_request w req s in
  (exists o, MinRueClient.poll (S fuel) self url wait wt pi start w s = (o, s1) /\
             o <> Diverge) \/
  (wait = true /\ sleep_error w pi = None /\ clock s1 - start <= wt /\
   (exists resp kvs status,
      answer (respond w (sent s) req) = inr resp /\
      parsed resp = Some (JObject kvs) /\ kvs !! "status" = Some status /\
      terminal (JObject kvs) = false) /\
   MinRueClient.poll (S fuel) self url wait wt pi start w s
     = MinRueClient.poll fuel self url wait wt pi start w (after_sleep pi s1)).
Proof.
  cbv zeta.
  remember (MinRueClient.poll (S fuel) self url wait wt pi start w s) as r eqn:Hr.
  rewrite poll_S in Hr.
  unfold bind at 1 in Hr. rewrite session_request_plain in Hr by reflexivity.
  destruct (answer _) as [msg|resp] eqn:Ha; [left; eexists; split; [exact Hr|discriminate]|].
  destruct (retried _ _ _); [left; eexists; split; [exact Hr|discriminate]|].
  unfold bind at 1, raise_for_status in Hr.
  destruct (_ && _); [left; eexists; split; [exact Hr|discriminate]|]. unfold ret at 1 in Hr.
  unfold bind at 1 in Hr. rewrite response_json_eq in Hr.
  destruct (parsed resp) as [result|] eqn:Hp;
    [|left; eexists; split; [exact Hr|discriminate]].
  unfold bind at 1 in Hr.
  destruct result as [| | | | |xs|kvs];
    try (left; eexists; split; [exact Hr|discriminate]).
  destruct (kvs !! "status") as [status|] eqn:Hs;
    [rewrite (getitem_some _ _ _ _ _ Hs) in Hr
    |rewrite (getitem_none _ _ _ _ Hs) in Hr; left; eexists; split; [exact Hr|discriminate]].
  destruct (eq_str status "completed") eqn:Hc;
    [left; eexists; split; [exact Hr|discriminate]|].
  unfold bind at 1 in Hr. rewrite (getitem_some _ _ _ _ _ Hs) in Hr.
  destruct (eq_str status "failed") eqn:Hf;
    [left; eexists; split; [exact Hr|discriminate]|].
  destruct wait; [|left; eexists; split; [exact Hr|discriminate]]. cbn [orb negb] in Hr.
  unfold bind at 1, time_time in Hr.
  destruct (_ >? wt) eqn:Hgt; [left; eexists; split; [exact Hr|discriminate]|].
  rewrite Z.gtb_ltb in Hgt. apply Z.ltb_ge in Hgt.
  unfold bind at 1, time_sleep in Hr.
  destruct (sleep_error w pi) eqn:Hpi; [left; eexists; split; [exact Hr|discriminate]|].
  right.
  split; [reflexivity|]. split; [reflexivity|]. split; [exact Hgt|]. split; [|exact Hr].
  exists resp, kvs, status. split; [first [reflexivity|assumption]|].
  split; [first [reflexivity|assumption]|]. split; [exact Hs|].
  unfold terminal. rewrite Hs, Hc, Hf. reflexivity.
Qed.

(** What one call of the loop can end with, and that enough fuel rules
    out [Diverge], when every fetch takes [d] ticks or more: a round of
    fetch and sleep then moves the clock by [pi + d] or more. *)
Lemma poll_total self url wait wt pi start w d :
  (forall n q, (d <= latency (respond w n q))%N) ->
  forall fuel s,
    pi < 0 \/ wt - (clock s - start) < (pi + Z.of_N d) * Z.of_nat fuel ->
    match fst (MinRueClient.poll (S fuel) self url wait wt pi start w s) with
    | Ret result => terminal result = true \/ wait = false
    | Raise e => e = timed_out \/ is_fetch_error e = true \/ sleep_error w pi = Some e
    | Diverge => False
    end.
Proof.
  intros Hd. induction fuel as [|fuel IH]; intros s Hfuel.
  all: pose proof (Hd (sent s) (poll_request self url)) as Hlat.
  all: rewrite poll_S.
  all: unfold bind at 1; rewrite session_request_plain by reflexivity.
  all: destruct (answer _) as [msg|resp]; [cbn; auto|].
  all: destruct (retried _ _ _); [cbn; auto|].
  all: unfold bind at 1, raise_for_status.
  all: destruct (_ && _); [cbn; auto|]; unfold ret at 1.
  all: unfold bind at 1; rewrite response_json_eq.
  all: destruct (parsed resp) as [result|]; [|cbn; auto].
  all: unfold bind at 1.
  all: destruct result as [| | | | |xs|kvs]; try (cbn; auto; fail).
  all: destruct (kvs !! "status") as [status|] eqn:Hs;
       [rewrite (getitem_some _ _ _ _ _ Hs)|rewrite (getitem_none _ _ _ _ Hs); cbn; auto].
  all: destruct (eq_str status "completed") eqn:Hc;
       [cbn [fst ret]; left; unfold terminal; rewrite Hs, Hc; reflexivity|].
  all: unfold bind at 1; rewrite (getitem_some _ _ _ _ _ Hs).
  all: destruct (eq_str status "failed") eqn:Hf;
       [cbn [fst ret orb]; left; unfold terminal; rewrite Hs, Hc, Hf; reflexivity|].
  all: destruct wait; [|cbn; auto]; cbn [orb negb].
  all: unfold bind at 1, time_time.
  all: destruct (_ >? wt) eqn:Hgt; [cbn; auto|].
  all: rewrite Z.gtb_ltb in Hgt; apply Z.ltb_ge in Hgt; cbn [clock after_request log] in Hgt.
  all: unfold bind at 1, time_sleep.
  all: destruct (sleep_error w pi) as [e|] eqn:Hsl; [cbn; auto|].
  all: apply sleep_error_none in Hsl.
  - exfalso. lia.
  - apply IH. right. cbn [clock log after_request]. lia.
Qed.

Lemma poll_pending self url wt pi start w d :
  always_pending w ->
  (forall n q, (d <= latency (respond w n q))%N) ->
  sleep_error w pi = None ->
  forall fuel s,
    clock s - start <= wt + pi ->
    wt - (clock s - start) < (pi + Z.of_N d) * Z.of_nat fuel ->
    exists s',
      MinRueClient.poll (S fuel) self url true wt pi start w s = (Raise timed_out, s') /\
      (sent s < sent s')%nat /\
      clock s' - start
        <= wt + pi + Z.of_N (latency (respond w (sent s' - 1) (poll_request self url))).
Proof.
  intros Hw Hd Hsl. pose proof (sleep_error_none _ _ Hsl) as Hpi.
  induction fuel as [|fuel IH]; intros s Hin Hfuel.
  all: pose proof (Hd (sent s) (poll_request self url)) as Hlat.
  all: destruct (Hw (sent s) (poll_request self url))
         as (resp & kvs & status & Ha & H2 & Hp & Hs & Hc & Hf).
  all: rewrite (poll_step _ _ _ _ _ _ _ _ _ resp kvs status) by assumption.
  all: cbv zeta; rewrite Hc, Hf; cbn [orb negb].
  all: destruct (_ >? wt) eqn:Hgt.
  1,3: eexists; split; [reflexivity|]; cbn [sent clock after_request log];
       replace (S (sent s) - 1)%nat with (sent s) by lia; split; lia.
  all: rewrite Z.gtb_ltb in Hgt; apply Z.ltb_ge in Hgt; cbn [clock after_request log] in Hgt.
  - exfalso. lia.
  - rewrite Hsl.
    edestruct IH as (s' & Heq & Hsent & Hclock); [| |exists s'; split; [exact Heq|]].
    + cbn [clock log after_request after_sleep]. lia.
    + cbn [clock log after_request after_sleep]. lia.
    + cbn [sent log after_request after_sleep] in Hsent. split; [lia|exact Hclock].
Qed.

Lemma always_pending_sample body ticks status :
  body = JObject {[ "status" := status ]} ->
  eq_str status "completed" = false ->
  eq_str status "failed" = false ->
  always_pending (sample_world (ok body ticks)).
Proof.
  intros -> Hc Hf n req. eexists _, _, status.
  split; [reflexivity|]. split; [unfold is_2xx; cbn; lia|].
  split; [reflexivity|]. split; [reflexivity|]. split; [exact Hc|exact Hf].
Qed.

(** Enough fuel: [wt / (pi + d) + 2] iterations always suffice. *)
Lemma enough_fuel wt step fuel :
  0 < step ->
  (Z.to_nat (wt / step) + 2 <= S fuel)%nat ->
  wt < step * Z.of_nat fuel.
Proof.
  intros Hstep Hfuel.
  pose proof (Z.mul_succ_div_gt wt step Hstep) as Hdiv.
  assert (Z.succ (wt / step) <= Z.of_nat fuel) by lia. nia.
Qed.

Lemma get_result_outcomes self job_id wait wt pi w s fuel d :
  (forall n q, (d <= latency (respond w n q))%N) ->
  pi < 0 \/ 0 < pi + Z.of_N d ->
  (Z.to_nat (wt / (pi + Z.of_N d)) + 2 <= fuel)%nat ->
  match fst (MinRueClient.get_result fuel self job_id wait wt pi w s) with
  | Ret result => terminal result = true \/ wait = false
  | Raise e => e = timed_out \/ is_fetch_error e = true \/ sleep_error w pi = Some e
  | Diverge => False
  end.
Proof.
  intros Hd Hpi Hfuel. rewrite get_result_is_poll.
  destruct fuel as [|fuel]; [lia|].
  apply (poll_total _ _ _ _ _ _ _ d Hd).
  destruct Hpi as [Hpi|Hpi]; [left; exact Hpi|right].
  pose proof (enough_fuel wt _ fuel Hpi Hfuel). lia.
Qed.

(** C1, as stated, fails on the time bound: with a wait of 60, an interval
    of 5 and fetches that take 4 ticks each, the timeout is raised 67
    ticks after the call, later than 60 + 5. *)
Lemma get_result_times_out_late :
  let w := sample_world (ok pending 4) in
  let r := MinRueClient.get_result 20 minrue_default (JString "job-1") true 60 5 w initial in
  always_pending w /\
  fst r = Raise timed_out /\
  clock (snd r) - clock initial = 67 /\
  ~ (clock (snd r) - clock initial <= 60 + 5).
Proof.
  cbv zeta. split; [|split; [|split]].
  - apply (always_pending_sample _ _ (JString "pending")); reflexivity.
  - vm_compute. reflexivity.
  - vm_compute. reflexivity.
  - vm_compute. intros H. apply H. reflexivity.
Qed.

(** C1, amended: for every maximum wait and every polling interval,
    [get_result] terminates as soon as the loop makes progress, that is
    when the interval is not zero or every fetch takes time.  With
    fetches that take [d] ticks or more and [wt / (pi + d) + 2] iterations
    of fuel, it never runs out of fuel; it returns a record whose status
    is terminal, or returns because wait is false, or raises the timeout
    error, or raises the error of a fetch that failed (transport, retries
    exhausted, HTTP status, body that is not JSON, missing ['status']), or
    raises the error of [time.sleep] for an interval it does not accept (a
    negative one, one beyond [sleep_limit], one the platform refuses),
    which happens right after the first fetch; the timeout error is none
    of the fetch errors.  When the remote status never becomes terminal,
    wait is true, the maximum wait is not negative and the interval is
    one [time.sleep] accepts, it raises the timeout error, and the time
    elapsed since the call is at most the maximum wait plus one polling
    interval plus the duration of the last fetch. *)
Theorem get_result_terminates self job_id wait wt pi w s fuel d :
  (forall n q, (d <= latency (respond w n q))%N) ->
  pi < 0 \/ 0 < pi + Z.of_N d ->
  (Z.to_nat (wt / (pi + Z.of_N d)) + 2 <= fuel)%nat ->
  let req := poll_request self (MinRueClient.base_url self +:+ "/results/" +:+ py_str w job_id) in
  let r := MinRueClient.get_result fuel self job_id wait wt pi w s in
  match fst r with
  | Ret result => terminal result = true \/ wait = false
  | Raise e => e = timed_out \/ is_fetch_error e = true \/ sleep_error w pi = Some e
  | Diverge => False
  end
  /\ is_fetch_error timed_out = false
  /\ (forall e, sleep_error w pi = Some e ->
      fst r <> Diverge /\ snd r = after_request w req s)
  /\ (wait = true -> 0 <= wt -> always_pending w -> sleep_error w pi = None ->
      fst r = Raise timed_out /\
      clock (snd r) - clock s
        <= wt + pi + Z.of_N (latency (respond w (sent (snd r) - 1) req))).
Proof.
  intros Hd Hpi Hfuel req r.
  split; [apply (get_result_outcomes _ _ _ _ _ _ _ _ d); assumption|]. split; [reflexivity|].
  split.
  - intros e Hsl. subst r. rewrite get_result_is_poll.
    destruct fuel as [|fuel]; [lia|]. fold req.
    destruct (poll_cases fuel self
                (MinRueClient.base_url self +:+ "/results/" +:+ py_str w job_id)
                wait wt pi (clock s) w s) as [(o & Heq & Ho)|(_ & Hsl' & _)].
    + fold req in Heq. rewrite Heq. split; [exact Ho|reflexivity].
    + congruence.
  - intros -> Hwt Hw Hsl. subst r. rewrite get_result_is_poll.
    destruct fuel as [|fuel]; [lia|].
    pose proof (sleep_error_none _ _ Hsl) as Hpi'.
    destruct (poll_pending self
                (MinRueClient.base_url self +:+ "/results/" +:+ py_str w job_id)
                wt pi (clock s) w d Hw Hd Hsl fuel s) as (s' & Heq & _ & Hclock).
    + lia.
    + destruct Hpi as [Hpi|Hpi]; [lia|].
      pose proof (enough_fuel wt _ fuel Hpi Hfuel). lia.
    + rewrite Heq. cbn [fst snd]. split; [reflexivity|exact Hclock].
Qed.

Lemma get_result_terminates_witness :
  let w := sample_world (ok pending 4) in
  let r := MinRueClient.get_result 17 minrue_default (JString "job-1") true 60 0 w initial in
  fst r = Raise timed_out /\ clock (snd r) - clock initial <= 60 + 0 + 4.
Proof.
  cbv zeta.
  apply (proj2 (proj2 (proj2
           (get_result_terminates minrue_default (JString "job-1") true 60 0
              (sample_world (ok pending 4)) initial 17 4
              ltac:(intros n q; vm_compute; discriminate) ltac:(right; reflexivity)
              ltac:(vm_compute; lia))))).
  - reflexivity.
  - lia.
  - apply (always_pending_sample _ _ (JString "pending")); reflexivity.
  - reflexivity.
Defined.

Lemma get_result_returns_on_first_fetch_witness :
  let w := sample_world (ok pending 4) in
  MinRueClient.get_result 1 minrue_default (JString "job-1") false 60 5 w initial
    = (Ret pending,
       after_request w (poll_request minrue_default "http://localhost:8000/v1/results/job-1")
         initial).
Proof.
  cbv zeta.
  apply (get_result_returns_on_first_fetch 0 minrue_default (JString "job-1") false 60 5
           (sample_world (ok pending 4)) initial
           (mkResponse 200 "OK" "http://localhost:8000/v1/results/job-1" false ""
              (Some pending))
           {[ "status" := JString "pending" ]} (JString "pending")).
  - reflexivity.
  - unfold is_2xx. cbn. lia.
  - reflexivity.
  - reflexivity.
  - right. right. reflexivity.
Defined.

Lemma missing_status_raises_KeyError_witness :
  let w := sample_world (ok (JObject ∅) 0) in
  MinRueClient.get_result 1 minrue_default (JString "job-1") true 60 5 w initial
    = (Raise (KeyError "status"),
       after_request w (poll_request minrue_default "http://localhost:8000/v1/results/job-1")
         initial).
Proof.
  cbv zeta.
  refine (proj2 (missing_status_raises_KeyError 0 minrue_default true 60 5
                   (sample_world (ok (JObject ∅) 0)) initial
                   (mkResponse 200 "OK" "http://localhost:8000/v1/results/job-1" false ""
                      (Some (JObject ∅)))
                   ∅ _ _ _) (JString "job-1") _).
  - unfold is_2xx. cbn. lia.
  - reflexivity.
  - reflexivity.
  - reflexivity.
Defined.

(** ** A small program logic *)

Section Rules.

Variable P : Request -> Prop.
Variable E : exn -> Prop.
Variable D : Prop.
Hypothesis E_Exception : forall e, is_Exception e = true -> E e.

Lemma sat_ret {A} (a : A) (Q : A -> Prop) : Q a -> sat P E D (ret a) Q.
Proof. intros H w s. cbn. auto. Qed.

Lemma sat_raise {A} e (Q : A -> Prop) : E e -> sat P E D (raise e) Q.
Proof. intros H w s. cbn. auto. Qed.

Lemma sat_diverge {A} (Q : A -> Prop) : D -> sat P E D diverge Q.
Proof. intros H w s. cbn. auto. Qed.

Lemma sat_bind {A B} (m : M A) (k : A -> M B) (Q1 : A -> Prop) (Q : B -> Prop) :
  sat P E D m Q1 -> (forall a, Q1 a -> sat P E D (k a) Q) -> sat P E D (bind m k) Q.
Proof.
  intros Hm Hk w s. unfold bind.
  destruct (Hm w s) as [Ht Ho]. destruct (m w s) as [[a|e|] s1]; cbn in *; auto.
  destruct (Hk a Ho w s1) as [Ht' Ho']. split; [|exact Ho'].
  intros r Hr. destruct (Ht' r Hr) as [Hin|HP]; auto.
Qed.

Lemma sat_seq {A B} (m : M A) (k : A -> M B) (Q : B -> Prop) :
  sat P E D m any -> (forall a, sat P E D (k a) Q) -> sat P E D (bind m k) Q.
Proof. intros Hm Hk. apply (sat_bind m k any); auto. Qed.

Lemma sat_if {A} (b : bool) (m1 m2 : M A) (Q : A -> Prop) :
  sat P E D m1 Q -> sat P E D m2 Q -> sat P E D (if b then m1 else m2) Q.
Proof. destruct b; auto. Qed.

(** A computation that leaves the trace alone or adds events that are
    not requests. *)
Lemma sat_quiet {A} (m : M A) (Q : A -> Prop) :
  (forall w s r, EvRequest r ∈ trace (snd (m w s)) -> EvRequest r ∈ trace s) ->
  (forall w s, match fst (m w s) with
               | Ret a => Q a
               | Raise e => is_Exception e = true
               | Diverge => False
               end) ->
  sat P E D m Q.
Proof.
  intros Ht Ho w s. split; [intros r Hr; left; eauto|].
  specialize (Ho w s). destruct (fst (m w s)); [auto|auto|contradiction].
Qed.

Lemma sat_ask {A} (f : World -> A) (Q : A -> Prop) :
  (forall w, Q (f w)) -> sat P E D (ask f) Q.
Proof. intros H w s. cbn. auto. Qed.

Lemma sat_fmt v : sat P E D (fmt v) any.
Proof. apply sat_ask. intros; exact I. Qed.

Lemma log_quiet ev s r :
  (forall q, ev <> EvRequest q) ->
  EvRequest r ∈ trace (log ev s) -> EvRequest r ∈ trace s.
Proof.
  intros Hev. cbn. rewrite elem_of_app, list_elem_of_singleton.
  intros [H|H]; [exact H|]. symmetry in H. destruct (Hev _ H).
Qed.

Lemma sat_print line : sat P E D (print line) any.
Proof.
  apply sat_quiet; [|intros; exact I].
  intros w s r. apply log_quiet. discriminate.
Qed.

Lemma sat_time_time : sat P E D time_time any.
Proof. apply sat_quiet; intros; cbn in *; auto. exact I. Qed.

Lemma sat_time_sleep secs : sat P E D (time_sleep secs) any.
Proof.
  apply sat_quiet.
  - intros w s r. unfold time_sleep. destruct (sleep_error w secs); [auto|].
    intros H. apply log_quiet in H; [exact H|discriminate].
  - intros w s. unfold time_sleep. unfold sleep_error.
    destruct (_ || _); [reflexivity|]. destruct (secs <? 0); [reflexivity|].
    destruct (_ <? secs); [|exact I]. destruct (long_sleep w secs) as [[]|]; cbn; auto.
    exact I.
Qed.

Lemma sat_os_path_exists path : sat P E D (os_path_exists path) any.
Proof. apply sat_quiet; intros; cbn in *; auto. exact I. Qed.

Lemma sat_open_rb path : sat P E D (open_rb path) any.
Proof.
  apply sat_quiet.
  - intros w s r. unfold open_rb. destruct (stat w path); auto.
    intros H. apply log_quiet in H; [exact H|discriminate].
  - intros w s. unfold open_rb. destruct (stat w path); cbn; auto. exact I.
Qed.

Lemma sat_open_w path : sat P E D (open_w path) any.
Proof.
  apply sat_quiet.
  - intros w s r. unfold open_w. destruct (writable w path); auto.
    intros H. apply log_quiet in H; [exact H|discriminate].
  - intros w s. unfold open_w. destruct (writable w path); cbn; auto. exact I.
Qed.

Lemma sat_close fd : sat P E D (close fd) any.
Proof.
  apply sat_quiet; [|intros; exact I].
  intros w s r H. apply log_quiet in H; [exact H|discriminate].
Qed.

Lemma sat_file_write fd v : sat P E D (file_write fd v) any.
Proof.
  destruct v as [| | | |data| |]; try (apply sat_raise, E_Exception; reflexivity).
  apply sat_quiet; [|intros; exact I].
  intros w s r H. apply log_quiet in H; [exact H|discriminate].
Qed.

Lemma sat_with_open {A} (opening : M nat) (body : nat -> M A) (Q : A -> Prop) :
  sat P E D opening any -> (forall f, sat P E D (body f) Q) ->
  sat P E D (with_open opening body) Q.
Proof.
  intros Ho Hb. unfold with_open. apply (sat_seq _ _ _ Ho). intros f w s.
  destruct (Hb f w s) as [Ht Hr]. destruct (body f w s) as [[a|e|] s1]; cbn in *.
  3: auto.
  all: split; [|exact Hr]; intros r H.
  all: apply log_quiet in H; [auto|discriminate].
Qed.

Lemma sat_session_request session r : P r -> sat P E D (session_request session r) any.
Proof.
  intros HP w s. unfold session_request.
  destruct (forallb _ _); [|cbn; split; [auto|apply E_Exception; reflexivity]].
  assert (Ht : forall q, EvRequest q ∈ trace s ++ [EvRequest r] ->
                         EvRequest q ∈ trace s \/ P q).
  { intros q. rewrite elem_of_app, list_elem_of_singleton.
    intros [H|H]; [auto|]. inversion H; subst. auto. }
  destruct (answer _) as [msg|resp]; [cbn; split; auto|].
  destruct (retried _ _ _); cbn; split; auto. exact I.
Qed.

Lemma sat_raise_for_status resp : sat P E D (raise_for_status resp) any.
Proof.
  unfold raise_for_status. apply sat_if.
  - apply sat_raise, E_Exception. reflexivity.
  - apply sat_ret. exact I.
Qed.

Lemma sat_response_json resp : sat P E D (response_json resp) any.
Proof.
  unfold response_json. destruct (parsed resp).
  - apply sat_ret. exact I.
  - intros w s. cbn. split; [auto|]. apply E_Exception. reflexivity.
Qed.

Lemma sat_getitem v key : sat P E D (getitem v key) any.
Proof.
  destruct v; cbn [getitem]; try (apply sat_raise, E_Exception; reflexivity).
  destruct (_ !! key).
  - apply sat_ret. exact I.
  - apply sat_raise, E_Exception. reflexivity.
Qed.

Lemma sat_dict_get d key fallback : sat P E D (dict_get d key fallback) any.
Proof.
  destruct d; cbn [dict_get]; try (apply sat_raise, E_Exception; reflexivity).
  apply sat_ret. exact I.
Qed.

Lemma sat_len v : sat P E D (len v) any.
Proof.
  destruct v; cbn [len]; try (apply sat_raise, E_Exception; reflexivity);
    apply sat_ret; exact I.
Qed.

Lemma sat_iter v : sat P E D (iter v) any.
Proof.
  destruct v; cbn [iter]; try (apply sat_raise, E_Exception; reflexivity);
    apply sat_ret; exact I.
Qed.

Lemma sat_obj_close o : sat P E D (obj_close o) any.
Proof.
  destruct o; cbn [obj_close].
  - apply sat_close.
  - apply sat_raise, E_Exception. reflexivity.
Qed.

Lemma sat_for_each {A} (xs : list A) (body : A -> M unit) :
  (forall x, sat P E D (body x) any) -> sat P E D (for_each xs body) any.
Proof.
  intros Hb. induction xs as [|x xs IH]; cbn [for_each].
  - apply sat_ret. exact I.
  - apply sat_seq; auto.
Qed.

End Rules.

(** ** Base URL normalisation *)

Lemma rstrip_slash_slashes n : rstrip_slash (slashes n) = EmptyString.
Proof. induction n as [|n IH]; [reflexivity|]. cbn. rewrite IH. reflexivity. Qed.

Lemma rstrip_slash_cons c s :
  rstrip_slash (String c s) =
    match rstrip_slash s with
    | EmptyString => if Ascii.eqb c "/" then EmptyString else String c EmptyString
    | kept => String c kept
    end.
Proof. reflexivity. Qed.

Lemma rstrip_slash_app_slashes b n : rstrip_slash (b +:+ slashes n) = rstrip_slash b.
Proof.
  induction b as [|c b IH].
  - apply rstrip_slash_slashes.
  - change (String c b +:+ slashes n) with (String c (b +:+ slashes n)).
    rewrite !rstrip_slash_cons, IH. reflexivity.
Qed.

Lemma rstrip_slash_no_trailing b : ends_with_slash (rstrip_slash b) = false.
Proof.
  induction b as [|c b IH]; [reflexivity|]. rewrite rstrip_slash_cons.
  destruct (rstrip_slash b) as [|c' kept].
  - destruct (Ascii.eqb c "/") eqn:Hc; [reflexivity|]. cbn. exact Hc.
  - exact IH.
Qed.

Lemma rstrip_slash_decompose b : exists n, b = rstrip_slash b +:+ slashes n.
Proof.
  induction b as [|c b [n IH]]; [exists 0%nat; reflexivity|].
  rewrite rstrip_slash_cons. destruct (rstrip_slash b) as [|c' kept] eqn:Hb.
  - destruct (Ascii.eqb c "/") eqn:Hc.
    + apply Ascii.eqb_eq in Hc. subst c. exists (S n).
      change (String "/" b = String "/" (slashes n)). rewrite IH at 1. reflexivity.
    + exists n. change (String c b = String c (slashes n)). rewrite IH at 1. reflexivity.
  - exists n. change (String c b = String c (String c' kept +:+ slashes n)).
    rewrite IH at 1. reflexivity.
Qed.

Lemma rstrip_slash_fixed s : ends_with_slash s = false -> rstrip_slash s = s.
Proof.
  induction s as [|c s IH]; [reflexivity|]. intros H. rewrite rstrip_slash_cons.
  destruct s as [|c' s'].
  - cbn in H. cbn. rewrite H. reflexivity.
  - rewrite IH by exact H. reflexivity.
Qed.

Ltac sat_step HE :=
  lazymatch goal with
  | |- sat _ _ _ (bind _ _) _ => apply sat_seq; [|intro]
  | |- sat _ _ _ (if _ then _ else _) _ => apply sat_if
  | |- sat _ _ _ (ret _) _ => apply sat_ret; first [exact I | auto; fail]
  | |- sat _ _ _ (raise _) _ => apply sat_raise; apply HE; reflexivity
  | |- sat _ _ _ (print _) _ => apply sat_print; exact HE
  | |- sat _ _ _ time_time _ => apply sat_time_time; exact HE
  | |- sat _ _ _ (os_path_exists _) _ => apply sat_os_path_exists; exact HE
  | |- sat _ _ _ (fmt _) _ => apply sat_fmt
  | |- sat _ _ _ (ask _) _ => apply sat_ask; intros; exact I
  | |- sat _ _ _ (time_sleep _) _ => apply sat_time_sleep; exact HE
  | |- sat _ _ _ (open_rb _) _ => apply sat_open_rb; exact HE
  | |- sat _ _ _ (open_w _) _ => apply sat_open_w; exact HE
  | |- sat _ _ _ (close _) _ => apply sat_close; exact HE
  | |- sat _ _ _ (file_write _ _) _ => apply sat_file_write; exact HE
  | |- sat _ _ _ (with_open _ _) _ => apply sat_with_open; [|intro]
  | |- sat _ _ _ (raise_for_status _) _ => apply sat_raise_for_status; exact HE
  | |- sat _ _ _ (response_json _) _ => apply sat_response_json; exact HE
  | |- sat _ _ _ (getitem _ _) _ => apply sat_getitem; exact HE
  | |- sat _ _ _ (dict_get _ _ _) _ => apply sat_dict_get; exact HE
  | |- sat _ _ _ (len _) _ => apply sat_len; exact HE
  | |- sat _ _ _ (iter _) _ => apply sat_iter; exact HE
  | |- sat _ _ _ (obj_close _) _ => apply sat_obj_close; exact HE
  | |- sat _ _ _ (for_each _ _) _ => apply sat_for_each; intro
  | |- sat _ _ _ (session_request _ _) _ =>
      apply sat_session_request; [exact HE|try exact I]
  end.

Ltac sat_auto HE := repeat sat_step HE.

Section ClientRequests.

Variable P : Request -> Prop.
Variable E : exn -> Prop.
Variable D : Prop.
Hypothesis E_Exception : forall e, is_Exception e = true -> E e.

Lemma sat_poll fuel self url wait wt pi start :
  D -> P (poll_request self url) ->
  sat P E D (MinRueClient.poll fuel self url wait wt pi start) any.
Proof.
  intros HD HP. induction fuel as [|fuel IH].
  - apply sat_diverge. exact HD.
  - rewrite poll_S. sat_auto E_Exception; [exact HP|exact IH].
Qed.

Lemma sat_call self method url payload :
  P (mkRequest method url payload [] (RagflowClient.timeout self)) ->
  sat P E D (RagflowClient.call self method url payload) any.
Proof.
  intros HP. unfold RagflowClient.call. sat_auto E_Exception. exact HP.
Qed.

Lemma sat_open_all file_paths files :
  sat P E D (RagflowClient.open_all file_paths files) any.
Proof.
  revert files. induction file_paths as [|p rest IH]; intros files; cbn.
  - apply sat_ret. exact I.
  - apply sat_seq; [apply sat_open_rb; exact E_Exception|intro]. apply IH.
Qed.

End ClientRequests.

Lemma joined_once_intro b c rest :
  c <> "/"%char -> joined_once (rstrip_slash b) (rstrip_slash b +:+ "/" +:+ String c rest).
Proof.
  intros Hc. split; [apply rstrip_slash_no_trailing|]. exists c, rest. auto.
Qed.

Ltac joined := cbn [url]; apply joined_once_intro; discriminate.

Lemma minrue_urls b t r c :
  sat (fun q => joined_once (rstrip_slash b) (url q)) any True
      (minrue_call (MinRueClient.__init__ b t r) c) any.
Proof.
  assert (HE : forall e, is_Exception e = true -> @any exn e) by (intros; exact I).
  destruct c; cbn [minrue_call].
  1-3: unfold MinRueClient.get_health, MinRueClient.list_models, MinRueClient.list_tasks;
       sat_auto HE; joined.
  - unfold MinRueClient.process_file. sat_auto HE. joined.
  - unfold MinRueClient.get_result. sat_auto HE.
    apply sat_poll; [exact HE|exact I|joined].
Qed.

Lemma ragflow_urls k b t r c :
  sat (fun q => joined_once (rstrip_slash b) (url q)) any True
      (ragflow_call (RagflowClient.__init__ k b t r) c) any.
Proof.
  assert (HE : forall e, is_Exception e = true -> @any exn e) by (intros; exact I).
  destruct c; cbn [ragflow_call].
  1-6,8-14: apply sat_call; [exact HE|joined].
  unfold RagflowClient.upload_documents.
  apply sat_seq; [apply sat_open_all; exact HE|intro].
  sat_auto HE. joined.
Qed.

(** C10: a client built from a base URL and one built from the same URL
    followed by any number of ['/'] are the same client, for both classes,
    so every operation builds the same requests; the base URL a client
    stores is the given one without its trailing ['/'] (the given URL is
    the stored one followed by slashes only); and every request an
    operation sends goes to the stored base URL, which does not end with
    ['/'], followed by exactly one ['/'] and a path that does not start
    with ['/']. *)
Theorem base_url_trailing_slashes_ignored :
  (forall b n t r,
     MinRueClient.__init__ (b +:+ slashes n) t r = MinRueClient.__init__ b t r) /\
  (forall k b n t r,
     RagflowClient.__init__ k (b +:+ slashes n) t r = RagflowClient.__init__ k b t r) /\
  (forall b t r,
     exists n, b = MinRueClient.base_url (MinRueClient.__init__ b t r) +:+ slashes n) /\
  (forall k b t r,
     exists n, b = RagflowClient.base_url (RagflowClient.__init__ k b t r) +:+ slashes n) /\
  (forall b t r c,
     let self := MinRueClient.__init__ b t r in
     sends_only (fun q => joined_once (MinRueClient.base_url self) (url q))
                (minrue_call self c)) /\
  (forall k b t r c,
     let self := RagflowClient.__init__ k b t r in
     sends_only (fun q => joined_once (RagflowClient.base_url self) (url q))
                (ragflow_call self c)).
Proof.
  split; [|split; [|split; [|split; [|split]]]].
  - intros. unfold MinRueClient.__init__. rewrite rstrip_slash_app_slashes. reflexivity.
  - intros. unfold RagflowClient.__init__. rewrite rstrip_slash_app_slashes. reflexivity.
  - intros b t r. apply rstrip_slash_decompose.
  - intros k b t r. apply rstrip_slash_decompose.
  - intros b t r c self w s. apply (minrue_urls b t r c w s).
  - intros k b t r c self w s. apply (ragflow_urls k b t r c w s).
Qed.

(** ** Knowledge-graph endpoints *)

Lemma call_trace self method url w s :
  trace (snd (RagflowClient.call self method url NoPayload w s)) =
    trace s ++ [EvRequest (mkRequest method url NoPayload [] (RagflowClient.timeout self))].
Proof. unfold RagflowClient.call. rewrite round_trip by reflexivity. reflexivity. Qed.

Lemma last_char_app front suffix :
  suffix <> EmptyString -> last_char (front +:+ suffix) = last_char suffix.
Proof.
  intros Hs. induction front as [|c front IH]; [reflexivity|].
  change (String c front +:+ suffix) with (String c (front +:+ suffix)).
  cbn [last_char]. rewrite IH.
  destruct (front +:+ suffix) eqn:Happ; [|reflexivity].
  destruct front; [cbn in Happ; contradiction|discriminate].
Qed.

Lemma string_app_assoc (a b c : string) : (a +:+ b) +:+ c = a +:+ (b +:+ c).
Proof.
  induction a as [|x a IH]; [reflexivity|].
  change (String x ((a +:+ b) +:+ c) = String x (a +:+ (b +:+ c))).
  rewrite IH. reflexivity.
Qed.

Lemma run_graphrag_not_knowledge_graph base dataset_id path :
  ~ path_ends_in (base +:+ "/datasets/" +:+ dataset_id +:+ "/run_graphrag")
                 (path +:+ "/knowledge_graph").
Proof.
  intros [front H]. apply (f_equal last_char) in H.
  rewrite <- !string_app_assoc in H.
  rewrite !last_char_app in H by discriminate.
  discriminate.
Qed.

(** C5, as stated, fails for construction: for the dataset [d1] the one
    request [construct_knowledge_graph] sends is a POST whose URL does not
    end in [/datasets/d1/knowledge_graph]. *)
Lemma construct_knowledge_graph_posts_run_graphrag :
  exists r,
    trace (snd (RagflowClient.construct_knowledge_graph ragflow_default "d1"
                  (sample_world (ok JNull 0)) initial)) = [EvRequest r] /\
    method r = "POST" /\
    ~ path_ends_in (url r) "/datasets/d1/knowledge_graph".
Proof.
  eexists. split; [|split].
  - unfold RagflowClient.construct_knowledge_graph. rewrite call_trace. reflexivity.
  - reflexivity.
  - cbn [url].
    apply (run_graphrag_not_knowledge_graph
             (RagflowClient.base_url ragflow_default) "d1" "/datasets/d1").
Qed.

(** C5, amended: for every dataset id, [get_knowledge_graph] sends one GET
    and [delete_knowledge_graph] one DELETE to
    [/datasets/{id}/knowledge_graph], and [construct_knowledge_graph] sends
    one POST to [/datasets/{id}/run_graphrag], a URL that never ends in
    [/datasets/{id}/knowledge_graph]. *)
Theorem knowledge_graph_endpoints self dataset_id w s :
  let sent_by (m : M json) := trace (snd (m w s)) in
  let request method path :=
    EvRequest (mkRequest method (RagflowClient.base_url self +:+ "/datasets/" +:+ dataset_id +:+ path)
                 NoPayload [] (RagflowClient.timeout self)) in
  sent_by (RagflowClient.construct_knowledge_graph self dataset_id)
    = trace s ++ [request "POST" "/run_graphrag"] /\
  sent_by (RagflowClient.get_knowledge_graph self dataset_id)
    = trace s ++ [request "GET" "/knowledge_graph"] /\
  sent_by (RagflowClient.delete_knowledge_graph self dataset_id)
    = trace s ++ [request "DELETE" "/knowledge_graph"] /\
  path_ends_in (RagflowClient.base_url self +:+ "/datasets/" +:+ dataset_id +:+ "/run_graphrag")
               ("/datasets/" +:+ dataset_id +:+ "/run_graphrag") /\
  path_ends_in (RagflowClient.base_url self +:+ "/datasets/" +:+ dataset_id +:+ "/knowledge_graph")
               ("/datasets/" +:+ dataset_id +:+ "/knowledge_graph") /\
  ~ path_ends_in (RagflowClient.base_url self +:+ "/datasets/" +:+ dataset_id +:+ "/run_graphrag")
                 ("/datasets/" +:+ dataset_id +:+ "/knowledge_graph").
Proof.
  cbv zeta. repeat split.
  - apply call_trace.
  - apply call_trace.
  - apply call_trace.
  - exists (RagflowClient.base_url self). reflexivity.
  - exists (RagflowClient.base_url self). reflexivity.
  - change ("/datasets/" +:+ dataset_id +:+ "/knowledge_graph")
      with (("/datasets/" +:+ dataset_id) +:+ "/knowledge_graph") at 1.
    apply run_graphrag_not_knowledge_graph.
Qed.

(** ** Retry policy of the sessions *)

Lemma send_with_retries_stops r method server :
  forall remaining first stop,
    (stop <= remaining)%nat ->
    (forall i, (i < stop)%nat -> is_retry r method (server (first + i)%nat) = true) ->
    stop = remaining \/ is_retry r method (server (first + stop)%nat) = false ->
    send_with_retries r method server remaining first
      = (server (first + stop)%nat, map (backoff r) (seq (S first) stop)).
Proof.
  induction remaining as [|remaining IH]; intros first stop Hle Helig Hstop.
  - assert (stop = 0%nat) as -> by lia. cbn. rewrite Nat.add_0_r. reflexivity.
  - cbn [send_with_retries]. destruct stop as [|stop].
    + destruct Hstop as [Hstop|Hstop]; [discriminate|].
      rewrite Nat.add_0_r in *. rewrite Hstop. reflexivity.
    + pose proof (Helig 0%nat ltac:(lia)) as H0. rewrite Nat.add_0_r in H0. rewrite H0.
      rewrite (IH (S first) stop).
      * replace (S first + stop)%nat with (first + S stop)%nat by lia. reflexivity.
      * lia.
      * intros i Hi. replace (S first + i)%nat with (first + S i)%nat by lia.
        apply Helig. lia.
      * destruct Hstop as [Hstop|Hstop]; [left; lia|right].
        replace (S first + stop)%nat with (first + S stop)%nat by lia. exact Hstop.
Qed.

Lemma is_retry_spec r method status :
  is_retry r method status = true <->
  method ∈ allowed_methods r /\ status ∈ status_forcelist r.
Proof.
  unfold is_retry. rewrite andb_true_iff, !bool_decide_eq_true. reflexivity.
Qed.

(** C3, as stated, fails on the method set: PATCH is a standard method,
    and a PATCH answered 503 is sent once and not retried. *)
Lemma patch_is_not_retried :
  "PATCH" ∈ standard_methods /\
  is_retry (retry_strategy 3) "PATCH" 503 = false /\
  adapter_send (retry_strategy 3) "PATCH" (fun _ => 503) = (503, []) /\
  transmissions (adapter_send (retry_strategy 3) "PATCH" (fun _ => 503)) = 1%nat /\
  ~ (forall method, method ∈ standard_methods ->
       is_retry (retry_strategy 3) method 503 = true).
Proof.
  assert (Hin : "PATCH" ∈ standard_methods) by (apply (bool_decide_unpack _); vm_compute; exact I).
  repeat split; [exact Hin|].
  intros H. specialize (H "PATCH" Hin). discriminate H.
Qed.

(** C3, amended: both clients mount, for http and https, an adapter whose
    retry strategy makes a response retry-eligible exactly when its
    status is one of 429, 500, 502, 503, 504 and its method one of HEAD,
    GET, POST, PUT, DELETE, OPTIONS, TRACE.  Under the retry loop of the
    specification, a request whose responses stay eligible is retried up
    to the configured number of times, sleeping [1 * 2^(attempt-1)] before
    retry number [attempt], and the last response is what the caller
    gets; the first response that is not eligible, whatever its status,
    goes to the caller at once, with no further retry. *)
Theorem session_retry_policy retries :
  let cfg := retry_strategy retries in
  adapters (MinRueClient._create_session retries) = [("http://", cfg); ("https://", cfg)] /\
  (forall api_key,
     adapters (RagflowClient._create_session api_key retries)
       = [("http://", cfg); ("https://", cfg)]) /\
  (forall method status,
     is_retry cfg method status = true <->
     method ∈ ["HEAD"; "GET"; "POST"; "PUT"; "DELETE"; "OPTIONS"; "TRACE"] /\
     status ∈ [429; 500; 502; 503; 504]) /\
  (forall method server stop,
     (stop <= Z.to_nat retries)%nat ->
     (forall i, (i < stop)%nat -> is_retry cfg method (server i) = true) ->
     stop = Z.to_nat retries \/ is_retry cfg method (server stop) = false ->
     adapter_send cfg method server
       = (server stop, map (fun attempt => 1 * 2 ^ (Z.of_nat attempt - 1)) (seq 1 stop))).
Proof.
  cbv zeta. split; [reflexivity|]. split; [reflexivity|].
  split; [intros method status; apply is_retry_spec|].
  intros method server stop Hle Helig Hstop.
  unfold adapter_send.
  rewrite (send_with_retries_stops _ _ _ _ 0%nat stop) by assumption.
  reflexivity.
Qed.

Lemma session_retry_policy_witness :
  adapter_send (retry_strategy 3) "GET" (fun _ => 503) = (503, [1; 2; 4]).
Proof.
  apply (proj2 (proj2 (proj2 (session_retry_policy 3))) "GET" (fun _ => 503) 3%nat).
  - vm_compute. lia.
  - intros i _. reflexivity.
  - left. reflexivity.
Defined.

(** ** File uploads *)







(** The handle [process_file] opens is closed again before the request is
    prepared, for every regular file. *)
Lemma process_file_reads_closed_file self file_path model task parameters w s :
  stat w file_path = Regular ->
  MinRueClient.process_file self file_path model task parameters w s
    = (Raise (ValueError "read of closed file"),
       mkState (clock s) (sent s) (S (next_fd s))
               (({[next_fd s]} ∪ open_fds s) ∖ {[next_fd s]})
               ((trace s ++ [EvOpen file_path (next_fd s)]) ++ [EvClose (next_fd s)])).
Proof.
  intros Hp. unfold MinRueClient.process_file.
  unfold bind at 1, os_path_exists. rewrite Hp. cbn [negb].
  unfold bind at 1, with_open, bind at 1, open_rb. rewrite Hp.
  unfold ret at 1. cbn [snd close log clock sent next_fd open_fds trace].
  unfold bind at 1, ask. unfold bind at 1, session_request.
  cbn [payload payload_fds map snd forallb open_fds].
  assert (Hclosed : next_fd s ∉ ({[next_fd s]} ∪ open_fds s) ∖ {[next_fd s]}).
  { rewrite elem_of_difference, elem_of_singleton. tauto. }
  rewrite (bool_decide_eq_false_2 _ Hclosed).
  reflexivity.
Qed.

(** C4: the code at the failing inputs.  [process_file] closes the handle
    before the request is prepared, so the upload reads a closed file and
    nothing is sent.  [upload_documents] leaves the handle open on every
    path: when the request is served the closing loop calls [close] on
    the [(name, file)] pair and raises; when the request is refused (a
    404, which raises [HTTPError]) or given up (a 500 that outlasts the
    retries, which raises [RetryError]) the loop is not reached. *)
Theorem upload_handles_are_mismanaged :
  let served := sample_world (ok (JObject {[ "data" := JArray [] ]}) 0) in
  let refused := sample_world (failing 404) in
  let given_up := sample_world (failing 500) in
  (* process_file: no request is sent, the read hits a closed file *)
  (let r := MinRueClient.process_file minrue_default "a.txt" "m" "t" None served initial in
   fst r = Raise (ValueError "read of closed file") /\
   trace (snd r) = [EvOpen "a.txt" 0; EvClose 0] /\ sent (snd r) = 0%nat) /\
  (* upload_documents, request served: the closing loop fails, the handle stays open *)
  (let r := RagflowClient.upload_documents ragflow_default "d1" ["a.txt"] served initial in
   fst r = Raise (AttributeError "'tuple' object has no attribute 'close'") /\
   open_fds (snd r) = {[0%nat]} /\ sent (snd r) = 1%nat) /\
  (* upload_documents, request refused: the closing loop is never reached *)
  (let r := RagflowClient.upload_documents ragflow_default "d1" ["a.txt"] refused initial in
   (exists msg resp, fst r = Raise (HTTPError msg resp)) /\
   open_fds (snd r) = {[0%nat]} /\ sent (snd r) = 1%nat) /\
  (* upload_documents, request given up after the retries: the same *)
  (let r := RagflowClient.upload_documents ragflow_default "d1" ["a.txt"] given_up initial in
   (exists msg, fst r = Raise (RetryError msg)) /\
   open_fds (snd r) = {[0%nat]} /\ sent (snd r) = 1%nat).
Proof.
  cbv zeta. split; [|split; [|split]].
  - rewrite process_file_reads_closed_file by reflexivity. repeat split.
  - vm_compute. repeat split.
  - vm_compute. repeat split. eexists _, _. reflexivity.
  - vm_compute. repeat split. eexists. reflexivity.
Qed.

(** ** Dataset creation from the command line *)

Lemma call_ok self method url payload w s resp j :
  payload_fds payload = [] ->
  let req := mkRequest method url payload [] (RagflowClient.timeout self) in
  answer (respond w (sent s) req) = inr resp ->
  is_2xx resp ->
  parsed resp = Some j ->
  RagflowClient.call self method url payload w s = (Ret j, after_request w req s).
Proof.
  intros Hfds req Ha H2 Hp. unfold RagflowClient.call. fold req.
  mstep ltac:(apply session_request_2xx; [exact Hfds|exact Ha|exact H2]).
  mstep ltac:(apply raise_for_status_2xx; assumption).
  apply response_json_some. exact Hp.
Qed.

(** C8: a dataset-creation command with name [kb1], answered by a 2xx
    response whose body is [{"data": {"id": "d1", "name": "kb1"}}], returns
    0 and prints exactly one line, [Created dataset: kb1 (ID: d1)], which
    contains both [kb1] and [d1]. *)
Theorem dataset_create_prints_name_and_id w s api_key base_url embedding_model resp :
  (forall req, answer (respond w (sent s) req) = inr resp) ->
  is_2xx resp ->
  parsed resp = Some kb1_created ->
  let args := mkRagflowArgs api_key base_url (DatasetCreate "kb1" embedding_model) in
  let line := "Created dataset: kb1 (ID: d1)" in
  exists s',
    RagflowCLI.run args w s = (Ret 0, s') /\
    printed (trace s') = printed (trace s) ++ [line] /\
    contains line "kb1" = true /\ contains line "d1" = true.
Proof.
  intros Hreply H2 Hbody args line.
  eexists. split; [|split; [|split; reflexivity]].
  - unfold RagflowCLI.run. cbn [command args].
    erewrite bind_eq; cycle 1.
    { unfold RagflowClient.create_dataset. cbn [truthy_json json_opt default].
      mstep ltac:(eapply call_ok; [reflexivity|apply Hreply|assumption|eassumption]).
      mstep ltac:(apply getitem_some; reflexivity).
      mstep ltac:(apply getitem_some; reflexivity).
      mstep ltac:(exact eq_refl).
      mstep ltac:(apply getitem_some; reflexivity).
      mstep ltac:(apply getitem_some; reflexivity).
      mstep ltac:(exact eq_refl).
      reflexivity. }
    reflexivity.
  - cbn [trace log after_request]. unfold printed. rewrite !omap_app. simpl.
    rewrite app_nil_r. reflexivity.
Qed.

Lemma dataset_create_prints_name_and_id_witness :
  let w := constant_world (mkReply (inr kb1_response) 0) in
  let args := mkRagflowArgs "key" "http://localhost:8000/v1" (DatasetCreate "kb1" "bge") in
  let line := "Created dataset: kb1 (ID: d1)" in
  exists s',
    RagflowCLI.run args w initial = (Ret 0, s') /\
    printed (trace s') = printed (trace initial) ++ [line] /\
    contains line "kb1" = true /\ contains line "d1" = true.
Proof.
  cbv zeta.
  apply (dataset_create_prints_name_and_id (constant_world (mkReply (inr kb1_response) 0))
           initial "key" "http://localhost:8000/v1" "bge" kb1_response).
  - intros req. reflexivity.
  - unfold is_2xx. cbn. lia.
  - reflexivity.
Defined.

(** ** Exit codes of the command lines *)

Lemma caught_Exception e : is_Exception e = true -> caught e.
Proof. exact (fun H => H). Qed.


Ltac sat_cli :=
  sat_auto caught_Exception;
  repeat lazymatch goal with
    | |- sat _ _ _ (match ?v with JString _ => _ | _ => _ end) _ =>
        destruct v; sat_auto caught_Exception
    end.


Lemma ragflow_run_codes args :
  sat any caught False (RagflowCLI.run args) (fun code => code = 0).
Proof.
  unfold RagflowCLI.run. apply sat_seq; [|intro; apply sat_ret; reflexivity].
  destruct (command args).
  - unfold RagflowClient.create_chat_completion, RagflowClient.call. sat_cli.
  - unfold RagflowClient.create_dataset, RagflowClient.call. sat_cli.
  - unfold RagflowClient.list_datasets, RagflowClient.call. sat_cli.
  - unfold RagflowClient.delete_datasets, RagflowClient.call. sat_cli.
  - unfold RagflowClient.upload_documents.
    apply sat_seq; [|intro; sat_cli].
    apply sat_seq; [apply sat_open_all; exact caught_Exception|intro]. sat_cli.
Qed.

Lemma minrue_main_eq fuel args :
  minrue_main fuel args =
    (let! exit_code := try_except (minrue_try fuel args) MinRueCLI.on_error in
     raise (SystemExit exit_code)).
Proof. destruct args; reflexivity. Qed.

Lemma handle_ragflow_error_pure resp w s :
  exists msg, handle_ragflow_error resp w s = (Ret msg, s).
Proof.
  unfold handle_ragflow_error, try_catch, bind at 1, response_json.
  destruct (parsed resp) as [error_data|]; [|eexists; reflexivity].
  destruct error_data; eexists; reflexivity.
Qed.

Lemma ragflow_main_eq args w s :
  ragflow_main args w s =
    match RagflowCLI.run args w s with
    | (Ret code, s1) => (Raise (SystemExit code), s1)
    | (Raise e, s1) =>
        match e with
        | HTTPError _ response =>
            (let! error_msg := handle_ragflow_error response in
             print ("Error: " +:+ error_msg) ;; raise (SystemExit 1)) w s1
        | _ =>
            if is_Exception e
            then (print ("Unexpected error: " +:+ exn_str e) ;; raise (SystemExit 1)) w s1
            else (Raise e, s1)
        end
    | (Diverge, s1) => (Diverge, s1)
    end.
Proof.
  unfold ragflow_main, try_catch. unfold bind at 1.
  destruct (RagflowCLI.run args w s) as [[code|e|] s1]; [reflexivity| |reflexivity].
  destruct e; reflexivity.
Qed.

(** * Further properties *)

(** ** The polling loop: errors, bounds and shape *)

(** X1: at any iteration of the polling loop a failed fetch ends the call
    at once, with the error of the fetch and the state right after that
    one session request (no sleep, no further fetch).  A failure of the
    transport raises its error; a last answer with one of the statuses
    429, 500, 502, 503 and 504, which the adapter retries, raises
    [RetryError]; any other answer with a 4xx or 5xx status that the
    adapter does not retry raises [HTTPError] with the text of
    [raise_for_status]; a body that is not JSON raises the decoding error;
    a JSON body that is not an object raises [TypeError]. *)
Theorem poll_fetch_errors_propagate fuel self url wait wt pi start w s :
  let req := poll_request self url in
  let run := MinRueClient.poll (S fuel) self url wait wt pi start w s in
  let s1 := after_request w req s in
  let retries := session_retries (MinRueClient.session self) in
  (forall msg,
     answer (respond w (sent s) req) = inl msg ->
     run = (Raise (RequestException msg), s1)) /\
  (forall resp,
     answer (respond w (sent s) req) = inr resp ->
     status_code resp ∈ [429; 500; 502; 503; 504] ->
     run = (Raise (RetryError (max_retries_text w req resp)), s1)) /\
  (forall resp,
     answer (respond w (sent s) req) = inr resp ->
     400 <= status_code resp < 600 ->
     retried retries "GET" resp = false ->
     run = (Raise (HTTPError (pretty (status_code resp)
                                +:+ (if status_code resp <? 500
                                     then " Client Error: " else " Server Error: ")
                                +:+ reason resp +:+ " for url: " +:+ resp_url resp)
                             resp), s1)) /\
  (forall resp,
     answer (respond w (sent s) req) = inr resp ->
     is_2xx resp -> parsed resp = None ->
     run = (Raise (JSONDecodeError (decode_error w (text resp))), s1)) /\
  (forall resp body,
     answer (respond w (sent s) req) = inr resp ->
     is_2xx resp -> parsed resp = Some body ->
     (forall kvs, body <> JObject kvs) ->
     exists msg, run = (Raise (TypeError msg), s1)).
Proof.
  cbv zeta. rewrite poll_settle. split; [|split; [|split; [|split]]].
  - intros msg Ha. rewrite (settle_transport _ _ _ _ _ Ha). reflexivity.
  - intros resp Ha Hst. rewrite (settle_given_up _ _ _ _ _ Ha); [reflexivity|].
    apply retried_forcelist; [|exact Hst].
    apply (bool_decide_unpack _). vm_compute. exact I.
  - intros resp Ha Hst Hr. rewrite (settle_refused _ _ _ _ _ Ha Hr Hst). reflexivity.
  - intros resp Ha H2 Hp. rewrite (settle_served _ _ _ _ _ Ha), Hp; [reflexivity|].
    unfold is_2xx in H2. lia.
  - intros resp body Ha H2 Hp Hbody.
    rewrite (settle_served _ _ _ _ _ Ha), Hp; [|unfold is_2xx in H2; lia].
    unfold after_fetch, bind at 1.
    destruct body as [| | | | | |kvs]; try (eexists; reflexivity).
    destruct (Hbody kvs eq_refl).
Qed.

Lemma poll_fetch_errors_propagate_witness :
  let w := sample_world (failing 404) in
  let req := poll_request minrue_default "http://localhost:8000/v1/results/job-1" in
  let resp := mkResponse 404 "Not Found" "http://localhost:8000/v1/results/job-1"
                false "" None in
  MinRueClient.poll 1 minrue_default "http://localhost:8000/v1/results/job-1"
      true 60 5 0 w initial
    = (Raise (HTTPError
                "404 Client Error: Not Found for url: http://localhost:8000/v1/results/job-1"
                resp),
       after_request w req initial).
Proof.
  cbv zeta.
  apply (proj1 (proj2 (proj2 (poll_fetch_errors_propagate 0 minrue_default
                                "http://localhost:8000/v1/results/job-1" true 60 5 0
                                (sample_world (failing 404)) initial)))
           (mkResponse 404 "Not Found" "http://localhost:8000/v1/results/job-1"
              false "" None)).
  - reflexivity.
  - cbn. lia.
  - reflexivity.
Defined.

(** The events and counters of a run of the loop. *)
Lemma poll_shape self url wait wt pi start w :
  forall fuel s,
    let req := poll_request self url in
    let r := MinRueClient.poll fuel self url wait wt pi start w s in
    exists k,
      trace (snd r) = trace s ++ rounds k req pi
                        ++ match fst r with Diverge => [] | _ => [EvRequest req] end /\
      sent (snd r) = (sent s + k + match fst r with Diverge => 0 | _ => 1 end)%nat /\
      open_fds (snd r) = open_fds s /\ next_fd (snd r) = next_fd s /\
      (k = 0%nat \/ (Z.of_nat k - 1) * pi <= wt - (clock s - start)).
Proof.
  induction fuel as [|fuel IH]; intros s req r.
  - exists 0%nat. subst r. cbn. rewrite app_nil_r. repeat split; auto; lia.
  - destruct (poll_cases fuel self url wait wt pi start w s)
      as [(o & Heq & Ho)|(_ & Hpi & Hwt & _ & Heq)]; subst r req; rewrite Heq.
    + exists 0%nat. cbn [fst snd rounds app].
      destruct o; [| |contradiction];
        cbn [trace sent open_fds next_fd after_request log];
        (repeat split; auto; lia).
    + destruct (IH (after_sleep pi (after_request w (poll_request self url) s)))
        as (k & Ht & Hs & Ho & Hn & Hk).
      exists (S k). rewrite Ht, Hs, Ho, Hn.
      cbn [trace sent open_fds next_fd clock after_sleep after_request log] in *.
      split; [rewrite <- !app_assoc; reflexivity|].
      split; [lia|]. split; [reflexivity|]. split; [reflexivity|]. right.
      pose proof (N2Z.is_nonneg (latency (respond w (sent s) (poll_request self url)))).
      destruct Hk as [->|Hk]; [lia|nia].
Qed.

(** X2: whatever its arguments and however it ends, a call of
    [get_result] does nothing but fetch the same URL and sleep exactly
    the polling interval between two fetches (a fixed cadence): its
    events are [k] rounds of fetch and sleep and, unless the model ran out
    of fuel, one last fetch; it opens and closes no file and prints
    nothing. *)
Theorem get_result_fetches_and_sleeps fuel self job_id wait wt pi w s :
  let req := poll_request self
               (MinRueClient.base_url self +:+ "/results/" +:+ py_str w job_id) in
  let r := MinRueClient.get_result fuel self job_id wait wt pi w s in
  exists k,
    trace (snd r) = trace s ++ rounds k req pi
                      ++ match fst r with Diverge => [] | _ => [EvRequest req] end /\
    open_fds (snd r) = open_fds s /\ next_fd (snd r) = next_fd s.
Proof.
  cbv zeta. rewrite get_result_is_poll.
  destruct (poll_shape self
              (MinRueClient.base_url self +:+ "/results/" +:+ py_str w job_id)
              wait wt pi (clock s) w fuel s) as (k & Ht & _ & Ho & Hn & _).
  exists k. auto.
Qed.

(** X3: for a positive polling interval, a call of [get_result] sends at
    most [max_wait / interval + 2] requests (two when the maximum wait is
    negative), whatever the remote service answers and however long the
    model is allowed to run. *)
Theorem get_result_request_bound fuel self job_id wait wt pi w s :
  0 < pi ->
  let r := MinRueClient.get_result fuel self job_id wait wt pi w s in
  (sent s <= sent (snd r))%nat /\
  Z.of_nat (sent (snd r) - sent s) <= Z.max 0 (wt / pi) + 2.
Proof.
  intros Hpi. cbv zeta. rewrite get_result_is_poll.
  destruct (poll_shape self
              (MinRueClient.base_url self +:+ "/results/" +:+ py_str w job_id)
              wait wt pi (clock s) w fuel s) as (k & _ & Hs & _ & _ & Hk).
  cbv zeta in Hs. rewrite Hs. split; [lia|].
  assert (Z.of_nat k <= Z.max 0 (wt / pi) + 1).
  { destruct Hk as [->|Hk]; [lia|].
    assert (Z.of_nat k - 1 <= wt / pi); [|lia].
    apply Z.div_le_lower_bound; [exact Hpi|]. lia. }
  destruct (fst _); lia.
Qed.

Lemma get_result_request_bound_witness :
  let r := MinRueClient.get_result 100 minrue_default (JString "job-1") true 60 5
             (sample_world (ok pending 4)) initial in
  (sent initial <= sent (snd r))%nat /\
  Z.of_nat (sent (snd r) - sent initial) <= Z.max 0 (60 / 5) + 2.
Proof.
  cbv zeta.
  apply (get_result_request_bound 100 minrue_default (JString "job-1") true 60 5
           (sample_world (ok pending 4)) initial).
  lia.
Defined.

Lemma terminal_false_status kvs status :
  kvs !! "status" = Some status ->
  terminal (JObject kvs) = false ->
  eq_str status "completed" = false /\ eq_str status "failed" = false.
Proof.
  intros Hs. unfold terminal. rewrite Hs. intros H.
  apply orb_false_iff in H. exact H.
Qed.

(** X4: with the wait flag set and a first record that is not terminal,
    degenerate arguments end the call after that single fetch, without
    any sleep.  A negative maximum wait raises the timeout error.  When
    the wait is not yet over, an interval [time.sleep] does not accept
    raises its error: [ValueError] for a negative interval down to
    [-9223372036], [OverflowError] for an interval beyond [9223372036] in
    either direction, and whatever the platform raises for another
    interval it refuses. *)
Theorem get_result_degenerate_arguments fuel self job_id wt pi w s :
  let req := poll_request self
               (MinRueClient.base_url self +:+ "/results/" +:+ py_str w job_id) in
  let r := MinRueClient.get_result (S fuel) self job_id true wt pi w s in
  let took := Z.of_N (latency (respond w (sent s) req)) in
  pending_reply (respond w (sent s) req) (latency (respond w (sent s) req)) ->
  (wt < 0 -> r = (Raise timed_out, after_request w req s)) /\
  (took <= wt -> -9223372036 <= pi < 0 ->
   r = (Raise (ValueError "sleep length must be non-negative"), after_request w req s)) /\
  (took <= wt -> pi < -9223372036 \/ 9223372036 < pi ->
   r = (Raise (OverflowError "timestamp too large to convert to C _PyTime_t"),
        after_request w req s)) /\
  (took <= wt -> forall e, sleep_error w pi = Some e -> r = (Raise e, after_request w req s)).
Proof.
  cbv zeta. intros (_ & resp & kvs & status & Ha & H2 & Hp & Hs & Hnt).
  destruct (terminal_false_status _ _ Hs Hnt) as [Hc Hf].
  rewrite get_result_is_poll.
  rewrite (poll_step _ _ _ _ _ _ _ _ _ resp kvs status) by assumption.
  cbv zeta. rewrite Hc, Hf. cbn [orb negb clock after_request log].
  pose proof (N2Z.is_nonneg
                (latency (respond w (sent s)
                   (poll_request self
                      (MinRueClient.base_url self +:+ "/results/" +:+ py_str w job_id))))).
  split; [|split; [|split]].
  - intros Hwt.
    replace (_ >? wt) with true by (symmetry; rewrite Z.gtb_ltb; apply Z.ltb_lt; lia).
    reflexivity.
  - intros Hwt Hpi. rewrite (sleep_error_negative w pi Hpi).
    replace (_ >? wt) with false by (symmetry; rewrite Z.gtb_ltb; apply Z.ltb_ge; lia).
    reflexivity.
  - intros Hwt Hpi. rewrite (sleep_error_overflow w pi Hpi).
    replace (_ >? wt) with false by (symmetry; rewrite Z.gtb_ltb; apply Z.ltb_ge; lia).
    reflexivity.
  - intros Hwt e Hsl. rewrite Hsl.
    replace (_ >? wt) with false by (symmetry; rewrite Z.gtb_ltb; apply Z.ltb_ge; lia).
    reflexivity.
Qed.

Lemma pending_reply_sample q ticks :
  pending_reply (answering q (ok pending ticks)) ticks.
Proof.
  split; [reflexivity|].
  eexists _, {[ "status" := JString "pending" ]}, (JString "pending").
  split; [reflexivity|]. split; [unfold is_2xx; cbn; lia|].
  split; [reflexivity|]. split; reflexivity.
Qed.

Lemma get_result_degenerate_arguments_witness :
  let w := sample_world (ok pending 4) in
  let req := poll_request minrue_default "http://localhost:8000/v1/results/job-1" in
  MinRueClient.get_result 1 minrue_default (JString "job-1") true 60 10000000000 w initial
    = (Raise (OverflowError "timestamp too large to convert to C _PyTime_t"),
       after_request w req initial).
Proof.
  cbv zeta.
  apply (proj1 (proj2 (proj2
           (get_result_degenerate_arguments 0 minrue_default (JString "job-1") 60 10000000000
              (sample_world (ok pending 4)) initial (pending_reply_sample _ 4))))).
  - vm_compute. discriminate.
  - right. lia.
Defined.

(** The loop, when the record turns terminal at fetch number [k]. *)
Lemma poll_until_terminal self url wt pi start w record d :
  sleep_error w pi = None ->
  forall k fuel s,
    (k < fuel)%nat ->
    let req := poll_request self url in
    (forall i, (i < k)%nat -> pending_reply (respond w (sent s + i) req) d) ->
    terminal_reply (respond w (sent s + k) req) record ->
    (k = 0%nat \/
     (clock s - start) + Z.of_nat k * Z.of_N d + (Z.of_nat k - 1) * pi <= wt) ->
    let r := MinRueClient.poll fuel self url true wt pi start w s in
    fst r = Ret record /\
    trace (snd r) = trace s ++ rounds k req pi ++ [EvRequest req] /\
    sent (snd r) = (sent s + k + 1)%nat /\
    clock (snd r) = clock s + Z.of_nat k * (Z.of_N d + pi)
                    + Z.of_N (latency (respond w (sent s + k) req)).
Proof.
  intros Hsl. pose proof (sleep_error_none _ _ Hsl) as Hpi.
  induction k as [|k IH]; intros fuel s Hfuel req Hpend Hterm Htime r.
  - destruct fuel as [|fuel]; [lia|]. subst r req.
    destruct Hterm as (resp & Ha & H2 & Hp & Ht).
    rewrite Nat.add_0_r in *.
    destruct record as [| | | | | |kvs]; try discriminate Ht.
    unfold terminal in Ht. destruct (kvs !! "status") as [status|] eqn:Hs; [|discriminate].
    rewrite (poll_step _ _ _ _ _ _ _ _ _ resp kvs status) by assumption.
    cbv zeta. rewrite Ht. cbn [orb fst snd trace sent clock after_request log rounds app].
    repeat split; lia.
  - destruct fuel as [|fuel]; [lia|]. subst r req.
    destruct (Hpend 0%nat ltac:(lia)) as (Hd & resp & kvs & status & Ha & H2 & Hp & Hs & Hnt).
    rewrite Nat.add_0_r in Ha, Hd.
    destruct (terminal_false_status _ _ Hs Hnt) as [Hc Hf].
    rewrite (poll_step _ _ _ _ _ _ _ _ _ resp kvs status) by assumption.
    cbv zeta. rewrite Hc, Hf. cbn [orb negb clock after_request log].
    rewrite Hd.
    destruct Htime as [Hk|Htime]; [discriminate|].
    replace (_ >? wt) with false
      by (symmetry; rewrite Z.gtb_ltb; apply Z.ltb_ge; nia).
    rewrite Hsl.
    match goal with
    | |- context [MinRueClient.poll fuel self url true wt pi start w ?s2] =>
        specialize (IH fuel s2)
    end.
    destruct IH as (Hr & Ht & Hs' & Hclock).
    + lia.
    + intros i Hi. cbn [sent log after_request after_sleep].
      replace (S (sent s) + i)%nat with (sent s + S i)%nat by lia.
      apply Hpend. lia.
    + cbn [sent log after_request after_sleep].
      replace (S (sent s) + k)%nat with (sent s + S k)%nat by lia. exact Hterm.
    + cbn [clock log after_request after_sleep].
      destruct k as [|k]; [left; reflexivity|right]. nia.
    + split; [exact Hr|]. rewrite Ht, Hs', Hclock.
      cbn [sent clock trace log after_request after_sleep].
      replace (S (sent s) + k)%nat with (sent s + S k)%nat by lia.
      split; [cbn [rounds]; rewrite <- !app_assoc; reflexivity|].
      split; lia.
Qed.

(** X5: when the polling interval is one [time.sleep] accepts (any
    interval from 0 to [sleep_floor] is), the first [k] fetches each take
    [d] ticks and find the job not finished, fetch number [k+1] finds a
    terminal record, and the [k]-th check still fell within the maximum
    wait, [get_result] with the wait flag returns that record after
    exactly [k+1] fetches and [k] sleeps of the polling interval,
    [k * (d + interval)] ticks plus the duration of the last fetch after
    the call. *)
Theorem get_result_returns_when_terminal fuel self job_id wt pi w s record d k :
  let req := poll_request self
               (MinRueClient.base_url self +:+ "/results/" +:+ py_str w job_id) in
  let r := MinRueClient.get_result fuel self job_id true wt pi w s in
  sleep_error w pi = None ->
  (k < fuel)%nat ->
  (forall i, (i < k)%nat -> pending_reply (respond w (sent s + i) req) d) ->
  terminal_reply (respond w (sent s + k) req) record ->
  (k = 0%nat \/ Z.of_nat k * Z.of_N d + (Z.of_nat k - 1) * pi <= wt) ->
  fst r = Ret record /\
  trace (snd r) = trace s ++ rounds k req pi ++ [EvRequest req] /\
  sent (snd r) = (sent s + k + 1)%nat /\
  clock (snd r) = clock s + Z.of_nat k * (Z.of_N d + pi)
                  + Z.of_N (latency (respond w (sent s + k) req)).
Proof.
  cbv zeta. intros Hpi Hfuel Hpend Hterm Htime. rewrite get_result_is_poll.
  apply (poll_until_terminal self _ wt pi (clock s) w record d Hpi k fuel s);
    try assumption.
  destruct Htime as [->|Htime]; [left; reflexivity|right; lia].
Qed.

Lemma get_result_returns_when_terminal_witness :
  let w :=
    scripted_world (fun n => if (n <? 2)%nat then ok pending 4 else ok (completed "done") 1) in
  let r := MinRueClient.get_result 3 minrue_default (JString "job-1") true 60 5 w initial in
  fst r = Ret (completed "done") /\ sent (snd r) = 3%nat /\ clock (snd r) = 19.
Proof.
  cbv zeta.
  pose proof (get_result_returns_when_terminal 3 minrue_default (JString "job-1") 60 5
                (scripted_world
                   (fun n => if (n <? 2)%nat then ok pending 4 else ok (completed "done") 1))
                initial (completed "done") 4 2) as H.
  cbv zeta in H.
  destruct H as (Hr & _ & Hs & Hc).
  - reflexivity.
  - lia.
  - intros i Hi. cbn [respond scripted_world world_of sent initial Nat.add].
    replace (i <? 2)%nat with true by (symmetry; apply Nat.ltb_lt; lia).
    apply pending_reply_sample.
  - eexists.
    split; [reflexivity|]. split; [unfold is_2xx; cbn; lia|]. split; reflexivity.
  - right. lia.
  - split; [exact Hr|]. split; [exact Hs|]. rewrite Hc. reflexivity.
Defined.

(** ** Base URL, timeouts and targets *)

Lemma slashes_app_one n : slashes n +:+ "/" = slashes (S n).
Proof.
  induction n as [|n IH]; [reflexivity|].
  change (String "/" (slashes n +:+ "/") = String "/" (slashes (S n))).
  rewrite IH. reflexivity.
Qed.

(** X6: the base URL a client stores is the given one without its run of
    trailing ['/']: the stored URL does not end with ['/'], the given URL
    is the stored one followed by slashes only (the two together fix the
    stored URL), a URL that does not end with ['/'] is stored as it is,
    and building a client from the stored URL gives the same client again
    (normalising is idempotent); for both clients. *)
Theorem base_url_is_given_minus_slashes b t r api_key :
  let stored := MinRueClient.base_url (MinRueClient.__init__ b t r) in
  stored = RagflowClient.base_url (RagflowClient.__init__ api_key b t r) /\
  ends_with_slash stored = false /\
  (exists n, b = stored +:+ slashes n) /\
  (forall kept n, b = kept +:+ slashes n -> ends_with_slash kept = false -> stored = kept) /\
  (ends_with_slash b = false -> stored = b) /\
  MinRueClient.__init__ stored t r = MinRueClient.__init__ b t r /\
  RagflowClient.__init__ api_key stored t r = RagflowClient.__init__ api_key b t r.
Proof.
  cbv zeta. cbn [MinRueClient.base_url MinRueClient.__init__
                 RagflowClient.base_url RagflowClient.__init__].
  split; [reflexivity|]. split; [apply rstrip_slash_no_trailing|].
  split; [apply rstrip_slash_decompose|].
  split; [intros kept n -> Hk; rewrite rstrip_slash_app_slashes; apply rstrip_slash_fixed, Hk|].
  split; [apply rstrip_slash_fixed|].
  unfold MinRueClient.__init__, RagflowClient.__init__.
  rewrite (rstrip_slash_fixed (rstrip_slash b)) by apply rstrip_slash_no_trailing.
  split; reflexivity.
Qed.

Lemma base_url_is_given_minus_slashes_witness :
  MinRueClient.base_url (MinRueClient.__init__ "http://host/v1//" 30 3) = "http://host/v1".
Proof.
  apply (proj1 (proj2 (proj2 (proj2
           (base_url_is_given_minus_slashes "http://host/v1//" 30 3 "key"))))
           "http://host/v1" 2%nat).
  - reflexivity.
  - reflexivity.
Defined.

Section Handlers.

Variable P : Request -> Prop.
Variable E : exn -> Prop.
Variable D : Prop.
Hypothesis E_Exception : forall e, is_Exception e = true -> E e.

Lemma sat_try_catch {A} (body : M A) (clauses : exn -> option (M A))
    (E' : exn -> Prop) (Q : A -> Prop) :
  sat P E' D body Q ->
  (forall e, E' e ->
     match clauses e with
     | Some handler => sat P E D handler Q
     | None => E e
     end) ->
  sat P E D (try_catch body clauses) Q.
Proof.
  intros Hb Hc w s. unfold try_catch.
  destruct (Hb w s) as [Ht Ho]. destruct (body w s) as [[a|e|] s1]; cbn in *; auto.
  specialize (Hc e Ho). destruct (clauses e) as [handler|]; [|cbn; auto].
  destruct (Hc w s1) as [Ht' Ho']. split; [|exact Ho'].
  intros r Hr. destruct (Ht' r Hr); auto.
Qed.

Lemma sat_handle_ragflow_error resp : sat P E D (handle_ragflow_error resp) any.
Proof.
  intros w s. destruct (handle_ragflow_error_pure resp w s) as [msg ->].
  cbn. split; [auto|exact I].
Qed.

End Handlers.

Lemma any_Exception e : is_Exception e = true -> @any exn e.
Proof. intros _. exact I. Qed.

Lemma minrue_call_requests (P : Request -> Prop) self c :
  (forall method url payload,
     P (mkRequest method (MinRueClient.base_url self +:+ url) payload []
          (MinRueClient.timeout self))) ->
  sat P any True (minrue_call self c) any.
Proof.
  intros HP. destruct c; cbn [minrue_call].
  1-3: unfold MinRueClient.get_health, MinRueClient.list_models, MinRueClient.list_tasks;
       sat_auto any_Exception; apply HP.
  - unfold MinRueClient.process_file. sat_auto any_Exception. apply HP.
  - unfold MinRueClient.get_result. sat_auto any_Exception.
    apply sat_poll; [exact any_Exception|exact I|apply HP].
Qed.

Lemma ragflow_call_requests (P : Request -> Prop) self c :
  (forall method url payload hdrs,
     P (mkRequest method (RagflowClient.base_url self +:+ url) payload hdrs
          (RagflowClient.timeout self))) ->
  sat P any True (ragflow_call self c) any.
Proof.
  intros HP. destruct c; cbn [ragflow_call].
  1-6,8-14: apply sat_call; [exact any_Exception|apply HP].
  unfold RagflowClient.upload_documents.
  apply sat_seq; [apply sat_open_all; exact any_Exception|intro].
  sat_auto any_Exception. apply HP.
Qed.

(** X7: every request an operation of either client sends carries the
    timeout the client was built with, the polling requests of
    [get_result] and the multipart uploads included. *)
Theorem requests_carry_the_client_timeout :
  (forall b t r c,
     sends_only (fun q => req_timeout q = t) (minrue_call (MinRueClient.__init__ b t r) c)) /\
  (forall k b t r c,
     sends_only (fun q => req_timeout q = t)
                (ragflow_call (RagflowClient.__init__ k b t r) c)).
Proof.
  split.
  - intros b t r c w s.
    apply (minrue_call_requests (fun q => req_timeout q = t) (MinRueClient.__init__ b t r) c).
    reflexivity.
  - intros k b t r c w s.
    apply (ragflow_call_requests (fun q => req_timeout q = t)
             (RagflowClient.__init__ k b t r) c).
    reflexivity.
Qed.

Lemma sat_process_file P self file_path model task parameters :
  (forall method url payload,
     P (mkRequest method (MinRueClient.base_url self +:+ url) payload []
          (MinRueClient.timeout self))) ->
  sat P any True (MinRueClient.process_file self file_path model task parameters) any.
Proof.
  intros HP.
  apply (minrue_call_requests P self (ProcessFile file_path model task parameters) HP).
Qed.

Lemma sat_get_result P fuel self job_id wait wt pi :
  (forall method url payload,
     P (mkRequest method (MinRueClient.base_url self +:+ url) payload []
          (MinRueClient.timeout self))) ->
  sat P any True (MinRueClient.get_result fuel self job_id wait wt pi) any.
Proof.
  intros HP. apply (minrue_call_requests P self (GetResult fuel job_id wait wt pi) HP).
Qed.

Ltac sat_any :=
  sat_auto any_Exception;
  repeat lazymatch goal with
    | |- sat _ _ _ (match ?v with JString _ => _ | _ => _ end) _ =>
        destruct v; sat_auto any_Exception
    end.

Lemma minrue_try_requests P fuel args :
  (forall method url payload,
     P (mkRequest method ("http://localhost:8000/v1" +:+ url) payload [] 30)) ->
  sat P any True (minrue_try fuel args) any.
Proof.
  intros HP.
  assert (HP' : forall method url payload,
            P (mkRequest method
                 (MinRueClient.base_url (MinRueCLI.client MinRueCLI.__init__) +:+ url)
                 payload [] (MinRueClient.timeout (MinRueCLI.client MinRueCLI.__init__))))
    by exact HP.
  destruct args; cbn [minrue_try].
  - unfold MinRueCLI.health_try, MinRueClient.get_health. sat_any. apply HP'.
  - unfold MinRueCLI.models_try, MinRueClient.list_models. sat_any. apply HP'.
  - unfold MinRueCLI.tasks_try, MinRueClient.list_tasks. sat_any. apply HP'.
  - unfold MinRueCLI.process_try, MinRueCLI.save_output.
    apply sat_seq; [sat_any|intro].
    apply sat_seq; [apply sat_process_file; exact HP'|intro].
    sat_any. apply sat_get_result. exact HP'.
  - unfold MinRueCLI.result_try, MinRueCLI.save_output.
    apply sat_seq; [sat_any|intro].
    apply sat_seq; [apply sat_get_result; exact HP'|intro].
    sat_any.
Qed.

Lemma minrue_main_requests P fuel args :
  (forall method url payload,
     P (mkRequest method ("http://localhost:8000/v1" +:+ url) payload [] 30)) ->
  sat P any True (minrue_main fuel args) any.
Proof.
  intros HP. rewrite minrue_main_eq.
  apply sat_seq; [|intro; apply sat_raise; exact I].
  unfold try_except. apply (sat_try_catch P any True _ _ any).
  - apply minrue_try_requests. exact HP.
  - intros e _. destruct (is_Exception e); [|exact I].
    unfold MinRueCLI.on_error. sat_any.
Qed.

Lemma ragflow_run_requests P args :
  (forall method url payload hdrs,
     P (mkRequest method (rstrip_slash (arg_base_url args) +:+ url) payload hdrs 30)) ->
  sat P any True (RagflowCLI.run args) any.
Proof.
  intros HP. unfold RagflowCLI.run. apply sat_seq; [|intro; apply sat_ret; exact I].
  destruct (command args).
  - unfold RagflowClient.create_chat_completion, RagflowClient.call. sat_any. apply HP.
  - unfold RagflowClient.create_dataset, RagflowClient.call. sat_any. apply HP.
  - unfold RagflowClient.list_datasets, RagflowClient.call. sat_any. apply HP.
  - unfold RagflowClient.delete_datasets, RagflowClient.call. sat_any. apply HP.
  - unfold RagflowClient.upload_documents.
    apply sat_seq; [|intro; sat_any].
    apply sat_seq; [apply sat_open_all; exact any_Exception|intro]. sat_any. apply HP.
Qed.

Lemma ragflow_main_requests P args :
  (forall method url payload hdrs,
     P (mkRequest method (rstrip_slash (arg_base_url args) +:+ url) payload hdrs 30)) ->
  sat P any True (ragflow_main args) any.
Proof.
  intros HP. unfold ragflow_main. apply (sat_try_catch P any True _ _ any).
  - apply sat_seq; [apply ragflow_run_requests; exact HP|intro; apply sat_raise; exact I].
  - assert (Hexit : forall line,
              sat P any True (print line ;; raise (SystemExit 1) : M unit) any).
    { intros line. apply sat_seq; [apply sat_print; exact any_Exception|intro].
      apply sat_raise. exact I. }
    intros e _. destruct e; cbn [is_Exception]; try exact I; try apply Hexit.
    apply sat_seq; [apply sat_handle_ragflow_error; exact any_Exception|intro].
    apply Hexit.
Qed.

(** X8: the MinRUE command line offers no way to choose the server: for
    every command, every request it sends goes to a URL under
    [http://localhost:8000/v1/] with a timeout of 30.  The RAGFlow command
    line sends every request under the base URL given with [--base-url]
    (without its trailing slashes), also with a timeout of 30. *)
Theorem command_lines_targets :
  (forall fuel args,
     sends_only (fun q => req_timeout q = 30 /\
                          exists path, url q = "http://localhost:8000/v1" +:+ path)
                (minrue_main fuel args)) /\
  (forall args,
     sends_only (fun q => req_timeout q = 30 /\
                          exists path, url q = rstrip_slash (arg_base_url args) +:+ path)
                (ragflow_main args)).
Proof.
  split.
  - intros fuel args w s. apply (minrue_main_requests _ fuel args).
    intros method url payload. split; [reflexivity|]. exists url. reflexivity.
  - intros args w s. apply (ragflow_main_requests _ args).
    intros method url payload hdrs. split; [reflexivity|]. exists url. reflexivity.
Qed.

(** ** What a wrapper makes of the reply *)

Lemma call_settle self method url payload w s :
  payload_fds payload = [] ->
  let q := mkRequest method url payload [] (RagflowClient.timeout self) in
  RagflowClient.call self method url payload w s
    = (settle w (session_retries (RagflowClient.session self)) q (sent s),
       after_request w q s).
Proof. intros Hfds q. apply round_trip. exact Hfds. Qed.

Lemma get_settle self path w s :
  let q := mkRequest "GET" (MinRueClient.base_url self +:+ path) NoPayload []
             (MinRueClient.timeout self) in
  (let! response := session_request (MinRueClient.session self) q in
   raise_for_status response ;; response_json response) w s
    = (settle w (session_retries (MinRueClient.session self)) q (sent s),
       after_request w q s).
Proof. intros q. apply round_trip. reflexivity. Qed.



(** ** Uploads and file handles, in general *)

Lemma open_all_cons p rest files w s :
  RagflowClient.open_all (p :: rest) files w s =
    match stat w p with
    | Missing => (Raise (not_found p), s)
    | Unreadable => (Raise (OSError ("cannot open '" +:+ p +:+ "'")), s)
    | Regular =>
        RagflowClient.open_all rest (files ++ [("file", (basename p, next_fd s))]) w
          (log (EvOpen p (next_fd s))
             (mkState (clock s) (sent s) (S (next_fd s)) ({[next_fd s]} ∪ open_fds s)
                      (trace s)))
    end.
Proof.
  cbn [RagflowClient.open_all]. unfold bind, open_rb.
  destruct (stat w p); reflexivity.
Qed.

Lemma open_all_keeps w :
  forall file_paths files s,
    let r := RagflowClient.open_all file_paths files w s in
    sent (snd r) = sent s /\
    open_fds s ⊆ open_fds (snd r) /\
    (forall fd, EvClose fd ∈ trace (snd r) -> EvClose fd ∈ trace s) /\
    (forall path fd, EvOpen path fd ∈ trace (snd r) ->
                     EvOpen path fd ∈ trace s \/ fd ∈ open_fds (snd r)) /\
    match fst r with
    | Ret files' =>
        length files' = (length files + length file_paths)%nat /\
        (Forall (fun f => snd (snd f) ∈ open_fds s) files ->
         Forall (fun f => snd (snd f) ∈ open_fds (snd r)) files')
    | Raise e => open_error e
    | Diverge => False
    end.
Proof.
  induction file_paths as [|p rest IH]; intros files s.
  - cbn. repeat split; auto; try lia.
  - rewrite open_all_cons. destruct (stat w p) eqn:Hp.
    + cbn. repeat split; auto. eexists; left; reflexivity.
    + match goal with
      | |- context [RagflowClient.open_all rest ?fs w ?s1] => specialize (IH fs s1)
      end.
      cbv zeta in IH. destruct IH as (Hsent & Hsub & Hclose & Hopen & Hres).
      cbn [sent open_fds trace log] in Hsent, Hsub, Hclose, Hopen, Hres.
      cbv zeta. split; [exact Hsent|]. split; [set_solver|].
      split.
      { intros fd H. apply Hclose in H. apply elem_of_app in H as [H|H]; [exact H|].
        apply list_elem_of_singleton in H. discriminate H. }
      split.
      { intros path fd H. apply Hopen in H as [H|H]; [|right; exact H].
        apply elem_of_app in H as [H|H]; [left; exact H|].
        apply list_elem_of_singleton in H. injection H as -> ->.
        right. apply Hsub. set_solver. }
      destruct (fst _) as [files'| |]; [|exact Hres|exact Hres].
      destruct Hres as [Hlen Hall]. rewrite Hlen, length_app. cbn [length].
      split; [lia|]. intros Hfiles. apply Hall.
      apply Forall_app. split.
      * eapply Forall_impl; [exact Hfiles|]. cbn. intros f Hf. set_solver.
      * constructor; [|constructor]. cbn. set_solver.
    + cbn. repeat split; auto. eexists; right; reflexivity.
Qed.

Lemma open_all_regular_no_error w file_paths :
  Forall (fun q => stat w q = Regular) file_paths ->
  forall files s e, fst (RagflowClient.open_all file_paths files w s) <> Raise e.
Proof.
  induction 1 as [|p rest Hp _ IH]; intros files s e; [discriminate|].
  rewrite open_all_cons, Hp. apply IH.
Qed.

Lemma forallb_open fds (s : State) :
  Forall (fun fd => fd ∈ open_fds s) fds ->
  forallb (fun fd => bool_decide (fd ∈ open_fds s)) fds = true.
Proof.
  induction 1 as [|fd fds Hfd _ IH]; [reflexivity|].
  cbn. rewrite IH, (bool_decide_eq_true_2 _ Hfd). reflexivity.
Qed.

Lemma session_request_open session r w s :
  Forall (fun fd => fd ∈ open_fds s) (payload_fds (payload r)) ->
  session_request session r w s =
    (match answer (respond w (sent s) r) with
     | inl msg => Raise (RequestException msg)
     | inr resp =>
         if retried (session_retries session) (method r) resp
         then Raise (RetryError (max_retries_text w r resp))
         else Ret resp
     end, after_request w r s).
Proof.
  intros Hopen. unfold session_request, after_request.
  rewrite (forallb_open _ _ Hopen). destruct (answer _) as [msg|resp]; [reflexivity|].
  destruct (retried _ _ _); reflexivity.
Qed.

Lemma for_each_close_raises (files : list (string * (string * nat))) w s :
  files <> [] ->
  for_each files (fun entry => let file_obj := TupleObj (snd entry) in obj_close file_obj) w s
    = (Raise no_close_attribute, s).
Proof. destruct files as [|f rest]; [contradiction|]. intros _. reflexivity. Qed.

(** The upload of a non-empty list, step by step. *)
Lemma upload_documents_ends self dataset_id file_paths w s :
  file_paths <> [] ->
  let r := RagflowClient.upload_documents self dataset_id file_paths w s in
  (exists e, fst r = Raise e) /\
  open_fds s ⊆ open_fds (snd r) /\
  (forall fd, EvClose fd ∈ trace (snd r) -> EvClose fd ∈ trace s) /\
  (forall path fd, EvOpen path fd ∈ trace (snd r) ->
                   EvOpen path fd ∈ trace s \/ fd ∈ open_fds (snd r)) /\
  (forall resp,
     Forall (fun q => stat w q = Regular) file_paths ->
     (forall q, answer (respond w (sent s) q) = inr resp) ->
     ~ (400 <= status_code resp < 600) ->
     fst r = Raise no_close_attribute /\ sent (snd r) = S (sent s)).
Proof.
  intros Hne. cbv zeta.
  pose proof (open_all_keeps w file_paths [] s) as Hopen. cbv zeta in Hopen.
  destruct Hopen as (Hsent & Hsub & Hclose & Hopened & Hres).
  remember (RagflowClient.upload_documents self dataset_id file_paths w s) as r eqn:Hr.
  unfold RagflowClient.upload_documents in Hr. unfold bind at 1 in Hr.
  destruct (RagflowClient.open_all file_paths [] w s) as [[files|e|] s1] eqn:Hall;
    cbn [fst snd] in *; [| |contradiction].
  - destruct Hres as [Hlen Hfds]. specialize (Hfds ltac:(constructor)).
    assert (Hfiles : files <> []).
    { intros ->. destruct file_paths; [contradiction|discriminate Hlen]. }
    unfold bind at 1 in Hr. rewrite session_request_open in Hr; cycle 1.
    { cbn [payload payload_fds]. apply Forall_map. exact Hfds. }
    set (q := mkRequest "POST" _ _ _ _) in Hr.
    assert (Hc : forall fd, EvClose fd ∈ trace (after_request w q s1) -> EvClose fd ∈ trace s).
    { intros fd H. apply Hclose. cbn in H. apply elem_of_app in H as [H|H]; [exact H|].
      apply list_elem_of_singleton in H. discriminate H. }
    assert (Ho : forall path fd, EvOpen path fd ∈ trace (after_request w q s1) ->
                                 EvOpen path fd ∈ trace s \/ fd ∈ open_fds s1).
    { intros path fd H. apply Hopened. cbn in H. apply elem_of_app in H as [H|H]; [exact H|].
      apply list_elem_of_singleton in H. discriminate H. }
    destruct (answer (respond w (sent s1) q)) as [msg|resp] eqn:Ha.
    + subst r. cbn [fst snd].
      split; [eexists; reflexivity|]. split; [exact Hsub|]. split; [exact Hc|].
      split; [exact Ho|]. intros resp' _ Hreply _. rewrite Hsent, Hreply in Ha. discriminate Ha.
    + destruct (retried _ _ resp) eqn:Hret.
      { subst r. cbn [fst snd].
        split; [eexists; reflexivity|]. split; [exact Hsub|]. split; [exact Hc|].
        split; [exact Ho|]. intros resp' _ Hreply Hok. rewrite Hsent, Hreply in Ha.
        injection Ha as ->. destruct (Hok (retried_error _ _ _ Hret)). }
      unfold bind at 1, raise_for_status in Hr.
      destruct ((400 <=? status_code resp) && (status_code resp <? 600)) eqn:Hst.
      * subst r. cbn [fst snd].
        split; [eexists; reflexivity|]. split; [exact Hsub|]. split; [exact Hc|].
        split; [exact Ho|]. intros resp' _ Hreply Hok. rewrite Hsent, Hreply in Ha.
        injection Ha as ->. apply andb_true_iff in Hst as [H1 H2].
        apply Z.leb_le in H1. apply Z.ltb_lt in H2. lia.
      * cbn [ret] in Hr. unfold bind at 1 in Hr.
        rewrite for_each_close_raises in Hr by exact Hfiles.
        subst r. cbn [fst snd].
        split; [eexists; reflexivity|]. split; [exact Hsub|]. split; [exact Hc|].
        split; [exact Ho|]. intros _ _ _ _. split; [reflexivity|].
        cbn. rewrite Hsent. reflexivity.
  - subst r. cbn [fst snd].
    split; [eexists; reflexivity|]. split; [exact Hsub|]. split; [exact Hclose|].
    split; [exact Hopened|]. intros resp Hreg _ _.
    exfalso. apply (open_all_regular_no_error w file_paths Hreg [] s e).
    rewrite Hall. reflexivity.
Qed.

(** X10: [upload_documents] with at least one path never returns a
    result: it always raises.  It never closes a file, so every handle it
    opened is still open when it raises, and no handle that was open
    before is closed.  When all the paths are regular files and the
    server accepts the request (any status outside 400..599), what it
    raises, after that one request, is the [AttributeError] of calling
    [close] on the [(name, file)] pair. *)
Theorem upload_documents_never_returns self dataset_id file_paths w s :
  file_paths <> [] ->
  let r := RagflowClient.upload_documents self dataset_id file_paths w s in
  (exists e, fst r = Raise e) /\
  open_fds s ⊆ open_fds (snd r) /\
  (forall fd, EvClose fd ∈ trace (snd r) -> EvClose fd ∈ trace s) /\
  (forall path fd, EvOpen path fd ∈ trace (snd r) ->
                   EvOpen path fd ∈ trace s \/ fd ∈ open_fds (snd r)) /\
  (forall resp,
     Forall (fun q => stat w q = Regular) file_paths ->
     (forall q, answer (respond w (sent s) q) = inr resp) ->
     ~ (400 <= status_code resp < 600) ->
     fst r = Raise no_close_attribute /\ sent (snd r) = S (sent s)).
Proof. apply upload_documents_ends. Qed.

Lemma upload_documents_never_returns_witness :
  let resp := mkResponse 200 "OK" "http://localhost:8000/v1/datasets/d1/documents" false ""
                (Some (JObject {[ "data" := JArray [] ]})) in
  let r := RagflowClient.upload_documents ragflow_default "d1" ["a.txt"; "a.txt"]
             (constant_world (mkReply (inr resp) 0)) initial in
  fst r = Raise no_close_attribute /\ sent (snd r) = 1%nat.
Proof.
  cbv zeta.
  apply (proj2 (proj2 (proj2 (proj2
           (upload_documents_never_returns ragflow_default "d1" ["a.txt"; "a.txt"]
              (constant_world
                 (mkReply (inr (mkResponse 200 "OK"
                                  "http://localhost:8000/v1/datasets/d1/documents" false ""
                                  (Some (JObject {[ "data" := JArray [] ]})))) 0))
              initial ltac:(discriminate)))))
           (mkResponse 200 "OK" "http://localhost:8000/v1/datasets/d1/documents" false ""
              (Some (JObject {[ "data" := JArray [] ]})))).
  - repeat constructor.
  - intros q. reflexivity.
  - cbn. lia.
Defined.


(** X12: [process_file] never reaches the server, whatever the path: it
    always raises, the request counter is unchanged and the trace gains
    no request.  A missing path raises [FileNotFoundError] before anything
    is opened, a path that cannot be opened raises the error of [open]
    (an [OSError], whose text the model writes [cannot open '{path}']),
    and a regular file is opened, closed, and then read while closed.  No
    handle is left open. *)
Theorem process_file_never_reaches_the_server self file_path model task parameters w s :
  let r := MinRueClient.process_file self file_path model task parameters w s in
  fst r = Raise match stat w file_path with
                | Missing => FileNotFoundError ("File not found: " +:+ file_path)
                | Unreadable => OSError ("cannot open '" +:+ file_path +:+ "'")
                | Regular => ValueError "read of closed file"
                end /\
  sent (snd r) = sent s /\
  (forall q, EvRequest q ∈ trace (snd r) -> EvRequest q ∈ trace s) /\
  open_fds (snd r) ⊆ open_fds s.
Proof.
  cbv zeta. destruct (stat w file_path) eqn:Hp.
  - assert (Hr : MinRueClient.process_file self file_path model task parameters w s
                 = (Raise (FileNotFoundError ("File not found: " +:+ file_path)), s)).
    { unfold MinRueClient.process_file, bind at 1, os_path_exists. rewrite Hp. reflexivity. }
    rewrite Hr. cbn [fst snd]. auto.
  - rewrite process_file_reads_closed_file by exact Hp. cbn [fst snd sent trace open_fds].
    split; [reflexivity|]. split; [reflexivity|]. split.
    + intros q H. apply elem_of_app in H as [H|H].
      * apply elem_of_app in H as [H|H]; [exact H|].
        apply list_elem_of_singleton in H. discriminate H.
      * apply list_elem_of_singleton in H. discriminate H.
    + intros fd. rewrite elem_of_difference, elem_of_union, elem_of_singleton. tauto.
  - assert (Hr : MinRueClient.process_file self file_path model task parameters w s
                 = (Raise (OSError ("cannot open '" +:+ file_path +:+ "'")), s)).
    { unfold MinRueClient.process_file, bind at 1, os_path_exists. rewrite Hp. cbn [negb].
      unfold bind at 1, with_open, bind at 1, open_rb. rewrite Hp. reflexivity. }
    rewrite Hr. cbn [fst snd]. auto.
Qed.

Lemma open_w_fresh path w s :
  writable w path = true ->
  open_w path w s =
    (Ret (next_fd s),
     log (EvOpen path (next_fd s))
       (mkState (clock s) (sent s) (S (next_fd s)) ({[next_fd s]} ∪ open_fds s) (trace s))).
Proof. intros H. unfold open_w. rewrite H. reflexivity. Qed.

(** X13: [save_output] never leaks the handle of the output file.  If
    the path cannot be opened for writing it raises [OSError] and nothing
    changes.  Otherwise the file is opened first: when the record has a
    string under ['output'] exactly that text is written and the file is
    closed; when it has not, the call raises, but the file was already
    opened (hence created or truncated) and is closed without a write.
    In every case the set of open handles is what it was. *)
Theorem save_output_closes_the_file path result w s :
  next_fd s ∉ open_fds s ->
  let r := MinRueCLI.save_output path result w s in
  let fd := next_fd s in
  open_fds (snd r) = open_fds s /\
  (writable w path = false ->
   r = (Raise (OSError ("cannot open '" +:+ path +:+ "'")), s)) /\
  (writable w path = true ->
   match output_of result with
   | Some data =>
       fst r = Ret tt /\
       trace (snd r) = trace s ++ [EvOpen path fd; EvWrite fd data; EvClose fd]
   | None =>
       (exists e, fst r = Raise e /\ is_Exception e = true) /\
       trace (snd r) = trace s ++ [EvOpen path fd; EvClose fd]
   end).
Proof.
  intros Hfresh. cbv zeta.
  assert (Hset : ({[next_fd s]} ∪ open_fds s) ∖ {[next_fd s]} = open_fds s).
  { apply set_eq. intros x.
    rewrite elem_of_difference, elem_of_union, elem_of_singleton.
    split; [tauto|]. intros Hx. split; [tauto|]. intros ->. contradiction. }
  destruct (writable w path) eqn:Hw.
  - assert (Hcases :
      let r := MinRueCLI.save_output path result w s in
      open_fds (snd r) = ({[next_fd s]} ∪ open_fds s) ∖ {[next_fd s]} /\
      match output_of result with
      | Some data =>
          fst r = Ret tt /\
          trace (snd r) = trace s ++ [EvOpen path (next_fd s); EvWrite (next_fd s) data;
                                      EvClose (next_fd s)]
      | None =>
          (exists e, fst r = Raise e /\ is_Exception e = true) /\
          trace (snd r) = trace s ++ [EvOpen path (next_fd s); EvClose (next_fd s)]
      end).
    { cbv zeta. unfold MinRueCLI.save_output, with_open.
      rewrite (bind_eq _ _ _ _ _ _ (open_w_fresh path w s Hw)). cbv beta iota.
      destruct result as [| | | | | |kvs];
        try (cbn; rewrite <- app_assoc; split; [reflexivity|];
             split; [eexists; split; reflexivity|reflexivity]).
      unfold output_of.
      destruct (kvs !! "output") as [output|] eqn:Ho.
      - rewrite (bind_eq _ _ _ _ _ _ (getitem_some _ _ _ _ _ Ho)). cbv beta iota.
        destruct output;
          cbn; rewrite <- !app_assoc; split; try reflexivity;
          split; try reflexivity; eexists; split; reflexivity.
      - rewrite (bind_eq _ _ _ _ _ _ (getitem_none _ _ _ _ Ho)). cbv beta iota.
        cbn. rewrite <- app_assoc. split; [reflexivity|].
        split; [eexists; split; reflexivity|reflexivity]. }
    cbv zeta in Hcases. destruct Hcases as [Hfds Hout]. rewrite Hfds, Hset.
    split; [reflexivity|]. split; [discriminate|]. intros _. exact Hout.
  - assert (Hr : MinRueCLI.save_output path result w s
                 = (Raise (OSError ("cannot open '" +:+ path +:+ "'")), s)).
    { unfold MinRueCLI.save_output, with_open, bind at 1, open_w. rewrite Hw. reflexivity. }
    rewrite Hr. cbn [fst snd]. split; [reflexivity|]. split; [reflexivity|discriminate].
Qed.

Lemma save_output_closes_the_file_witness :
  let r := MinRueCLI.save_output "out.txt" (completed "Refined notes.")
             (sample_world (ok JNull 0)) initial in
  fst r = Ret tt /\
  trace (snd r) = [EvOpen "out.txt" 0; EvWrite 0 "Refined notes."; EvClose 0].
Proof.
  cbv zeta.
  apply (proj2 (proj2 (save_output_closes_the_file "out.txt" (completed "Refined notes.")
                         (sample_world (ok JNull 0)) initial
                         ltac:(apply not_elem_of_empty)))).
  reflexivity.
Defined.

(** ** The command lines, command by command *)

Lemma handle_ragflow_error_eq resp w s :
  handle_ragflow_error resp w s = (Ret (ragflow_error_message w resp), s).
Proof.
  unfold handle_ragflow_error, ragflow_error_message, try_catch, bind at 1, response_json.
  destruct (parsed resp) as [error_data|]; [|reflexivity].
  destruct error_data; reflexivity.
Qed.

(** X14: [handle_ragflow_error] never raises and touches nothing.  For a
    response whose body is a JSON object the message is
    [RAGFlow Error {code}: {message}], where a missing code shows as [None]
    and a missing message as [Unknown error]; for any other body (not
    JSON, or JSON that is not an object, which the bare [except] absorbs)
    it is [HTTP Error {status}: {text}]. *)
Theorem handle_ragflow_error_total resp w s :
  handle_ragflow_error resp w s = (Ret (ragflow_error_message w resp), s) /\
  (forall kvs,
     parsed resp = Some (JObject kvs) -> kvs !! "code" = None -> kvs !! "message" = None ->
     ragflow_error_message w resp = "RAGFlow Error " +:+ py_str w JNull +:+ ": Unknown error") /\
  (forall body,
     parsed resp = Some body -> (forall kvs, body <> JObject kvs) ->
     ragflow_error_message w resp
       = "HTTP Error " +:+ pretty (status_code resp) +:+ ": " +:+ text resp).
Proof.
  split; [apply handle_ragflow_error_eq|]. split.
  - intros kvs Hp Hc Hm. unfold ragflow_error_message. rewrite Hp, Hc, Hm. reflexivity.
  - intros body Hp Hb. unfold ragflow_error_message. rewrite Hp.
    destruct body; try reflexivity. destruct (Hb _ eq_refl).
Qed.

Lemma handle_ragflow_error_total_witness :
  ragflow_error_message (sample_world (ok JNull 0))
      (mkResponse 404 "Not Found" "http://localhost:8000/v1/datasets" false "{}"
         (Some (JObject ∅)))
    = "RAGFlow Error None: Unknown error".
Proof.
  apply (proj1 (proj2 (handle_ragflow_error_total
                         (mkResponse 404 "Not Found" "http://localhost:8000/v1/datasets"
                            false "{}" (Some (JObject ∅)))
                         (sample_world (ok JNull 0)) initial)) ∅);
    reflexivity.
Defined.

Lemma for_each_dataset_lines w datasets :
  Forall listable datasets ->
  forall s,
    for_each datasets (fun dataset =>
      let! name := getitem dataset "name" in
      let! shown_name := fmt name in
      let! id := getitem dataset "id" in
      let! shown_id := fmt id in
      let! count := getitem dataset "document_count" in
      let! shown_count := fmt count in
      print ("- " +:+ shown_name +:+ " (ID: " +:+ shown_id +:+ ") - "
             +:+ shown_count +:+ " documents")) w s
    = (Ret tt,
       mkState (clock s) (sent s) (next_fd s) (open_fds s)
               (trace s ++ map (fun d => EvPrint (dataset_line w d)) datasets)).
Proof.
  induction 1 as [|d rest (kvs & -> & [n Hn] & [i Hi] & [c Hc]) _ IH]; intros s.
  - cbn. rewrite app_nil_r. destruct s; reflexivity.
  - cbn [for_each].
    erewrite bind_eq; cycle 1.
    { mstep ltac:(apply getitem_some; exact Hn).
      mstep ltac:(exact eq_refl).
      mstep ltac:(apply getitem_some; exact Hi).
      mstep ltac:(exact eq_refl).
      mstep ltac:(apply getitem_some; exact Hc).
      mstep ltac:(exact eq_refl).
      reflexivity. }
    cbv beta iota. rewrite IH. cbn [clock sent next_fd open_fds trace log map dataset_line].
    rewrite Hn, Hi, Hc. cbn [default]. rewrite <- app_assoc. reflexivity.
Qed.






(** What the listing commands make of the outcome of their request. *)
Lemma listing_command_ends fuel args path w s :
  listing_path args = Some path ->
  let q := mkRequest "GET" ("http://localhost:8000/v1" +:+ path) NoPayload [] 30 in
  let s1 := after_request w q s in
  minrue_main fuel args w s =
    match settle w 3 q (sent s) with
    | Ret body => (Raise (SystemExit 0), log (EvPrint (dumps_pretty w body)) s1)
    | Raise e => (Raise (SystemExit 1), log (EvPrint ("Error: " +:+ exn_str e)) s1)
    | Diverge => (Diverge, s1)
    end.
Proof.
  intros Hpath. cbv zeta. rewrite minrue_main_eq.
  assert (Hbody :
    minrue_try fuel args w s =
      match settle w 3 (mkRequest "GET" ("http://localhost:8000/v1" +:+ path) NoPayload [] 30)
              (sent s) with
      | Ret body =>
          (Ret 0, log (EvPrint (dumps_pretty w body))
                    (after_request w
                       (mkRequest "GET" ("http://localhost:8000/v1" +:+ path) NoPayload [] 30) s))
      | Raise e =>
          (Raise e,
           after_request w
             (mkRequest "GET" ("http://localhost:8000/v1" +:+ path) NoPayload [] 30) s)
      | Diverge =>
          (Diverge,
           after_request w
             (mkRequest "GET" ("http://localhost:8000/v1" +:+ path) NoPayload [] 30) s)
      end).
  { destruct args; try discriminate Hpath; injection Hpath as <-; cbn [minrue_try].
    all: unfold MinRueCLI.health_try, MinRueCLI.models_try, MinRueCLI.tasks_try,
           MinRueClient.get_health, MinRueClient.list_models, MinRueClient.list_tasks.
    all: unfold bind at 1.
    all: rewrite (get_settle (MinRueCLI.client MinRueCLI.__init__)).
    all: cbn [MinRueClient.base_url MinRueClient.timeout MinRueCLI.client
              MinRueCLI.__init__ MinRueClient.__init__].
    all: change (rstrip_slash "http://localhost:8000/v1") with "http://localhost:8000/v1".
    all: change (session_retries (MinRueClient.session _)) with 3.
    all: destruct (settle _ _ _ _); reflexivity. }
  unfold bind at 1, try_except, try_catch. rewrite Hbody.
  destruct (settle _ _ _ _) as [body|e|] eqn:Hs; [reflexivity| |reflexivity].
  rewrite (settle_caught _ _ _ _ _ Hs). reflexivity.
Qed.

(** X16: the [health], [models] and [tasks] commands are one GET of the
    session to [/health], [/models] or [/tasks] under the default base
    URL, and end as the last answer to it decides; nothing else is printed
    or sent.  A body is printed as its JSON dump, with exit status 0.  Any
    failure prints [Error: ] and a text and exits with 1: the text of the
    transport error; the text of the [RetryError] for one of the statuses
    429, 500, 502, 503 and 504; [{status} Client Error: {reason} for
    url: {url}] (or [Server Error]) for a 4xx or 5xx status the adapter
    does not retry; the text of the decoding error for a body that is not
    JSON. *)
Theorem listing_commands fuel args path w s :
  listing_path args = Some path ->
  let q := mkRequest "GET" ("http://localhost:8000/v1" +:+ path) NoPayload [] 30 in
  let s1 := after_request w q s in
  let exits code line := (Raise (SystemExit code) : outcome unit, log (EvPrint line) s1) in
  match answer (respond w (sent s) q) with
  | inl msg => minrue_main fuel args w s = exits 1 ("Error: " +:+ msg)
  | inr resp =>
      (status_code resp ∈ [429; 500; 502; 503; 504] ->
       minrue_main fuel args w s = exits 1 ("Error: " +:+ max_retries_text w q resp)) /\
      (400 <= status_code resp < 600 -> retried 3 "GET" resp = false ->
       minrue_main fuel args w s
         = exits 1 ("Error: " +:+ pretty (status_code resp)
                      +:+ (if status_code resp <? 500
                           then " Client Error: " else " Server Error: ")
                      +:+ reason resp +:+ " for url: " +:+ resp_url resp)) /\
      (~ (400 <= status_code resp < 600) ->
       minrue_main fuel args w s
         = match parsed resp with
           | Some body => exits 0 (dumps_pretty w body)
           | None => exits 1 ("Error: " +:+ decode_error w (text resp))
           end)
  end.
Proof.
  intros Hpath q s1 exits. rewrite (listing_command_ends fuel args path w s Hpath).
  fold q. fold s1. destruct (answer _) as [msg|resp] eqn:Ha.
  - rewrite (settle_transport _ _ _ _ _ Ha). reflexivity.
  - split; [|split].
    + intros Hst. rewrite (settle_given_up _ _ _ _ _ Ha); [reflexivity|].
      apply retried_forcelist; [|exact Hst].
      apply (bool_decide_unpack _). vm_compute. exact I.
    + intros Hst Hr. rewrite (settle_refused _ _ _ _ _ Ha Hr Hst). reflexivity.
    + intros Hst. rewrite (settle_served _ _ _ _ _ Ha Hst).
      destruct (parsed resp); reflexivity.
Qed.

Lemma listing_commands_witness :
  let w := sample_world (failing 404) in
  minrue_main 0 ArgsHealth w initial
    = (Raise (SystemExit 1),
       log (EvPrint
              "Error: 404 Client Error: Not Found for url: http://localhost:8000/v1/health")
           (after_request w
              (mkRequest "GET" "http://localhost:8000/v1/health" NoPayload [] 30) initial)).
Proof.
  cbv zeta.
  apply (proj1 (proj2
           (listing_commands 0 ArgsHealth "/health" (sample_world (failing 404)) initial
              eq_refl))).
  - cbn. lia.
  - reflexivity.
Defined.

Lemma get_result_first fuel self job_id wait wt pi w s resp kvs :
  let req := poll_request self
               (MinRueClient.base_url self +:+ "/results/" +:+ py_str w job_id) in
  answer (respond w (sent s) req) = inr resp ->
  is_2xx resp ->
  parsed resp = Some (JObject kvs) ->
  terminal (JObject kvs) = true ->
  MinRueClient.get_result (S fuel) self job_id wait wt pi w s
    = (Ret (JObject kvs), after_request w req s).
Proof.
  intros req Ha H2 Hp Ht. rewrite get_result_is_poll.
  unfold terminal in Ht. destruct (kvs !! "status") as [status|] eqn:Hs; [|discriminate].
  rewrite (poll_step _ _ _ _ _ _ _ _ _ resp kvs status) by assumption.
  cbv zeta. rewrite Ht. reflexivity.
Qed.

Lemma terminal_status kvs text :
  kvs !! "status" = Some (JString text) ->
  text = "completed" \/ text = "failed" ->
  terminal (JObject kvs) = true.
Proof. intros Hs [-> | ->]; unfold terminal; rewrite Hs; reflexivity. Qed.

(** The [try] block of the result command, up to the test of the status. *)
Lemma result_try_fetched fuel job_id output_path w s resp kvs text :
  let q := mkRequest "GET" ("http://localhost:8000/v1" +:+ "/results/" +:+ job_id)
             NoPayload [] 30 in
  let s1 := after_request w q (log (EvPrint ("Retrieving results for job ID: " +:+ job_id)) s) in
  answer (respond w (sent s) q) = inr resp ->
  is_2xx resp ->
  parsed resp = Some (JObject kvs) ->
  kvs !! "status" = Some (JString text) ->
  text = "completed" \/ text = "failed" ->
  MinRueCLI.result_try (S fuel) MinRueCLI.__init__ job_id output_path w s =
    (if String.eqb text "completed" then
       (if truthy output_path then
          let path := default "" output_path in
          MinRueCLI.save_output path (JObject kvs) ;;
          print ("Results saved to: " +:+ path)
        else
          let! output := getitem (JObject kvs) "output" in
          match output with
          | JString shown => print (newline +:+ shown)
          | _ => raise (TypeError ("can only concatenate str (not " +:+ double_quote
                                     +:+ type_name output +:+ double_quote +:+ ") to str"))
          end) ;;
       ret 0
     else
       let! error := getitem (JObject kvs) "error" in
       let! shown := fmt error in
       print ("Processing failed: " +:+ shown) ;;
       ret 1) w s1.
Proof.
  intros q s1 Ha H2 Hp Hs Ht. unfold MinRueCLI.result_try.
  mstep ltac:(exact eq_refl).
  mstep ltac:(apply (get_result_first fuel (MinRueCLI.client MinRueCLI.__init__)
                       (JString job_id) true 60 3 w _ resp kvs);
              [exact Ha|exact H2|exact Hp|exact (terminal_status _ _ Hs Ht)]).
  mstep ltac:(apply getitem_some; exact Hs).
  reflexivity.
Qed.

Lemma on_error_eq e w s :
  MinRueCLI.on_error e w s = (Ret 1, log (EvPrint ("Error: " +:+ exn_str e)) s).
Proof. reflexivity. Qed.

Lemma minrue_main_of_try fuel args w s o s' :
  minrue_try fuel args w s = (o, s') ->
  minrue_main fuel args w s =
    match o with
    | Ret code => (Raise (SystemExit code), s')
    | Raise e =>
        if is_Exception e
        then (Raise (SystemExit 1), log (EvPrint ("Error: " +:+ exn_str e)) s')
        else (Raise e, s')
    | Diverge => (Diverge, s')
    end.
Proof.
  intros H. rewrite minrue_main_eq. unfold bind at 1, try_except, try_catch. rewrite H.
  destruct o as [code|e|]; [reflexivity| |reflexivity].
  destruct (is_Exception e); reflexivity.
Qed.

Lemma result_completed_ends fuel job_id output_path w s resp kvs text :
  let q := mkRequest "GET" ("http://localhost:8000/v1" +:+ "/results/" +:+ job_id)
             NoPayload [] 30 in
  let s1 := after_request w q (log (EvPrint ("Retrieving results for job ID: " +:+ job_id)) s) in
  let final := minrue_main (S fuel) (ArgsResult job_id output_path) w s in
  answer (respond w (sent s) q) = inr resp ->
  is_2xx resp ->
  parsed resp = Some (JObject kvs) ->
  kvs !! "status" = Some (JString "completed") ->
  kvs !! "output" = Some (JString text) ->
  (truthy output_path = false ->
   final = (Raise (SystemExit 0), log (EvPrint (newline +:+ text)) s1)) /\
  (forall path,
     output_path = Some path -> path <> "" -> writable w path = true ->
     fst final = Raise (SystemExit 0) /\
     trace (snd final) =
       trace s1 ++ [EvOpen path (next_fd s); EvWrite (next_fd s) text;
                    EvClose (next_fd s); EvPrint ("Results saved to: " +:+ path)]).
Proof.
  cbv zeta. intros Ha H2 Hp Hs Ho.
  pose proof (result_try_fetched fuel job_id output_path w s resp kvs "completed"
                Ha H2 Hp Hs (or_introl eq_refl)) as Htry.
  cbv zeta in Htry. cbn [String.eqb Ascii.eqb Bool.eqb andb] in Htry.
  split.
  - intros Hno. rewrite Hno in Htry.
    erewrite minrue_main_of_try; cycle 1.
    { unfold minrue_try. rewrite Htry.
      unfold bind at 1.
      erewrite (bind_eq _ _ _ _ _ _ (getitem_some _ _ _ _ _ Ho)). cbv beta iota.
      reflexivity. }
    reflexivity.
  - intros path -> Hne Hw.
    assert (Htruthy : truthy (Some path) = true).
    { cbn. destruct (String.eqb path "") eqn:He; [|reflexivity].
      apply String.eqb_eq in He. contradiction. }
    rewrite Htruthy in Htry. cbn [default] in Htry.
    erewrite minrue_main_of_try; cycle 1.
    { unfold minrue_try. rewrite Htry. unfold MinRueCLI.save_output, with_open.
      unfold bind at 1. unfold bind at 1. unfold bind at 1.
      rewrite open_w_fresh by exact Hw.
      rewrite (bind_eq _ _ _ _ _ _ (getitem_some _ _ _ _ _ Ho)). cbv beta iota.
      reflexivity. }
    cbn. rewrite <- !app_assoc. split; reflexivity.
Qed.

(** X17: the result command on a job that is already completed.  It
    prints the job line, fetches once and exits with 0: without an output
    path it prints a newline followed by the output text; with a writable
    output path it writes exactly the output text to that file, closes
    it, and prints where the result was saved. *)
Theorem result_command_completed fuel job_id output_path w s resp kvs text :
  let q := mkRequest "GET" ("http://localhost:8000/v1" +:+ "/results/" +:+ job_id)
             NoPayload [] 30 in
  let s1 := after_request w q (log (EvPrint ("Retrieving results for job ID: " +:+ job_id)) s) in
  let final := minrue_main (S fuel) (ArgsResult job_id output_path) w s in
  answer (respond w (sent s) q) = inr resp ->
  is_2xx resp ->
  parsed resp = Some (JObject kvs) ->
  kvs !! "status" = Some (JString "completed") ->
  kvs !! "output" = Some (JString text) ->
  (truthy output_path = false ->
   final = (Raise (SystemExit 0), log (EvPrint (newline +:+ text)) s1)) /\
  (forall path,
     output_path = Some path -> path <> "" -> writable w path = true ->
     fst final = Raise (SystemExit 0) /\
     trace (snd final) =
       trace s1 ++ [EvOpen path (next_fd s); EvWrite (next_fd s) text;
                    EvClose (next_fd s); EvPrint ("Results saved to: " +:+ path)]).
Proof. apply result_completed_ends. Qed.

Lemma result_command_completed_witness :
  let w := sample_world (ok (completed "Refined notes.") 2) in
  let final := minrue_main 1 (ArgsResult "job-42" (Some "out.txt")) w initial in
  fst final = Raise (SystemExit 0) /\
  trace (snd final) =
    [EvPrint "Retrieving results for job ID: job-42";
     EvRequest (mkRequest "GET" "http://localhost:8000/v1/results/job-42" NoPayload [] 30);
     EvOpen "out.txt" 0; EvWrite 0 "Refined notes."; EvClose 0;
     EvPrint "Results saved to: out.txt"].
Proof.
  cbv zeta.
  refine (proj2 (result_command_completed 0 "job-42" (Some "out.txt")
                   (sample_world (ok (completed "Refined notes.") 2)) initial
                   (mkResponse 200 "OK" "http://localhost:8000/v1/results/job-42" false ""
                      (Some (completed "Refined notes.")))
                   _ "Refined notes."
                   eq_refl _ eq_refl eq_refl eq_refl) "out.txt" eq_refl _ eq_refl).
  - unfold is_2xx. cbn. lia.
  - discriminate.
Defined.

(** X18: the result command on a job that failed.  It prints the job
    line, fetches once, prints [Processing failed: ] followed by the error
    of the record and exits with 1; when the record has no ['error'] it
    prints [Error: 'error'] instead.  Whatever the output path, no file is
    opened. *)
Theorem result_command_failed fuel job_id output_path w s resp kvs :
  let q := mkRequest "GET" ("http://localhost:8000/v1" +:+ "/results/" +:+ job_id)
             NoPayload [] 30 in
  let s1 := after_request w q (log (EvPrint ("Retrieving results for job ID: " +:+ job_id)) s) in
  let final := minrue_main (S fuel) (ArgsResult job_id output_path) w s in
  answer (respond w (sent s) q) = inr resp ->
  is_2xx resp ->
  parsed resp = Some (JObject kvs) ->
  kvs !! "status" = Some (JString "failed") ->
  final = (Raise (SystemExit 1),
           log (EvPrint match kvs !! "error" with
                        | Some error => "Processing failed: " +:+ py_str w error
                        | None => "Error: 'error'"
                        end) s1).
Proof.
  cbv zeta. intros Ha H2 Hp Hs.
  pose proof (result_try_fetched fuel job_id output_path w s resp kvs "failed"
                Ha H2 Hp Hs (or_intror eq_refl)) as Htry.
  cbv zeta in Htry. cbn [String.eqb Ascii.eqb Bool.eqb andb] in Htry.
  destruct (kvs !! "error") as [error|] eqn:He.
  - erewrite minrue_main_of_try; cycle 1.
    { unfold minrue_try. rewrite Htry.
      erewrite (bind_eq _ _ _ _ _ _ (getitem_some _ _ _ _ _ He)). cbv beta iota.
      reflexivity. }
    reflexivity.
  - erewrite minrue_main_of_try; cycle 1.
    { unfold minrue_try. rewrite Htry.
      erewrite (bind_eq _ _ _ _ _ _ (getitem_none _ _ _ _ He)). cbv beta iota.
      reflexivity. }
    reflexivity.
Qed.

Lemma result_command_failed_witness :
  let w := sample_world (ok (failed "out of memory") 2) in
  minrue_main 1 (ArgsResult "job-42" (Some "out.txt")) w initial
    = (Raise (SystemExit 1),
       log (EvPrint "Processing failed: out of memory")
           (after_request w
              (mkRequest "GET" "http://localhost:8000/v1/results/job-42" NoPayload [] 30)
              (log (EvPrint "Retrieving results for job ID: job-42") initial))).
Proof.
  cbv zeta.
  refine (result_command_failed 0 "job-42" (Some "out.txt")
            (sample_world (ok (failed "out of memory") 2)) initial
            (mkResponse 200 "OK" "http://localhost:8000/v1/results/job-42" false ""
               (Some (failed "out of memory")))
            _ eq_refl _ eq_refl eq_refl).
  unfold is_2xx. cbn. lia.
Defined.

Lemma process_file_outcome self file_path model task parameters w s :
  exists e s',
    MinRueClient.process_file self file_path model task parameters w s = (Raise e, s') /\
    e = match stat w file_path with
        | Missing => FileNotFoundError ("File not found: " +:+ file_path)
        | Unreadable => OSError ("cannot open '" +:+ file_path +:+ "'")
        | Regular => ValueError "read of closed file"
        end /\
    sent s' = sent s /\ printed (trace s') = printed (trace s).
Proof.
  destruct (stat w file_path) eqn:Hp.
  - exists (FileNotFoundError ("File not found: " +:+ file_path)), s.
    split; [|auto].
    unfold MinRueClient.process_file, bind at 1, os_path_exists. rewrite Hp. reflexivity.
  - eexists _, _. split; [apply process_file_reads_closed_file; exact Hp|].
    split; [reflexivity|]. split; [reflexivity|].
    cbn [trace]. unfold printed. rewrite !omap_app. cbn. rewrite !app_nil_r. reflexivity.
  - exists (OSError ("cannot open '" +:+ file_path +:+ "'")), s.
    split; [|auto].
    unfold MinRueClient.process_file, bind at 1, os_path_exists. rewrite Hp. cbn [negb].
    unfold bind at 1, with_open, bind at 1, open_rb. rewrite Hp. reflexivity.
Qed.

Lemma process_command_ends
    fuel file_path output model task temperature max_tokens w s :
  let final :=
    minrue_main fuel (ArgsProcess file_path output model task temperature max_tokens) w s in
  fst final = Raise (SystemExit 1) /\
  sent (snd final) = sent s /\
  printed (trace (snd final)) =
    printed (trace s)
      ++ ["Processing file: " +:+ file_path;
          "Error: " +:+ match stat w file_path with
                        | Missing => "File not found: " +:+ file_path
                        | Unreadable => "cannot open '" +:+ file_path +:+ "'"
                        | Regular => "read of closed file"
                        end].
Proof.
  cbv zeta.
  destruct (process_file_outcome (MinRueCLI.client MinRueCLI.__init__) file_path model task
              (Some (JObject (cli_parameters
                                (ArgsProcess file_path output model task temperature max_tokens))))
              w (log (EvPrint ("Processing file: " +:+ file_path)) s))
    as (e & s' & Hpf & He & Hsent & Hprinted).
  erewrite minrue_main_of_try; cycle 1.
  { unfold minrue_try, MinRueCLI.process_try.
    mstep ltac:(exact eq_refl).
    rewrite (bind_eq _ _ _ _ _ _ Hpf). cbv beta iota. reflexivity. }
  assert (Hex : is_Exception e = true) by (subst e; destruct (stat w file_path); reflexivity).
  cbv beta iota. rewrite Hex. cbn [fst snd sent trace log].
  split; [reflexivity|]. split; [exact Hsent|].
  unfold printed in *. rewrite omap_app, Hprinted. cbn [trace log].
  rewrite omap_app. cbn. rewrite <- app_assoc. cbn.
  subst e. destruct (stat w file_path); reflexivity.
Qed.

(** X19: the process command can never succeed.  For every file path and
    every option it prints [Processing file: ] and the path, fails inside
    [process_file] before any request is sent, prints [Error: ] followed
    by the text of that error, and exits with 1: [File not found: ] and
    the path when the file is missing, [read of closed file] when it is a
    regular file, and the text of the [OSError] of [open] (which the model
    writes [cannot open '{path}']) when it cannot be opened. *)
Theorem process_command_always_fails
    fuel file_path output model task temperature max_tokens w s :
  let final :=
    minrue_main fuel (ArgsProcess file_path output model task temperature max_tokens) w s in
  fst final = Raise (SystemExit 1) /\
  sent (snd final) = sent s /\
  printed (trace (snd final)) =
    printed (trace s)
      ++ ["Processing file: " +:+ file_path;
          "Error: " +:+ match stat w file_path with
                        | Missing => "File not found: " +:+ file_path
                        | Unreadable => "cannot open '" +:+ file_path +:+ "'"
                        | Regular => "read of closed file"
                        end].
Proof. apply process_command_ends. Qed.

Lemma upload_command_ends api_key base_url dataset_id file w s :
  file <> [] ->
  let final :=
    ragflow_main (mkRagflowArgs api_key base_url (DocumentUpload dataset_id file)) w s in
  fst final = Raise (SystemExit 1) /\
  open_fds s ⊆ open_fds (snd final) /\
  (forall fd, EvClose fd ∈ trace (snd final) -> EvClose fd ∈ trace s).
Proof.
  intros Hne. cbv zeta. rewrite ragflow_main_eq.
  pose proof (upload_documents_ends
                (RagflowClient.__init__ api_key base_url 30 3) dataset_id file w s Hne) as Hup.
  cbv zeta in Hup. destruct Hup as ((e & He) & Hsub & Hclose & _).
  pose proof (ragflow_run_codes
                (mkRagflowArgs api_key base_url (DocumentUpload dataset_id file)) w s)
    as [_ Hcaught].
  assert (Hrun : RagflowCLI.run
                   (mkRagflowArgs api_key base_url (DocumentUpload dataset_id file)) w s
                 = (Raise e,
                    snd (RagflowClient.upload_documents
                           (RagflowClient.__init__ api_key base_url 30 3) dataset_id file w s))).
  { unfold RagflowCLI.run. cbn [command arg_api_key arg_base_url].
    unfold bind at 1. unfold bind at 1.
    destruct (RagflowClient.upload_documents _ _ _ w s) as [o s1]. cbn in He. subst o.
    reflexivity. }
  rewrite Hrun in Hcaught |- *. cbn [fst] in Hcaught. unfold caught in Hcaught.
  assert (Hquiet : forall line s1,
            (forall fd, EvClose fd ∈ trace (log (EvPrint line) s1) -> EvClose fd ∈ trace s1)).
  { intros line s1 fd H. cbn in H. apply elem_of_app in H as [H|H]; [exact H|].
    apply list_elem_of_singleton in H. discriminate H. }
  destruct e; try discriminate Hcaught; cbn [is_Exception].
  all: try (split; [reflexivity|]; split; [exact Hsub|];
            intros fd H; apply Hquiet in H; apply Hclose; exact H).
  rewrite (bind_eq _ _ _ _ _ _ (handle_ragflow_error_eq _ _ _)). cbv beta iota.
  split; [reflexivity|]. split; [exact Hsub|].
  intros fd H. apply Hquiet in H. apply Hclose. exact H.
Qed.

(** X20: the document upload command can never succeed either: with at
    least one file listed it always exits with status 1, and the handles
    it opened stay open. *)
Theorem upload_command_always_fails api_key base_url dataset_id file w s :
  file <> [] ->
  let final :=
    ragflow_main (mkRagflowArgs api_key base_url (DocumentUpload dataset_id file)) w s in
  fst final = Raise (SystemExit 1) /\
  open_fds s ⊆ open_fds (snd final) /\
  (forall fd, EvClose fd ∈ trace (snd final) -> EvClose fd ∈ trace s).
Proof. apply upload_command_ends. Qed.

Lemma upload_command_always_fails_witness :
  fst (ragflow_main (mkRagflowArgs "key" "http://localhost:8000/v1"
                       (DocumentUpload "d1" ["a.txt"]))
         (sample_world (ok JNull 0)) initial) = Raise (SystemExit 1).
Proof.
  apply (proj1 (upload_command_always_fails "key" "http://localhost:8000/v1" "d1" ["a.txt"]
                  (sample_world (ok JNull 0)) initial ltac:(discriminate))).
Defined.

(** X21: the dataset list command, answered by a 2xx response whose body
    has a ['total'] and a ['data'] array of records with a name, an id
    and a document count, sends one request, prints [Found {total}
    datasets:] (the total is the server's, not the length of the array)
    and then one line per record, in order, and returns 0. *)
Theorem dataset_list_prints api_key base_url page page_size w s resp kvs total datasets :
  let args := mkRagflowArgs api_key base_url (DatasetList page page_size) in
  (forall q, answer (respond w (sent s) q) = inr resp) ->
  is_2xx resp ->
  parsed resp = Some (JObject kvs) ->
  kvs !! "total" = Some total ->
  kvs !! "data" = Some (JArray datasets) ->
  Forall listable datasets ->
  exists s',
    RagflowCLI.run args w s = (Ret 0, s') /\
    sent s' = S (sent s) /\
    printed (trace s') =
      printed (trace s)
        ++ ("Found " +:+ py_str w total +:+ " datasets:") :: map (dataset_line w) datasets.
Proof.
  intros args Hreply H2 Hp Htotal Hdata Hall.
  eexists. split; [|split].
  - unfold RagflowCLI.run. cbn [command args].
    erewrite bind_eq; cycle 1.
    { unfold RagflowClient.list_datasets. cbn [truthy].
      mstep ltac:(eapply call_ok; [reflexivity|apply Hreply|assumption|eassumption]).
      mstep ltac:(apply getitem_some; exact Htotal).
      mstep ltac:(exact eq_refl).
      mstep ltac:(exact eq_refl).
      mstep ltac:(apply getitem_some; exact Hdata).
      mstep ltac:(exact eq_refl).
      apply for_each_dataset_lines. exact Hall. }
    reflexivity.
  - reflexivity.
  - cbn [trace log after_request clock sent next_fd open_fds].
    unfold printed. rewrite !omap_app. cbn [omap list_omap].
    rewrite app_nil_r, <- app_assoc. f_equal. cbn [app]. f_equal.
    clear. induction datasets as [|d rest IH]; [reflexivity|]. cbn. f_equal. exact IH.
Qed.

Lemma dataset_list_prints_witness :
  let resp :=
    mkResponse 200 "OK"
      "http://localhost:8000/v1/datasets?page=1&page_size=10&orderby=create_time&desc=True"
      false "" (Some (JObject one_dataset)) in
  exists s',
    RagflowCLI.run (mkRagflowArgs "key" "http://localhost:8000/v1" (DatasetList 1 10))
        (constant_world (mkReply (inr resp) 0)) initial = (Ret 0, s') /\
    sent s' = 1%nat /\
    printed (trace s') = ["Found 7 datasets:"; "- kb1 (ID: d1) - 3 documents"].
Proof.
  cbv zeta.
  apply (dataset_list_prints "key" "http://localhost:8000/v1" 1 10
           (constant_world
              (mkReply
                 (inr (mkResponse 200 "OK"
                         "http://localhost:8000/v1/datasets?page=1&page_size=10&orderby=create_time&desc=True"
                         false "" (Some (JObject one_dataset)))) 0))
           initial
           (mkResponse 200 "OK"
              "http://localhost:8000/v1/datasets?page=1&page_size=10&orderby=create_time&desc=True"
              false "" (Some (JObject one_dataset)))
           one_dataset (JInt 7) [kb1_record]).
  - intros q. reflexivity.
  - unfold is_2xx. cbn. lia.
  - reflexivity.
  - reflexivity.
  - reflexivity.
  - constructor; [|constructor]. eexists. split; [reflexivity|].
    repeat split; eexists; reflexivity.
Defined.

(** X22: optional request fields are sent only when given and not
    empty.  The query of [list_datasets] always has the page, the page
    size, the ordering and the direction, and has a name or id filter
    only for a non-empty string; [create_agent_completion] sends a
    session id only for a non-empty string; [create_dataset] sends a
    parser configuration only when it is given and truthy (an empty
    configuration is left out). *)
Theorem optional_fields_are_dropped self w s :
  (forall page page_size orderby desc name id,
     exists params,
       trace (snd (RagflowClient.list_datasets self page page_size orderby desc name id w s))
         = trace s ++ [EvRequest (mkRequest "GET" (RagflowClient.base_url self +:+ "/datasets")
                                    (QueryParams (JObject params)) []
                                    (RagflowClient.timeout self))] /\
       params !! "page" = Some (JInt page) /\
       params !! "page_size" = Some (JInt page_size) /\
       params !! "orderby" = Some (JString orderby) /\
       params !! "desc" = Some (JBool desc) /\
       params !! "name" = (if truthy name then JString <$> name else None) /\
       params !! "id" = (if truthy id then JString <$> id else None)) /\
  (forall agent_id messages stream session_id,
     exists body,
       trace (snd (RagflowClient.create_agent_completion self agent_id messages stream
                     session_id w s))
         = trace s ++ [EvRequest (mkRequest "POST"
                                    (RagflowClient.base_url self +:+ "/agents_openai/"
                                       +:+ agent_id +:+ "/chat/completions")
                                    (JsonPayload (JObject body)) []
                                    (RagflowClient.timeout self))] /\
       body !! "messages" = Some messages /\
       body !! "session_id" = (if truthy session_id then JString <$> session_id else None)) /\
  (forall name embedding_model permission chunk_method parser_config,
     exists body,
       trace (snd (RagflowClient.create_dataset self name embedding_model permission
                     chunk_method parser_config w s))
         = trace s ++ [EvRequest (mkRequest "POST" (RagflowClient.base_url self +:+ "/datasets")
                                    (JsonPayload (JObject body)) []
                                    (RagflowClient.timeout self))] /\
       body !! "name" = Some (JString name) /\
       body !! "parser_config" =
         (if truthy_json (json_opt parser_config) then parser_config else None)).
Proof.
  split; [|split].
  - intros page page_size orderby desc name id. eexists. split.
    + unfold RagflowClient.list_datasets. rewrite call_settle by reflexivity. reflexivity.
    + destruct name as [name|], id as [id|]; cbn [truthy default fmap option_fmap option_map];
        repeat match goal with
               | |- context [String.eqb ?x ""] => destruct (String.eqb x "")
               end; cbn [negb]; repeat split; simplify_map_eq; reflexivity.
  - intros agent_id messages stream session_id. eexists. split.
    + unfold RagflowClient.create_agent_completion. rewrite call_settle by reflexivity.
      reflexivity.
    + destruct session_id as [sid|]; cbn [truthy default fmap option_fmap option_map];
        repeat match goal with
               | |- context [String.eqb ?x ""] => destruct (String.eqb x "")
               end; cbn [negb]; repeat split; simplify_map_eq; reflexivity.
  - intros name embedding_model permission chunk_method parser_config. eexists. split.
    + unfold RagflowClient.create_dataset. rewrite call_settle by reflexivity. reflexivity.
    + destruct parser_config as [pc|].
      * change (json_opt (Some pc)) with pc.
        destruct (truthy_json pc); split; simplify_map_eq; reflexivity.
      * change (json_opt None) with JNull. cbn [truthy_json].
        split; simplify_map_eq; reflexivity.
Qed.

Lemma printed_rounds k req secs : printed (rounds k req secs) = [].
Proof. induction k as [|k IH]; [reflexivity|]. exact IH. Qed.

Lemma printed_app t1 t2 : printed (t1 ++ t2) = printed t1 ++ printed t2.
Proof. unfold printed. apply omap_app. Qed.

Lemma result_never_finishes fuel job_id output_path w s :
  always_pending w ->
  (22 <= fuel)%nat ->
  let final := minrue_main fuel (ArgsResult job_id output_path) w s in
  fst final = Raise (SystemExit 1) /\
  printed (trace (snd final)) =
    printed (trace s)
      ++ ["Retrieving results for job ID: " +:+ job_id; "Error: Result retrieval timed out"] /\
  open_fds (snd final) = open_fds s /\
  (sent (snd final) - sent s <= 22)%nat.
Proof.
  intros Hw Hfuel. cbv zeta.
  set (s0 := log (EvPrint ("Retrieving results for job ID: " +:+ job_id)) s).
  set (url := MinRueClient.base_url (MinRueCLI.client MinRueCLI.__init__)
                +:+ "/results/" +:+ py_str w (JString job_id)).
  destruct fuel as [|fuel]; [lia|].
  destruct (poll_pending (MinRueCLI.client MinRueCLI.__init__) url 60 3 (clock s0) w 0 Hw
              ltac:(intros; apply N.le_0_l) eq_refl fuel s0 ltac:(lia) ltac:(lia))
    as (s' & Hpoll & _ & _).
  pose proof (poll_shape (MinRueCLI.client MinRueCLI.__init__) url true 60 3 (clock s0) w
                (S fuel) s0) as Hshape.
  cbv zeta in Hshape. rewrite Hpoll in Hshape. cbn [fst snd] in Hshape.
  destruct Hshape as (k & Htrace & Hsent & Hfds & _ & Hk).
  erewrite minrue_main_of_try; cycle 1.
  { unfold minrue_try, MinRueCLI.result_try.
    mstep ltac:(exact eq_refl). fold s0.
    erewrite bind_eq; cycle 1.
    { rewrite get_result_is_poll. fold url. exact Hpoll. }
    reflexivity. }
  cbn [is_Exception timed_out fst snd trace open_fds sent log].
  split; [reflexivity|]. split; [|split].
  - rewrite printed_app, Htrace, !printed_app, printed_rounds.
    cbn [trace s0 log]. rewrite printed_app. cbn. rewrite <- !app_assoc. reflexivity.
  - rewrite Hfds. reflexivity.
  - rewrite Hsent. cbn [sent s0 log].
    assert (Z.of_nat k <= 21); [|lia].
    destruct Hk as [->|Hk]; [lia|]. lia.
Qed.

(** X23: the result command on a job that never finishes.  When every
    fetch finds the job not finished, the command gives up with the
    timeout error of [get_result]: it prints the job line and then
    [Error: Result retrieval timed out], exits with status 1, opens no
    file, and sends at most 22 requests (a wait of 60 at an interval of
    3). *)
Theorem result_command_times_out fuel job_id output_path w s :
  always_pending w ->
  (22 <= fuel)%nat ->
  let final := minrue_main fuel (ArgsResult job_id output_path) w s in
  fst final = Raise (SystemExit 1) /\
  printed (trace (snd final)) =
    printed (trace s)
      ++ ["Retrieving results for job ID: " +:+ job_id; "Error: Result retrieval timed out"] /\
  open_fds (snd final) = open_fds s /\
  (sent (snd final) - sent s <= 22)%nat.
Proof. apply result_never_finishes. Qed.

Lemma result_command_times_out_witness :
  let final := minrue_main 22 (ArgsResult "job-1" None) (sample_world (ok pending 4)) initial in
  fst final = Raise (SystemExit 1) /\
  printed (trace (snd final)) =
    printed (trace initial)
      ++ ["Retrieving results for job ID: job-1"; "Error: Result retrieval timed out"] /\
  open_fds (snd final) = open_fds initial /\
  (sent (snd final) - sent initial <= 22)%nat.
Proof.
  cbv zeta.
  apply (result_command_times_out 22 "job-1" None (sample_world (ok pending 4)) initial).
  - apply (always_pending_sample _ _ (JString "pending")); reflexivity.
  - lia.
Defined.




(** ** Exit codes, error kind by error kind *)




